(** * The adaptive capacity prober of SAWL

    A shallow embedding of [limit_probe.py] and of its production variant
    [limit_probe_prod.py]: the response classifier, the trial runner, the
    binary-search controller and the append-only trial log, followed by the
    properties the specification states about them.

    Conventions.
    - A Python [str] is a list of Unicode code points ([pystr]).
    - Python objects that reach the prober from a decoded JSON body are
      values of [pyval]; an operation that raises in Python returns [Raise].
    - The service is an oracle indexed by the number of HTTP calls made so
      far; the search loop, which Python does not bound, takes fuel.
    - The console, the log file and the dump files are there and can be
      written to.  What is modelled of them is what depends on the data: a
      text that the encoding of the console does not take, which is an
      oracle too, and a record that cannot be encoded as UTF-8.  A line
      that is printed from numbers and literals only is ASCII and is left
      out.
    - Library routines the source calls ([str.strip], [re.match],
      [json.loads], slicing) are modelled after CPython 3; the two Unicode
      property tables a regular expression consults ([\d] and the word
      characters behind [\b]) are a parameter, [UnicodeData]. *)

From Stdlib Require Import ZArith NArith List Bool Lia String Ascii.
Import ListNotations.

Set Implicit Arguments.

(* ================================================================== *)
(** * Part I. Definitions                                              *)
(* ================================================================== *)

(* ------------------------------------------------------------------ *)
(** ** Python strings                                                  *)
(* ------------------------------------------------------------------ *)

Module PyStr.
Local Open Scope N_scope.

(** A [str]: its code points, in order. *)
Definition pystr := list N.

(** An ASCII literal as a [str]. *)
Definition py (s : string) : pystr := map N_of_ascii (list_ascii_of_string s).

(** The same, with every apostrophe of the literal read as a double quote
    (so that JSON texts can be written down). *)
Definition jq (s : string) : pystr :=
  map (fun c => if c =? 39 then 34 else c) (py s).

(** [a == b] *)
Fixpoint str_eqb (a b : pystr) : bool :=
  match a, b with
  | [], [] => true
  | x :: a', y :: b' => (x =? y) && str_eqb a' b'
  | _, _ => false
  end.

(** [len(s)] *)
Definition len (s : pystr) : Z := Z.of_nat (List.length s).

(** [str.isspace] on one code point: CPython's [_PyUnicode_IsWhitespace]. *)
Definition isspace (c : N) : bool :=
  ((9 <=? c) && (c <=? 13)) || ((28 <=? c) && (c <=? 32))
  || (c =? 133) || (c =? 160) || (c =? 5760)
  || ((8192 <=? c) && (c <=? 8202))
  || (c =? 8232) || (c =? 8233) || (c =? 8239) || (c =? 8287)
  || (c =? 12288).

Fixpoint dropwhile (p : N -> bool) (s : pystr) : pystr :=
  match s with
  | c :: s' => if p c then dropwhile p s' else s
  | [] => []
  end.

(** [s.lstrip()], [s.rstrip()], [s.strip()] *)
Definition lstrip (s : pystr) : pystr := dropwhile isspace s.
Definition rstrip (s : pystr) : pystr := rev (dropwhile isspace (rev s)).
Definition strip (s : pystr) : pystr := rstrip (lstrip s).

(** [s.startswith(prefix)] *)
Fixpoint startswith (s prefix : pystr) {struct prefix} : bool :=
  match prefix, s with
  | [], _ => true
  | p :: prefix', c :: s' => (c =? p) && startswith s' prefix'
  | _ :: _, [] => false
  end.

(** [s.endswith(suffix)] *)
Definition endswith (s suffix : pystr) : bool :=
  startswith (rev s) (rev suffix).

(** [s.find(c)] for a one-character [c]: the least index, or -1. *)
Fixpoint find (c : N) (s : pystr) : Z :=
  match s with
  | [] => (-1)%Z
  | x :: s' =>
      if x =? c then 0%Z
      else let r := find c s' in if (r <? 0)%Z then (-1)%Z else (r + 1)%Z
  end.

(** [s.rfind(c)] for a one-character [c]: the greatest index, or -1. *)
Definition rfind (c : N) (s : pystr) : Z :=
  let r := find c (rev s) in
  if (r <? 0)%Z then -1 else (len s - 1 - r)%Z.

(** [s[:n]] for any integer [n] (a negative bound counts from the end). *)
Definition slice_to (s : pystr) (n : Z) : pystr :=
  if (n <? 0)%Z then firstn (Z.to_nat (len s + n)) s
  else firstn (Z.to_nat n) s.

(** [s[i:j]] for bounds that are not negative. *)
Definition slice (s : pystr) (i j : Z) : pystr :=
  skipn (Z.to_nat i) (firstn (Z.to_nat j) s).

(** [s.replace("\n", "\\n")] *)
Fixpoint escape_newlines (s : pystr) : pystr :=
  match s with
  | [] => []
  | c :: s' =>
      if c =? 10 then 92%N :: 110%N :: escape_newlines s'
      else c :: escape_newlines s'
  end.

(** A text of ASCII characters only. *)
Definition is_ascii (s : pystr) : Prop := Forall (fun c => c < 128) s.

Definition ascii_or_none (c : option N) : Prop :=
  match c with
  | Some c => c < 128
  | None => True
  end.

End PyStr.
Export PyStr.

(* ------------------------------------------------------------------ *)
(** ** The regular expressions of the stub heuristic                   *)
(* ------------------------------------------------------------------ *)

(** The part of the interpreter's Unicode character database that [re]
    consults: the decimal digits ([\d], category Nd) and the alphanumerics
    ([\w] is an alphanumeric or an underscore; [\b] is defined from it). *)
Definition ascii_isdecimal (c : N) : bool := ((48 <=? c) && (c <=? 57))%N.
Definition ascii_isalnum (c : N) : bool :=
  (((48 <=? c) && (c <=? 57)) || ((65 <=? c) && (c <=? 90))
   || ((97 <=? c) && (c <=? 122)))%N.

(** The tables depend on the Unicode version of the interpreter; below 128
    every version has the ASCII digits and letters and nothing else. *)
Class UnicodeData := {
  uni_isdecimal : N -> bool;
  uni_isalnum : N -> bool;
  uni_isdecimal_ascii :
    forall c, (c < 128)%N -> uni_isdecimal c = ascii_isdecimal c;
  uni_isalnum_ascii :
    forall c, (c < 128)%N -> uni_isalnum c = ascii_isalnum c
}.

(** The tables cut down to ASCII: what every version says of an ASCII text. *)
Definition ascii_ucd : UnicodeData := {|
  uni_isdecimal := ascii_isdecimal;
  uni_isalnum := ascii_isalnum;
  uni_isdecimal_ascii := fun _ _ => eq_refl;
  uni_isalnum_ascii := fun _ _ => eq_refl
|}.

(** Tables that also know the Arabic-Indic digits U+0660 to U+0669, decimal
    digits (category Nd) of every Unicode version: enough to tell an
    interpreter's tables from the ASCII ones. *)
Definition is_arabic_indic_digit (c : N) : bool :=
  ((1632 <=? c) && (c <=? 1641))%N.

Definition arabic_ucd : UnicodeData.
Proof.
  refine {|
    uni_isdecimal := fun c => ascii_isdecimal c || is_arabic_indic_digit c;
    uni_isalnum := fun c => ascii_isalnum c || is_arabic_indic_digit c
  |}; intros c H; unfold is_arabic_indic_digit;
  (replace (1632 <=? c)%N with false by (symmetry; apply N.leb_gt; lia));
  now rewrite orb_false_r.
Defined.

Module Re.
Local Open Scope N_scope.

(** The fragment of [re] syntax the two patterns use.  A repetition is
    always over a single character class. *)
Inductive regex :=
| Chr (p : N -> bool)       (* one character of a class, or a literal *)
| Star (p : N -> bool)      (* [c*], greedy *)
| Seq (r1 r2 : regex)
| Eps
| WordBoundary.             (* [\b] *)

Definition Plus (p : N -> bool) : regex := Seq (Chr p) (Star p).

Section Matcher.
Context {ucd : UnicodeData}.

Definition is_word (c : option N) : bool :=
  match c with
  | Some c => uni_isalnum c || (c =? 95)
  | None => false
  end.

(** Greedy repetition with backtracking: take one more character when the
    class allows it, and fall back to stopping here. *)
Fixpoint star (p : N -> bool) (prev : option N) (s : pystr)
    (k : option N -> pystr -> bool) : bool :=
  match s with
  | c :: s' => if p c then star p (Some c) s' k || k prev s else k prev s
  | [] => k prev s
  end.

(** [matches r prev s k]: [r] matches a prefix of [s] (the character before
    [s] being [prev]) in such a way that the continuation [k] accepts what
    follows. *)
Fixpoint matches (r : regex) (prev : option N) (s : pystr)
    (k : option N -> pystr -> bool) : bool :=
  match r with
  | Chr p =>
      match s with
      | c :: s' => p c && k (Some c) s'
      | [] => false
      end
  | Star p => star p prev s k
  | Seq r1 r2 => matches r1 prev s (fun prev' s' => matches r2 prev' s' k)
  | Eps => k prev s
  | WordBoundary => xorb (is_word prev) (is_word (hd_error s)) && k prev s
  end.

(** [re.match(r, s)] is not [None]. *)
Definition re_match (r : regex) (s : pystr) : bool :=
  matches r None s (fun _ _ => true).

End Matcher.

(** A literal character. *)
Definition lit (a : N) : N -> bool := fun c => c =? a.

(** A literal letter under [re.IGNORECASE]: the letter, its other case, and
    the two code points whose lower case is an ASCII letter (the Kelvin sign
    for k, the long s for s). *)
Definition lit_i (a : N) : N -> bool := fun c =>
  (c =? a) || ((65 <=? a) && (a <=? 90) && (c =? a + 32))
  || ((97 <=? a) && (a <=? 122) && (c =? a - 32))
  || ((a =? 107) && (c =? 8490)) || ((a =? 115) && (c =? 383)).

Fixpoint literal_i (s : pystr) : regex :=
  match s with
  | [] => Eps
  | a :: s' => Seq (Chr (lit_i a)) (literal_i s')
  end.

(** *** Notions the properties are stated with *)

(** A continuation that accepts whatever another accepts. *)
Definition weaker (k k' : option N -> pystr -> bool) : Prop :=
  forall prev s, k prev s = true -> k' prev s = true.

(** Continuations, and expressions, that do not differ on ASCII. *)
Definition agree_on_ascii (k k' : option N -> pystr -> bool) : Prop :=
  forall prev s, ascii_or_none prev -> is_ascii s -> k prev s = k' prev s.

Inductive regex_agree : regex -> regex -> Prop :=
| agree_chr p p' :
    (forall c, c < 128 -> p c = p' c) -> regex_agree (Chr p) (Chr p')
| agree_star p p' :
    (forall c, c < 128 -> p c = p' c) -> regex_agree (Star p) (Star p')
| agree_seq r1 r1' r2 r2' :
    regex_agree r1 r1' -> regex_agree r2 r2' ->
    regex_agree (Seq r1 r2) (Seq r1' r2')
| agree_eps : regex_agree Eps Eps
| agree_boundary : regex_agree WordBoundary WordBoundary.

End Re.

(* ------------------------------------------------------------------ *)
(** ** Outcomes                                                        *)
(* ------------------------------------------------------------------ *)

(** The seven strings [classify_outcome] returns. *)
Inductive Outcome :=
| OK_JSON | OK_TEXT | STUB | BAD_JSON | EMPTY | TRUNCATED | ERROR.

Definition Outcome_eqb (a b : Outcome) : bool :=
  match a, b with
  | OK_JSON, OK_JSON | OK_TEXT, OK_TEXT | STUB, STUB | BAD_JSON, BAD_JSON
  | EMPTY, EMPTY | TRUNCATED, TRUNCATED | ERROR, ERROR => true
  | _, _ => false
  end.

(** [is_success], the local function of [main]. *)
Definition is_success (outcome : Outcome) : bool :=
  match outcome with
  | OK_JSON | OK_TEXT => true
  | _ => false
  end.

(* ------------------------------------------------------------------ *)
(** ** Python objects and exceptions                                   *)
(* ------------------------------------------------------------------ *)

(** What [json.loads] can return.  A float is kept as the text it was read
    from: the prober carries floats around and never computes on one. *)
Inductive pyval :=
| PNone
| PBool (b : bool)
| PInt (z : Z)
| PFloat (lexeme : pystr)
| PStr (s : pystr)
| PList (items : list pyval)
| PDict (items : list (pystr * pyval)).

(** The exceptions a trial can end in. *)
Inductive exn :=
| AttributeError          (* a method of [str] or [dict] asked of another object *)
| TypeError               (* [len] of an object that has none *)
| RequestException        (* [requests.post] failed: connection, timeout *)
| HTTPStatusError         (* [raise_for_status] on a 4xx or 5xx status *)
| JSONDecodeError         (* [Response.json] on a body that is not JSON *)
| UnicodeEncodeError      (* a text that the console or the log file cannot encode *)
| Uncaught (type_name : pystr).
                          (* what [post_ollama] lets through, by the name of its type *)

Inductive py_result (A : Type) :=
| Return (a : A)
| Raise (e : exn).
Arguments Return {A} a.
Arguments Raise {A} e.

Definition bind {A B : Type} (m : py_result A) (f : A -> py_result B)
  : py_result B :=
  match m with
  | Return a => f a
  | Raise e => Raise e
  end.

Notation "x <- m ;; f" := (bind m (fun x => f))
  (at level 61, m at next level, right associativity).

(** [d.get(key, default)] on a [dict] built from pairs in reading order: a
    later pair of the same key has overwritten an earlier one. *)
Fixpoint dict_get (items : list (pystr * pyval)) (key : pystr)
    (default : pyval) : pyval :=
  match items with
  | [] => default
  | (k, v) :: items' =>
      dict_get items' key (if str_eqb k key then v else default)
  end.

(** [obj.get(key, default)]: only a [dict] has the method. *)
Definition py_get (obj : pyval) (key : pystr) (default : pyval)
  : py_result pyval :=
  match obj with
  | PDict items => Return (dict_get items key default)
  | _ => Raise AttributeError
  end.

(** [obj.strip()]: only a [str] has the method. *)
Definition py_strip (obj : pyval) : py_result pystr :=
  match obj with
  | PStr s => Return (strip s)
  | _ => Raise AttributeError
  end.

(** [len(obj)] *)
Definition py_len (obj : pyval) : py_result Z :=
  match obj with
  | PStr s => Return (len s)
  | PList l => Return (Z.of_nat (List.length l))
  | PDict d =>
      Return (Z.of_nat (List.length
        (nodup (list_eq_dec N.eq_dec) (map fst d))))
  | _ => Raise TypeError
  end.

(** [obj == "..."] against a string literal. *)
Definition py_eq_str (obj : pyval) (s : pystr) : bool :=
  match obj with
  | PStr x => str_eqb x s
  | _ => false
  end.

(* ------------------------------------------------------------------ *)
(** ** [json.loads]                                                    *)
(* ------------------------------------------------------------------ *)

(** CPython's decoder with its defaults ([strict=True], the accelerated
    scanner): objects, arrays, strings with escapes and surrogate pairs,
    numbers, [true], [false], [null], and the three constants [NaN],
    [Infinity], [-Infinity].  Two interpreter limits are left out: the
    recursion limit on nesting and the limit on the digits of an integer. *)
Module Json.
Local Open Scope N_scope.

Inductive scan (A : Type) :=
| Scanned (a : A) (rest : pystr)
| Malformed
| NoFuel.
Arguments Scanned {A} a rest.
Arguments Malformed {A}.
Arguments NoFuel {A}.

Definition is_ws (c : N) : bool :=
  (c =? 32) || (c =? 9) || (c =? 10) || (c =? 13).

Definition skip_ws (s : pystr) : pystr := dropwhile is_ws s.

Definition is_digit (c : N) : bool := (48 <=? c) && (c <=? 57).

Definition hexval (c : N) : option N :=
  if (48 <=? c) && (c <=? 57) then Some (c - 48)
  else if (97 <=? c) && (c <=? 102) then Some (c - 87)
  else if (65 <=? c) && (c <=? 70) then Some (c - 55)
  else None.

Definition hex4 (h1 h2 h3 h4 : N) : option N :=
  match hexval h1, hexval h2, hexval h3, hexval h4 with
  | Some a, Some b, Some c, Some d => Some (((a * 16 + b) * 16 + c) * 16 + d)
  | _, _, _, _ => None
  end.

(** The character a one-letter escape stands for. *)
Definition unescape (e : N) : option N :=
  if e =? 34 then Some 34          (* a quote *)
  else if e =? 92 then Some 92     (* a backslash *)
  else if e =? 47 then Some 47     (* a slash *)
  else if e =? 98 then Some 8      (* b: backspace *)
  else if e =? 102 then Some 12    (* f: form feed *)
  else if e =? 110 then Some 10    (* n: line feed *)
  else if e =? 114 then Some 13    (* r: carriage return *)
  else if e =? 116 then Some 9     (* t: tab *)
  else None.

Definition high_surrogate (u : N) : bool := (55296 <=? u) && (u <=? 56319).
Definition low_surrogate (u : N) : bool := (56320 <=? u) && (u <=? 57343).
Definition join_surrogates (hi lo : N) : N :=
  65536 + ((hi - 55296) * 1024 + (lo - 56320)).

Definition push (c : N) (r : option (pystr * pystr)) : option (pystr * pystr) :=
  match r with
  | Some (str, rest) => Some (c :: str, rest)
  | None => None
  end.

(** [scanstring]: [s] starts just after the opening quote; the result is the
    decoded string and what follows the closing quote. *)
Fixpoint scanstring (s : pystr) : option (pystr * pystr) :=
  match s with
  | [] => None                                  (* unterminated *)
  | c :: s1 =>
      if c =? 34 then Some ([], s1)
      else if c =? 92 then
        match s1 with
        | [] => None
        | e :: s2 =>
            if e =? 117 then                    (* \uXXXX *)
              match s2 with
              | h1 :: h2 :: h3 :: h4 :: s3 =>
                  match hex4 h1 h2 h3 h4 with
                  | None => None
                  | Some u =>
                      if high_surrogate u then
                        match s3 with
                        | b :: x :: k1 :: k2 :: k3 :: k4 :: s4 =>
                            if (b =? 92) && (x =? 117) then
                              match hex4 k1 k2 k3 k4 with
                              | None => None
                              | Some u2 =>
                                  if low_surrogate u2
                                  then push (join_surrogates u u2) (scanstring s4)
                                  else push u (scanstring s3)
                              end
                            else push u (scanstring s3)
                        | _ => push u (scanstring s3)
                        end
                      else push u (scanstring s3)
                  end
              | _ => None
              end
            else
              match unescape e with
              | Some c' => push c' (scanstring s2)
              | None => None                    (* invalid escape *)
              end
        end
      else if c <=? 31 then None                (* control character *)
      else push c (scanstring s1)
  end.

Fixpoint take_digits (s : pystr) : pystr * pystr :=
  match s with
  | c :: s' =>
      if is_digit c then let (ds, r) := take_digits s' in (c :: ds, r)
      else ([], s)
  | [] => ([], [])
  end.

Definition digits_value (ds : pystr) : Z :=
  fold_left (fun acc d => (acc * 10 + Z.of_N (d - 48))%Z) ds 0%Z.

(** The integer part of a number: [0], or a non-zero digit and more digits. *)
Definition int_part (s : pystr) : option (pystr * pystr) :=
  match s with
  | c :: s' =>
      if c =? 48 then Some ([c], s')
      else if (49 <=? c) && (c <=? 57)
      then let (ds, r) := take_digits s' in Some (c :: ds, r)
      else None
  | [] => None
  end.

(** A fraction: a dot and at least one digit, or nothing. *)
Definition frac_part (s : pystr) : pystr * pystr :=
  match s with
  | dot :: d :: s' =>
      if (dot =? 46) && is_digit d
      then let (ds, r) := take_digits s' in (dot :: d :: ds, r)
      else ([], s)
  | _ => ([], s)
  end.

(** An exponent: [e] or [E], an optional sign and at least one digit, or
    nothing (the scanner backtracks when no digit follows). *)
Definition exp_part (s : pystr) : pystr * pystr :=
  match s with
  | e :: s' =>
      if (e =? 101) || (e =? 69) then
        let (sign, s'') :=
          match s' with
          | sg :: s3 => if (sg =? 45) || (sg =? 43) then ([sg], s3) else ([], s')
          | [] => ([], s')
          end in
        let (ds, r) := take_digits s'' in
        match ds with
        | [] => ([], s)
        | _ :: _ => (e :: sign ++ ds, r)
        end
      else ([], s)
  | [] => ([], s)
  end.

(** [_match_number] *)
Definition match_number (s : pystr) : option (pyval * pystr) :=
  let (neg, s1) :=
    match s with
    | c :: s' => if c =? 45 then (true, s') else (false, s)
    | [] => (false, s)
    end in
  match int_part s1 with
  | None => None
  | Some (ip, r0) =>
      let (fp, r1) := frac_part r0 in
      let (ep, r2) := exp_part r1 in
      match fp, ep with
      | [], [] =>
          Some (PInt (if neg then - digits_value ip else digits_value ip)%Z, r2)
      | _, _ =>
          Some (PFloat ((if neg then [45] else []) ++ ip ++ fp ++ ep), r2)
      end
  end.

(** A keyword at the head of [s]. *)
Definition keyword (s : pystr) (w : string) (v : pyval) : option (pyval * pystr) :=
  if startswith s (py w) then Some (v, skipn (String.length w) s) else None.

Definition first_of {A : Type} (a b : option A) : option A :=
  match a with Some _ => a | None => b end.

Definition scalar (s : pystr) : option (pyval * pystr) :=
  first_of (keyword s "null" PNone)
  (first_of (keyword s "true" (PBool true))
  (first_of (keyword s "false" (PBool false))
  (first_of (keyword s "NaN" (PFloat (py "NaN")))
  (first_of (keyword s "Infinity" (PFloat (py "Infinity")))
  (first_of (keyword s "-Infinity" (PFloat (py "-Infinity")))
            (match_number s)))))).

(** [scan_once], with [_parse_object] and [_parse_array] as the loops over
    the members of an object and the elements of an array.  [members] is
    entered at a key, [elements] at a value; both carry what was read so
    far, latest first. *)
Fixpoint scan_once (fuel : nat) (s : pystr) : scan pyval :=
  match fuel with
  | O => NoFuel
  | S fuel' =>
      match s with
      | [] => Malformed
      | c :: s' =>
          if c =? 34 then
            match scanstring s' with
            | Some (str, rest) => Scanned (PStr str) rest
            | None => Malformed
            end
          else if c =? 123 then
            match skip_ws s' with
            | d :: s'' =>
                if d =? 125 then Scanned (PDict []) s''
                else members fuel' (skip_ws s') []
            | [] => Malformed
            end
          else if c =? 91 then
            match skip_ws s' with
            | d :: s'' =>
                if d =? 93 then Scanned (PList []) s''
                else elements fuel' (skip_ws s') []
            | [] => Malformed
            end
          else
            match scalar s with
            | Some (v, rest) => Scanned v rest
            | None => Malformed
            end
      end
  end
with members (fuel : nat) (s : pystr) (acc : list (pystr * pyval))
  : scan pyval :=
  match fuel with
  | O => NoFuel
  | S fuel' =>
      match s with
      | [] => Malformed
      | q :: s1 =>
          if q =? 34 then
            match scanstring s1 with
            | None => Malformed
            | Some (key, s2) =>
                match skip_ws s2 with
                | [] => Malformed
                | colon :: s3 =>
                    if colon =? 58 then
                      match scan_once fuel' (skip_ws s3) with
                      | Scanned v s4 =>
                          match skip_ws s4 with
                          | [] => Malformed
                          | d :: s5 =>
                              if d =? 125
                              then Scanned (PDict (rev ((key, v) :: acc))) s5
                              else if d =? 44
                              then members fuel' (skip_ws s5) ((key, v) :: acc)
                              else Malformed
                          end
                      | Malformed => Malformed
                      | NoFuel => NoFuel
                      end
                    else Malformed
                end
            end
          else Malformed
      end
  end
with elements (fuel : nat) (s : pystr) (acc : list pyval) : scan pyval :=
  match fuel with
  | O => NoFuel
  | S fuel' =>
      match scan_once fuel' s with
      | Scanned v s1 =>
          match skip_ws s1 with
          | [] => Malformed
          | d :: s2 =>
              if d =? 93 then Scanned (PList (rev (v :: acc))) s2
              else if d =? 44 then elements fuel' (skip_ws s2) (v :: acc)
              else Malformed
          end
      | Malformed => Malformed
      | NoFuel => NoFuel
      end
  end.

(** [json.loads(s)] for a [str]: [None] when it raises. *)
Definition loads (s : pystr) : option pyval :=
  if startswith s [65279] then None             (* a byte order mark *)
  else
    match scan_once (S (2 * List.length s)) (skip_ws s) with
    | Scanned v rest =>
        match skip_ws rest with
        | [] => Some v
        | _ :: _ => None                        (* extra data *)
        end
    | Malformed => None
    | NoFuel => None
    end.

End Json.

(** [json.loads(s)] returns. *)
Definition parses (s : pystr) : bool :=
  match Json.loads s with
  | Some _ => true
  | None => false
  end.

(* ------------------------------------------------------------------ *)
(** ** Truth values, dictionaries and encodings                        *)
(* ------------------------------------------------------------------ *)

(** Whether the float that a number with a fraction or an exponent was read
    as is zero.  [float] rounds to the nearest double, ties to even: the
    float is zero when the digits are all zero, and when the value is at
    most [2^-1075], half the least positive double.  ([NaN] and the
    infinities have no digits.) *)
Definition float_is_zero (lexeme : pystr) : bool :=
  let unsigned :=
    match lexeme with
    | c :: s => if (c =? 45)%N then s else lexeme
    | [] => lexeme
    end in
  let (ip, r0) := Json.take_digits unsigned in
  let (fp, r1) :=
    match r0 with
    | dot :: r => if (dot =? 46)%N then Json.take_digits r else ([], r0)
    | [] => ([], r0)
    end in
  let exponent :=
    match r1 with
    | _ :: sg :: r =>
        if (sg =? 45)%N then (- Json.digits_value r)%Z
        else if (sg =? 43)%N then Json.digits_value r
        else Json.digits_value (sg :: r)
    | _ => 0%Z
    end in
  match ip ++ fp with
  | [] => false
  | _ :: _ =>
      let m := Json.digits_value (ip ++ fp) in
      let e10 := (exponent - len fp)%Z in
      ((m =? 0) || ((e10 <? 0) && (m * 2 ^ 1075 <=? 10 ^ (- e10))))%Z
  end.

(** Truth value of an object. *)
Definition truthy (obj : pyval) : bool :=
  match obj with
  | PNone => false
  | PBool b => b
  | PInt z => negb (z =? 0)%Z
  | PFloat x => negb (float_is_zero x)
  | PStr s => match s with [] => false | _ => true end
  | PList l => match l with [] => false | _ => true end
  | PDict d => match d with [] => false | _ => true end
  end.

(** [a or b] *)
Definition py_or (a b : pyval) : pyval := if truthy a then a else b.

(** [d[k] = v] on a dictionary kept as its pairs in insertion order: a key
    that is there keeps its place. *)
Fixpoint dict_set (A : Type) (k : pystr) (v : A) (d : list (pystr * A))
  : list (pystr * A) :=
  match d with
  | [] => [(k, v)]
  | (k', v') :: d' =>
      if str_eqb k' k then (k', v) :: d' else (k', v') :: dict_set k v d'
  end.

(** The dictionary that the pairs of a decoded object make, in reading
    order. *)
Definition as_dict (A : Type) (pairs : list (pystr * A)) : list (pystr * A) :=
  fold_left (fun d kv => dict_set (fst kv) (snd kv) d) pairs [].

(** A surrogate, U+D800 to U+DFFF: the code points that UTF-8 does not
    encode. *)
Definition is_surrogate (c : N) : bool := ((55296 <=? c) && (c <=? 57343))%N.

(** [s.encode("utf-8")] does not raise. *)
Definition encodes (s : pystr) : bool := negb (existsb is_surrogate s).

(** The same for the text [json.dumps(v, ensure_ascii=False)] writes: the
    strings and the keys that [v] holds are written as they are, the rest
    in ASCII. *)
Fixpoint utf8_ok (v : pyval) : bool :=
  match v with
  | PStr s => encodes s
  | PList items => forallb utf8_ok items
  | PDict items =>
      forallb (fun kv : pystr * bool => encodes (fst kv) && snd kv)
        (as_dict (map (fun kv => (fst kv, utf8_ok (snd kv))) items))
  | _ => true
  end.

(* ------------------------------------------------------------------ *)
(** ** The world outside the prober                                    *)
(* ------------------------------------------------------------------ *)

(** A float the prober only carries (a temperature, a duration). *)
Inductive pyfloat := Float (repr : pystr).

(** [round(x, 3)], kept symbolic. *)
Inductive rounded := Round3 (x : pyfloat).

(** The JSON body of a request to [/api/generate]. *)
Record payload := {
  p_model : pystr;
  p_system : option pystr;
  p_prompt : pystr;
  p_stream : bool;
  p_temperature : pyfloat;
  p_num_ctx : Z;
  p_num_predict : Z;
  p_format : option pystr
}.

Record request := {
  r_url : pystr;
  r_payload : payload;
  r_timeout : Z
}.

(** How the building of the request, [urllib.request.urlopen] and the
    reading of the body end:
    - a response, with its status and its body decoded as UTF-8 (bytes that
      do not decode are replaced, so every body is some text);
    - an [HTTPError], with its code and the text of its body;
    - any other [Exception] of the call (no connection, a timeout), with
      the name of its type and its message;
    - an exception that [post_ollama] does not capture, by the name of its
      type: the [ValueError] of [request.Request] for a URL without a
      scheme, the request being built before the [try]; what [e.read()]
      raises in the handler of an [HTTPError]; an exception that is no
      [Exception] (an interrupt). *)
Inductive urlopen_outcome :=
| Responded (status : Z) (text : pystr)
| RaisedHTTPError (code : option Z) (text : pystr)
| RaisedException (type_name message : pystr)
| Escaped (type_name : pystr).

(** What surrounds one HTTP call: the network, the wall-clock time the call
    took, the local time when its log line is written, and the console:
    whether its encoding takes the text ([str(v)]) of a value that a line
    interpolates. *)
Record environment := {
  net : request -> urlopen_outcome;
  elapsed : pyfloat;
  now : pystr;
  console : pyval -> bool
}.

(** [print] of a line that interpolates [v]. *)
Definition print (env : environment) (v : pyval) : py_result unit :=
  if console env v then Return tt else Raise UnicodeEncodeError.

(** The environment of each call, by the number of calls made before. *)
Definition world := nat -> environment.

(* ------------------------------------------------------------------ *)
(** ** [limit_probe.py]                                                *)
(* ------------------------------------------------------------------ *)

Module LimitProbe.

Record RunResult := {
  n_chars : Z;
  elapsed_s : pyfloat;
  http_status : Z;
  done_reason : pyval;
  eval_count : pyval;
  prompt_eval_count : pyval;
  total_duration : pyval;
  raw_response_len : Z;
  outcome : Outcome;
  response_preview : pystr
}.

(** The marker [post_ollama] puts in front of a captured exception. *)
Definition EXCEPTION_MARKER : pystr := py "__EXCEPTION__".

(** [post_ollama]: a response, an [HTTPError] and any other [Exception] of
    the call become a status and a text; the rest is raised. *)
Definition post_ollama (network : request -> urlopen_outcome)
    (url : pystr) (body : payload) (timeout_s : Z) : py_result (Z * pystr) :=
  match network {| r_url := url; r_payload := body; r_timeout := timeout_s |} with
  | Responded status text => Return (status, text)
  | RaisedHTTPError code txt =>
      Return (match code with Some c => c | None => 0 end, txt)
  | RaisedException type_name message =>
      Return (0, EXCEPTION_MARKER ++ py " " ++ type_name ++ py ": " ++ message)
  | Escaped type_name => Raise (Uncaught type_name)
  end%Z.

(** [extract_generate_fields].  The second error message also quotes the
    decoder's exception in the source; nothing reads it. *)
Definition extract_generate_fields (http_text : pystr) : pyval :=
  let http_text := lstrip http_text in
  if negb (startswith http_text (py "{")) then
    PDict [(py "_parse_error",
            PStr (py "HTTP body did not start with JSON object"));
           (py "_raw", PStr http_text)]
  else
    match Json.loads http_text with
    | Some data => data
    | None =>
        PDict [(py "_parse_error", PStr (py "Could not parse HTTP JSON"));
               (py "_raw", PStr http_text)]
    end.

(** The shape of the dictionary it returns for a body it could not read. *)
Definition raw_envelope (message text : pystr) : pyval :=
  PDict [(py "_parse_error", PStr message); (py "_raw", PStr text)].

Section Classifier.
Context {ucd : UnicodeData}.
Import Re.

(** [^\s*\d+\.\s+] (the anchor is the start of the text, where [re.match]
    starts anyway). *)
Definition bullet_re : regex :=
  Seq (Star isspace)
      (Seq (Plus uni_isdecimal) (Seq (Chr (lit 46)) (Plus isspace))).

(** [^\s*\d+\.\s+The speaker\b], compiled with [re.IGNORECASE]. *)
Definition outline_re : regex :=
  Seq bullet_re (Seq (literal_i (py "The speaker")) WordBoundary).

(** [looks_like_stub] *)
Definition looks_like_stub (resp_text : pystr) : bool :=
  let t := strip resp_text in
  match t with
  | [] => true
  | _ :: _ =>
      if (len t <? 80)%Z && re_match outline_re t then true
      else if (len t <? 120)%Z && re_match bullet_re t then true
      else false
  end.

(** [try_parse_json_output] *)
Definition try_parse_json_output (resp_text : pystr) : bool :=
  let t := strip resp_text in
  match t with
  | [] => false
  | _ :: _ =>
      if startswith t (py "{") && endswith t (py "}") then
        match Json.loads t with
        | Some _ => true
        | None => false
        end
      else
        let start := find 123 t in
        let end_ := rfind 125 t in
        if (start =? -1)%Z || (end_ =? -1)%Z || (end_ <=? start)%Z then false
        else
          let candidate := slice t start (end_ + 1) in
          match Json.loads candidate with
          | Some _ => true
          | None => false
          end
  end.

(** [classify_outcome].  The source takes whatever object the envelope held
    under [response]; the first thing it does, [resp_text.strip()], raises
    on anything but a [str]. *)
Definition classify_outcome (resp_text : pyval) (want_json : bool)
    (done_reason : pyval) : py_result Outcome :=
  t <- py_strip resp_text ;;
  Return
    (if startswith t EXCEPTION_MARKER then ERROR
     else
       match t with
       | [] => EMPTY
       | _ :: _ =>
           if looks_like_stub t then STUB
           else if want_json then
             if try_parse_json_output t then OK_JSON
             else if py_eq_str done_reason (py "length") then TRUNCATED
             else BAD_JSON
           else if py_eq_str done_reason (py "length") then TRUNCATED
           else OK_TEXT
       end).

(** [build_prompt] *)
Definition build_prompt (instructions transcript : pystr) : pystr :=
  strip instructions ++ [10; 10]%N
  ++ py "===TRANSCRIPT_BEGIN===" ++ [10]%N
  ++ transcript
  ++ [10]%N ++ py "===TRANSCRIPT_END===" ++ [10]%N.

(** [run_once], in the environment of its one HTTP call. *)
Definition run_once (env : environment)
    (url model instructions transcript_prefix : pystr)
    (want_json stream : bool) (temperature : pyfloat)
    (num_ctx num_predict timeout_s : Z) : py_result RunResult :=
  let prompt := build_prompt instructions transcript_prefix in
  let body := {|
    p_model := model;
    p_system := None;
    p_prompt := prompt;
    p_stream := stream;
    p_temperature := temperature;
    p_num_ctx := num_ctx;
    p_num_predict := num_predict;
    p_format := if want_json then Some (py "json") else None
  |} in
  answer <- post_ollama (net env) url body timeout_s ;;
  let (status, http_text) := answer in
  let data := extract_generate_fields http_text in
  raw <- py_get data (py "_raw") (PStr []) ;;
  resp_text <- py_get data (py "response") raw ;;
  done_reason <- py_get data (py "done_reason") (PStr (py "unknown")) ;;
  outcome <- classify_outcome resp_text want_json done_reason ;;
  stripped <- py_strip resp_text ;;
  let preview := escape_newlines stripped in
  let preview :=
    if (len preview >? 220)%Z then firstn 220 preview ++ [8230]%N
    else preview in
  eval_count <- py_get data (py "eval_count") PNone ;;
  prompt_eval_count <- py_get data (py "prompt_eval_count") PNone ;;
  total_duration <- py_get data (py "total_duration") PNone ;;
  raw_response_len <- py_len (py_or resp_text (PStr [])) ;;
  Return {|
    n_chars := len transcript_prefix;
    elapsed_s := elapsed env;
    http_status := status;
    done_reason := done_reason;
    eval_count := eval_count;
    prompt_eval_count := prompt_eval_count;
    total_duration := total_duration;
    raw_response_len := raw_response_len;
    outcome := outcome;
    response_preview := preview
  |}.

End Classifier.

Local Open Scope Z_scope.

(** The command line, once parsed by [argparse]. *)
Record Args := {
  url : pystr;
  model : pystr;
  want_json : bool;
  num_ctx : Z;
  num_predict : Z;
  temperature : pyfloat;
  timeout : Z;
  min_chars : Z;
  max_chars : Z;
  tolerance : Z;
  log : pystr
}.

(** One line of the JSONL log: the dictionary [write_log_line] dumps. *)
Record LogLine := {
  l_n_chars : Z;
  l_elapsed_s : rounded;
  l_http_status : Z;
  l_done_reason : pyval;
  l_eval_count : pyval;
  l_prompt_eval_count : pyval;
  l_total_duration : pyval;
  l_raw_response_len : Z;
  l_outcome : Outcome;
  l_preview : pystr;
  l_search_lo : Z;
  l_search_hi : Z;
  l_ts : pystr
}.

(** The dictionary [write_log_line] builds; [ts] is [time.strftime] at the
    time of writing. *)
Definition log_line (ts : pystr) (rr : RunResult) (lo hi : Z) : LogLine := {|
    l_n_chars := n_chars rr;
    l_elapsed_s := Round3 (elapsed_s rr);
    l_http_status := http_status rr;
    l_done_reason := done_reason rr;
    l_eval_count := eval_count rr;
    l_prompt_eval_count := prompt_eval_count rr;
    l_total_duration := total_duration rr;
    l_raw_response_len := raw_response_len rr;
    l_outcome := outcome rr;
    l_preview := response_preview rr;
    l_search_lo := lo;
    l_search_hi := hi;
    l_ts := ts
  |}.

(** The line [l] carries the fields of the trial [rr] and the time [ts]. *)
Definition carries (l : LogLine) (ts : pystr) (rr : RunResult) : Prop :=
  l_n_chars l = n_chars rr /\
  l_elapsed_s l = Round3 (elapsed_s rr) /\
  l_http_status l = http_status rr /\
  l_done_reason l = done_reason rr /\
  l_eval_count l = eval_count rr /\
  l_prompt_eval_count l = prompt_eval_count rr /\
  l_total_duration l = total_duration rr /\
  l_raw_response_len l = raw_response_len rr /\
  l_outcome l = outcome rr /\
  l_preview l = response_preview rr /\
  l_ts l = ts.

(** Whether the text of a line can be encoded as UTF-8: the numbers and
    the name of the outcome are ASCII; the values the service sent, the
    preview and the time are written as they are. *)
Definition line_encodes (l : LogLine) : bool :=
  utf8_ok (l_done_reason l) && utf8_ok (l_eval_count l)
  && utf8_ok (l_prompt_eval_count l) && utf8_ok (l_total_duration l)
  && encodes (l_preview l) && encodes (l_ts l).

(** [write_log_line]: the file, opened in append mode with the encoding
    UTF-8, with one more line, or as it was when the text of the line
    cannot be encoded. *)
Definition write_log_line (file : list LogLine) (ts : pystr)
    (rr : RunResult) (lo hi : Z) : py_result (list LogLine) :=
  let line := log_line ts rr lo hi in
  if line_encodes line then Return (file ++ [line])
  else Raise UnicodeEncodeError.

(** The variables of [main] that the search reads and writes, the log file,
    and the number of HTTP calls made so far. *)
Record SearchState := {
  lo : Z;
  hi : Z;
  best_ok : option RunResult;
  log_file : list LogLine;
  calls : nat
}.

(** What [main] prints under [=== RESULT ===]. *)
Inductive report :=
| MaxGood (final_n : Z) (preview : pystr)
    (* the final trial succeeded *)
| MaxGoodEarlier (best : RunResult) (final_n : Z) (last : Outcome)
    (* it failed; an earlier trial had succeeded *)
| NoSuccessfulSize (last : RunResult).
    (* No successful size found in the tested range. *)

(** How a run of [main] ends. *)
Inductive ending :=
| Finished (r : report)
| BadRange (lo hi full_len : Z)   (* [SystemExit] before the first call *)
| Crashed (e : exn)               (* an exception nothing catches *)
| OutOfFuel.                      (* the loop was still running *)

(** How the [while] loop ends. *)
Inductive loop_end :=
| LoopExit
| LoopCrashed (e : exn)
| LoopOutOfFuel.

Section Main.
Context {ucd : UnicodeData}.
Variable args : Args.
Variable transcript : pystr.
Variable instructions : pystr.
Variable w : world.

Definition full_len : Z := len transcript.

(** The range [main] starts from. *)
Definition initial_lo : Z := Z.max 1 (Z.min (min_chars args) full_len).
Definition initial_hi : Z :=
  if max_chars args =? 0 then full_len else Z.min (max_chars args) full_len.

(** The call of [run_once] on the first [n] characters of the transcript, as
    both the loop and the final check make it; [i] calls were made before. *)
Definition trial_at (i : nat) (n : Z) : py_result RunResult :=
  run_once (w i) (url args) (model args) instructions
    (slice_to transcript n) (want_json args) false (temperature args)
    (num_ctx args) (num_predict args) (timeout args).

Definition trial (st : SearchState) (n : Z) : py_result RunResult :=
  trial_at (calls st) n.

(** The log with the line of the trial [rr], made in the state [st]. *)
Definition logged (st : SearchState) (rr : RunResult) : list LogLine :=
  log_file st ++ [log_line (now (w (calls st))) rr (lo st) (hi st)].

(** The body of the [while] loop, entered with [hi - lo > tolerance]: the
    trial, its status line, which interpolates [done_reason], its log line,
    and the new bounds. *)
Definition loop_body (st : SearchState) : py_result SearchState :=
  let mid := (lo st + hi st) / 2 in
  rr <- trial st mid ;;
  _ <- print (w (calls st)) (done_reason rr) ;;
  file <- write_log_line (log_file st) (now (w (calls st))) rr (lo st) (hi st) ;;
  Return
    (if is_success (outcome rr) then
       {| lo := mid + 1; hi := hi st; best_ok := Some rr;
          log_file := file; calls := S (calls st) |}
     else
       {| lo := lo st; hi := mid - 1; best_ok := best_ok st;
          log_file := file; calls := S (calls st) |}).

(** The state an uncaught exception of an iteration leaves behind: the
    call was made and nothing was logged. *)
Definition aborted (st : SearchState) : SearchState :=
  {| lo := lo st; hi := hi st; best_ok := best_ok st;
     log_file := log_file st; calls := S (calls st) |}.

(** [while (hi - lo) > args.tolerance: ...] *)
Fixpoint search_loop (fuel : nat) (st : SearchState)
  : loop_end * SearchState :=
  if hi st - lo st >? tolerance args then
    match fuel with
    | O => (LoopOutOfFuel, st)
    | S fuel' =>
        match loop_body st with
        | Return st' => search_loop fuel' st'
        | Raise e => (LoopCrashed e, aborted st)
        end
    end
  else (LoopExit, st).

(** What is printed under [=== RESULT ===]: the lines of the report, of
    which one interpolates a preview, and the line that names the log. *)
Definition print_report (env : environment) (r : report) : py_result unit :=
  _ <- print env
         (PStr match r with
               | MaxGood _ preview => preview
               | MaxGoodEarlier best _ _ => response_preview best
               | NoSuccessfulSize last => response_preview last
               end) ;;
  print env (PStr (log args)).

(** The final check and the result, after the loop. *)
Definition final_check (st : SearchState) : ending * SearchState :=
  let final_n := Z.max 1 (Z.min (hi st) full_len) in
  match
    rr <- trial st final_n ;;
    _ <- print (w (calls st)) (done_reason rr) ;;
    file <- write_log_line (log_file st) (now (w (calls st))) rr (lo st) (hi st) ;;
    Return (rr, file)
  with
  | Raise e => (Crashed e, aborted st)
  | Return (rr, file) =>
      let r :=
        if is_success (outcome rr) then MaxGood final_n (response_preview rr)
        else
          match best_ok st with
          | Some best => MaxGoodEarlier best final_n (outcome rr)
          | None => NoSuccessfulSize rr
          end in
      (match print_report (w (calls st)) r with
       | Return _ => Finished r
       | Raise e => Crashed e
       end,
       {| lo := lo st; hi := hi st; best_ok := best_ok st;
          log_file := file; calls := S (calls st) |})
  end.

(** [main], from the computation of the range on; [log0] is what the log
    file holds when the run starts. *)
Definition initial_state (log0 : list LogLine) : SearchState :=
  {| lo := initial_lo; hi := initial_hi; best_ok := None;
     log_file := log0; calls := 0 |}.

Definition main (fuel : nat) (log0 : list LogLine) : ending * SearchState :=
  let st0 := initial_state log0 in
  if lo st0 >=? hi st0 then (BadRange (lo st0) (hi st0) full_len, st0)
  else
    match print (w 0%nat) (PStr (log args)) with  (* [info] logging -> ... *)
    | Raise e => (Crashed e, st0)
    | Return _ =>
        match search_loop fuel st0 with
        | (LoopExit, st) => final_check st
        | (LoopCrashed e, st) => (Crashed e, st)
        | (LoopOutOfFuel, st) => (OutOfFuel, st)
        end
    end.

(** *** Notions the properties are stated with *)

(** The trial [rr], made in the state [st], can be reported: the console
    takes its status line, and the text of its log line can be encoded. *)
Definition reported (st : SearchState) (rr : RunResult) : bool :=
  console (w (calls st)) (done_reason rr)
  && line_encodes (log_line (now (w (calls st))) rr (lo st) (hi st)).

(** [l] is the log line of the trial that call number [i] made: it carries
    the fields of that trial and the time of writing, and the bounds it
    records are the ones the length of that trial was computed from: the
    midpoint of a loop iteration, or the final check's
    [max(1, min(hi, full_len))] once the loop has stopped. *)
Definition record_ok (i : nat) (l : LogLine) : Prop :=
  exists n rr,
    trial_at i n = Return rr /\
    carries l (now (w i)) rr /\
    ((tolerance args < l_search_hi l - l_search_lo l
      /\ n = (l_search_lo l + l_search_hi l) / 2) \/
     (l_search_hi l - l_search_lo l <= tolerance args
      /\ n = Z.max 1 (Z.min (l_search_hi l) full_len))).

(** The lines [records] are those of the calls [i], [i+1], ... in order. *)
Fixpoint records_ok (i : nat) (records : list LogLine) : Prop :=
  match records with
  | [] => True
  | l :: rest => record_ok i l /\ records_ok (S i) rest
  end.

Definition failed (l : LogLine) : Prop := is_success (l_outcome l) = false.

(** The lines of the loop's trials: issued while [hi - lo > tolerance]. *)
Definition from_loop (l : LogLine) : Prop :=
  tolerance args < l_search_hi l - l_search_lo l.

(** [best] is the last success that [records] hold a line of: the line
    carries its fields, and every line after it is one of a failure. *)
Definition last_success (records : list LogLine) (best : RunResult) : Prop :=
  is_success (outcome best) = true /\
  exists before l after ts,
    records = before ++ l :: after /\ carries l ts best /\
    Forall failed after.

(** How the log and [best_ok] stand at the head of the loop, [log0] being
    what the log held when the run started. *)
Definition log_inv (log0 : list LogLine) (st : SearchState) : Prop :=
  exists records,
    log_file st = log0 ++ records /\
    List.length records = calls st /\
    records_ok 0 records /\
    Forall from_loop records /\
    match best_ok st with
    | None => Forall failed records
    | Some best => last_success records best
    end.

(** With a tolerance of at least -1: the bounds stay within the transcript,
    every success that this run has logged is shorter than [lo], and the
    best success is the trial at [lo - 1]. *)
Definition longest_inv (log0 : list LogLine) (st : SearchState) : Prop :=
  1 <= lo st /\ hi st <= full_len /\
  (exists records,
     log_file st = log0 ++ records /\
     Forall (fun l => is_success (l_outcome l) = true -> l_n_chars l < lo st)
       records) /\
  forall b, best_ok st = Some b -> n_chars b = lo st - 1.

(** Whatever is printed, the console takes it. *)
Definition console_takes_all : Prop := forall i v, console (w i) v = true.

(** The log line of every trial that returns can be encoded. *)
Definition lines_encode : Prop :=
  forall i n rr lo hi,
    trial_at i n = Return rr ->
    line_encodes (log_line (now (w i)) rr lo hi) = true.

End Main.

End LimitProbe.

(* ------------------------------------------------------------------ *)
(** ** [limit_probe_prod.py]                                           *)
(* ------------------------------------------------------------------ *)

Module LimitProbeProd.
Local Open Scope Z_scope.

(** How [requests.post] ends: with a response, whatever its status, or
    with an exception (no connection, a timeout). *)
Inductive post_outcome :=
| Response (status_code : Z) (text : pystr)
| PostRaised.

(** What surrounds one call: the network, the time the call took, and the
    console: whether its encoding takes the text of a value that a line
    interpolates. *)
Record environment := {
  post : request -> post_outcome;
  seconds : pyfloat;
  console : pyval -> bool
}.

Definition world := nat -> environment.

(** [print] of a line that interpolates [v]. *)
Definition print (env : environment) (v : pyval) : py_result unit :=
  if console env v then Return tt else Raise UnicodeEncodeError.

(** The [meta] dictionary of [call_ollama] ([payload_bytes], the size of
    the serialized request, is left out). *)
Record Meta := {
  http_seconds : rounded;
  done_reason : pyval;
  eval_count : pyval;
  prompt_eval_count : pyval;
  total_duration : pyval;
  prompt_chars : Z;
  resp_chars : Z
}.

(** [is_json_object] *)
Definition is_json_object (s : pyval) : py_result bool :=
  s <- py_strip s ;;
  Return
    match s with
    | [] => false
    | _ :: _ =>
        match Json.loads s with
        | Some _ => true
        | None => false
        end
    end.

(** [call_ollama]: nothing here catches what [requests.post],
    [raise_for_status] or [r.json()] raise. *)
Definition call_ollama (env : environment)
    (model system prompt : pystr) (want_json : bool)
    (num_ctx num_predict : Z) (temperature : pyfloat) (url : pystr)
  : py_result (pyval * Meta * pystr) :=
  let body := {|
    p_model := model;
    p_system := Some system;
    p_prompt := prompt;
    p_stream := false;
    p_temperature := temperature;
    p_num_ctx := num_ctx;
    p_num_predict := num_predict;
    p_format := if want_json then Some (py "json") else None
  |} in
  match post env {| r_url := url; r_payload := body; r_timeout := 600 |} with
  | PostRaised => Raise RequestException
  | Response status_code raw_http =>
      if (400 <=? status_code) && (status_code <? 600)
      then Raise HTTPStatusError                (* r.raise_for_status() *)
      else
        match Json.loads raw_http with          (* r.json() *)
        | None => Raise JSONDecodeError
        | Some obj =>
            response <- py_get obj (py "response") (PStr []) ;;
            let txt := py_or response (PStr []) in
            done_reason <- py_get obj (py "done_reason") PNone ;;
            eval_count <- py_get obj (py "eval_count") PNone ;;
            prompt_eval_count <- py_get obj (py "prompt_eval_count") PNone ;;
            total_duration <- py_get obj (py "total_duration") PNone ;;
            resp_chars <- py_len txt ;;
            Return
              (txt,
               {| http_seconds := Round3 (seconds env);
                  done_reason := done_reason;
                  eval_count := eval_count;
                  prompt_eval_count := prompt_eval_count;
                  total_duration := total_duration;
                  prompt_chars := len prompt;
                  resp_chars := resp_chars |},
               raw_http)
        end
  end.

Record Args := {
  model : pystr;
  episode_id : pystr;
  date : pystr;
  title : pystr;
  url : pystr;
  want_json : bool;
  num_ctx : Z;
  num_predict : Z;
  temp : pyfloat;
  min_chars : Z;
  tolerance : Z;
  log : pystr
}.

(** One line of the JSONL log. *)
Record Row := {
  row_n_chars : Z;
  row_ok : bool;
  row_meta : Meta;
  row_resp_head : pystr
}.

(** The file [attempt] writes for a trial that is not [ok]. *)
Record Dump := {
  dump_n_chars : Z;
  dump_meta : Meta;
  dump_raw_http : pystr
}.

(** [open(name, "w")] and a write, for the files
    [limit_probe_dump_<episode_id>_<n>.json] of one run, kept by [n]: the
    file holds what is written, whatever it held. *)
Fixpoint file_set (A : Type) (n : Z) (v : A) (files : list (Z * A))
  : list (Z * A) :=
  match files with
  | [] => [(n, v)]
  | (n', v') :: rest =>
      if n' =? n then (n', v) :: rest else (n', v') :: file_set n v rest
  end.

(** The variables of [main] that the search reads and writes, the log, the
    dump files this run has written, and the number of calls made. *)
Record SearchState := {
  lo : Z;
  hi : Z;
  best : Z;
  best_meta : option Meta;
  best_preview : pystr;
  log_file : list Row;
  dumps : list (Z * Dump);
  calls : nat
}.

Inductive ending :=
| Finished          (* the result was printed from [best], [best_meta], [best_preview] *)
| Crashed (e : exn)
| OutOfFuel.

Inductive loop_end :=
| LoopExit
| LoopCrashed (e : exn)
| LoopOutOfFuel.

Section Main.
Variable args : Args.
Variable transcript : pystr.
Variable SYSTEM_RULES : pystr.       (* [sawl_autogen.SYSTEM_RULES] *)
Variable w : world.

Definition full_len : Z := len transcript.

(** What [attempt] leaves in the files, and what it returns ([ok], [txt]
    and [meta]) or raises. *)
Record attempted := {
  a_log_file : list Row;
  a_dumps : list (Z * Dump);
  a_result : py_result (bool * pystr * Meta)
}.

(** [attempt(n)], the local function of [main]: the call and the verdict,
    which write nothing when they raise; then the dump, the row, and the
    status line, which interpolates [done_reason] and [prompt_eval_count]
    and is printed last. *)
Definition attempt (st : SearchState) (n : Z) : attempted :=
  let partial := slice_to transcript n in
  let prompt :=
    py "EPISODE METADATA (DO NOT CHANGE):" ++ [10]%N
    ++ py "episode_id: " ++ episode_id args ++ [10]%N
    ++ py "date: " ++ date args ++ [10]%N
    ++ py "title: " ++ title args ++ [10; 10]%N
    ++ py "TRANSCRIPT:" ++ [10]%N
    ++ strip partial ++ [10]%N in
  match
    r <- call_ollama (w (calls st)) (model args) SYSTEM_RULES prompt
           (want_json args) (num_ctx args) (num_predict args) (temp args)
           (url args) ;;
    let '(txt, meta, raw_http) := r in
    ok <- (if want_json args then is_json_object txt
           else (s <- py_strip txt ;; Return (len s >? 0))) ;;
    text <- (match txt with PStr s => Return s | _ => Raise AttributeError end) ;;
    Return (ok, text, meta, raw_http)
  with
  | Raise e =>
      {| a_log_file := log_file st; a_dumps := dumps st; a_result := Raise e |}
  | Return (ok, text, meta, raw_http) =>
      {| a_log_file :=
           log_file st
           ++ [ {| row_n_chars := n; row_ok := ok; row_meta := meta;
                   row_resp_head := escape_newlines (slice_to text 120) |} ];
         a_dumps :=
           if ok then dumps st
           else file_set n {| dump_n_chars := n; dump_meta := meta;
                              dump_raw_http := raw_http |} (dumps st);
         a_result :=
           _ <- print (w (calls st)) (done_reason meta) ;;
           _ <- print (w (calls st)) (prompt_eval_count meta) ;;
           Return (ok, text, meta) |}
  end.

(** The body of the [while] loop. *)
Definition loop_body (st : SearchState) : py_result SearchState :=
  let mid := (lo st + hi st) / 2 in
  let a := attempt st mid in
  r <- a_result a ;;
  let '(ok, txt, meta) := r in
  Return
    (if ok then
       {| lo := mid + 1; hi := hi st; best := mid;
          best_meta := Some meta;
          best_preview := slice_to txt 300;
          log_file := a_log_file a; dumps := a_dumps a;
          calls := S (calls st) |}
     else
       {| lo := lo st; hi := mid - 1; best := best st;
          best_meta := best_meta st; best_preview := best_preview st;
          log_file := a_log_file a; dumps := a_dumps a;
          calls := S (calls st) |}).

(** The state an exception of the attempt at [n] leaves behind: the call
    was made, and the files are as the attempt left them (the row and the
    dump are there when it was the status line that could not be
    printed). *)
Definition aborted (st : SearchState) (n : Z) : SearchState :=
  {| lo := lo st; hi := hi st; best := best st; best_meta := best_meta st;
     best_preview := best_preview st;
     log_file := a_log_file (attempt st n);
     dumps := a_dumps (attempt st n); calls := S (calls st) |}.

(** [while (hi - lo) > args.tolerance: ...] *)
Fixpoint search_loop (fuel : nat) (st : SearchState)
  : loop_end * SearchState :=
  if hi st - lo st >? tolerance args then
    match fuel with
    | O => (LoopOutOfFuel, st)
    | S fuel' =>
        match loop_body st with
        | Return st' => search_loop fuel' st'
        | Raise e => (LoopCrashed e, aborted st ((lo st + hi st) / 2))
        end
    end
  else (LoopExit, st).

(** What is printed under [=== RESULT ===]: the line of [best_meta], when
    there is one, the preview, and the line that names the log. *)
Definition print_result (env : environment) (st : SearchState)
  : py_result unit :=
  _ <- match best_meta st with
       | Some meta =>
           _ <- print env (done_reason meta) ;;
           print env (prompt_eval_count meta)
       | None => Return tt
       end ;;
  _ <- print env (PStr (escape_newlines (best_preview st))) ;;
  print env (PStr (log args)).

(** The final spot-check at full length, and the result. *)
Definition final_check (st : SearchState) : ending * SearchState :=
  let a := attempt st full_len in
  match a_result a with
  | Raise e => (Crashed e, aborted st full_len)
  | Return (ok, txt, meta) =>
      let st' :=
        if ok then
          {| lo := lo st; hi := hi st; best := full_len;
             best_meta := Some meta;
             best_preview := slice_to txt 300;
             log_file := a_log_file a; dumps := a_dumps a;
             calls := S (calls st) |}
        else
          {| lo := lo st; hi := hi st; best := best st;
             best_meta := best_meta st; best_preview := best_preview st;
             log_file := a_log_file a; dumps := a_dumps a;
             calls := S (calls st) |} in
      (match print_result (w (calls st)) st' with
       | Return _ => Finished
       | Raise e => Crashed e
       end, st')
  end.

(** [main], from the initial range on: the lines before it read the
    transcript and print the configuration. *)
Definition initial_state (log0 : list Row) : SearchState :=
  {| lo := min_chars args; hi := full_len; best := 0;
     best_meta := None; best_preview := [];
     log_file := log0; dumps := []; calls := 0 |}.

Definition main (fuel : nat) (log0 : list Row) : ending * SearchState :=
  let st0 := initial_state log0 in
  match search_loop fuel st0 with
  | (LoopExit, st) => final_check st
  | (LoopCrashed e, st) => (Crashed e, st)
  | (LoopOutOfFuel, st) => (OutOfFuel, st)
  end.

(** Whatever is printed, the console takes it. *)
Definition console_takes_all : Prop := forall i v, console (w i) v = true.

End Main.

End LimitProbeProd.

(* ------------------------------------------------------------------ *)
(** ** The specification's wording, for comparison                     *)
(* ------------------------------------------------------------------ *)

Module Spec.
Local Open Scope N_scope.

(** The scanner the specification describes for structured output: from the
    first opening brace on, character by character, with the string-literal
    state, the escape state and the nesting depth, up to the brace that
    closes the first one.  The result is the object's text. *)
Fixpoint scan_object (s : pystr) (depth : nat) (in_string escaped : bool)
  : option pystr :=
  match s with
  | [] => None
  | c :: s' =>
      if in_string then
        if escaped then option_map (cons c) (scan_object s' depth true false)
        else if c =? 92 then option_map (cons c) (scan_object s' depth true true)
        else if c =? 34 then option_map (cons c) (scan_object s' depth false false)
        else option_map (cons c) (scan_object s' depth true false)
      else if c =? 34 then option_map (cons c) (scan_object s' depth true false)
      else if c =? 123 then
        option_map (cons c) (scan_object s' (S depth) false false)
      else if c =? 125 then
        match depth with
        | 0%nat => None
        | 1%nat => Some [c]
        | S d => option_map (cons c) (scan_object s' d false false)
        end
      else option_map (cons c) (scan_object s' depth false false)
  end.

Definition first_balanced_object (t : pystr) : option pystr :=
  scan_object (dropwhile (fun c => negb (c =? 123)) t) 0 false false.

(** "success-structured exactly when such an object parses" *)
Definition first_object_parses (t : pystr) : bool :=
  match first_balanced_object t with
  | Some obj =>
      match Json.loads obj with
      | Some _ => true
      | None => false
      end
  | None => false
  end.

Local Open Scope Z_scope.

(** [ceil(log2(a / b))] for positive integers [a] and [b], the quotient
    being the exact one: the logarithm of the quotient rounded up when
    [a >= b], minus the logarithm of the inverse rounded down otherwise. *)
Definition ceil_log2_ratio (a b : Z) : Z :=
  if b <=? a then Z.log2_up ((a + b - 1) / b) else - Z.log2 (b / a).

(** "at most [ceil(log2((hi-lo)/max(tolerance,1))) + 1] trials" *)
Definition trial_bound (lo hi tolerance : Z) : Z :=
  ceil_log2_ratio (hi - lo) (Z.max tolerance 1) + 1.

End Spec.

(* ------------------------------------------------------------------ *)
(** ** Concrete runs                                                   *)
(* ------------------------------------------------------------------ *)

Module Runs.
Local Open Scope Z_scope.

(** A service that gives every call the same answer. *)
Definition always (o : urlopen_outcome) : world := fun _ =>
  {| net := fun _ => o; elapsed := Float (py "1.0");
     now := py "2026-01-01 00:00:00"; console := fun _ => true |}.

Definition answers (body : string) : world := always (Responded 200 (jq body)).

Definition probe_args (want : bool) (min_c tol : Z) : LimitProbe.Args := {|
  LimitProbe.url := py "http://127.0.0.1:11434/api/generate";
  LimitProbe.model := py "mixtral:latest";
  LimitProbe.want_json := want;
  LimitProbe.num_ctx := 32768;
  LimitProbe.num_predict := 4096;
  LimitProbe.temperature := Float (py "0.2");
  LimitProbe.timeout := 300;
  LimitProbe.min_chars := min_c;
  LimitProbe.max_chars := 0;
  LimitProbe.tolerance := tol;
  LimitProbe.log := py "limit_probe.log.jsonl"
|}.

Definition instructions : pystr := py "Produce a structured analysis.".

(** The service of the specification's boundary scenario: a prefix of at
    most [limit] characters gets a full answer, a longer one an answer cut
    at the output limit. *)
Definition cuts_above (limit : Z) : world := fun _ =>
  {| net := fun req =>
       if len (p_prompt (r_payload req))
          - len (LimitProbe.build_prompt instructions []) <=? limit
       then Responded 200
              (jq "{'response': 'a full answer', 'done_reason': 'stop'}")
       else Responded 200
              (jq "{'response': 'an answer cut', 'done_reason': 'length'}");
     elapsed := Float (py "1.0");
     now := py "2026-01-01 00:00:00";
     console := fun _ => true |}.

Definition prod_always (o : LimitProbeProd.post_outcome)
  : LimitProbeProd.world := fun _ =>
  {| LimitProbeProd.post := fun _ => o;
     LimitProbeProd.seconds := Float (py "1.0");
     LimitProbeProd.console := fun _ => true |}.

Definition prod_args (want : bool) (min_c tol : Z) : LimitProbeProd.Args := {|
  LimitProbeProd.model := py "mixtral:latest";
  LimitProbeProd.episode_id := py "E0029";
  LimitProbeProd.date := py "2018-01-19";
  LimitProbeProd.title := [];
  LimitProbeProd.url := py "http://127.0.0.1:11434/api/generate";
  LimitProbeProd.want_json := want;
  LimitProbeProd.num_ctx := 32768;
  LimitProbeProd.num_predict := 4096;
  LimitProbeProd.temp := Float (py "0.2");
  LimitProbeProd.min_chars := min_c;
  LimitProbeProd.tolerance := tol;
  LimitProbeProd.log := py "limit_probe_prod.log.jsonl"
|}.

Definition system_rules : pystr := py "OUTPUT RULES (MUST FOLLOW)".

End Runs.

Module P := LimitProbe.
Module Q := LimitProbeProd.

(** Linear arithmetic with the quotients of the bisection. *)
Ltac div_lia := Z.div_mod_to_equations; lia.

(* ------------------------------------------------------------------ *)
(** ** Notions for the properties of a whole run                       *)
(* ------------------------------------------------------------------ *)

Module Trace.
Local Open Scope Z_scope.

(** The interval [[lo, hi]] is the one of the line [l] with one end moved
    inward. *)
Definition narrows (l : P.LogLine) (lo hi : Z) : Prop :=
  (P.l_search_lo l < lo /\ hi = P.l_search_hi l)
  \/ (lo = P.l_search_lo l /\ hi < P.l_search_hi l).

(** Each line records an interval that the next line narrows. *)
Fixpoint interval_chain (records : list P.LogLine) : Prop :=
  match records with
  | [] => True
  | l :: rest =>
      match rest with
      | [] => True
      | l' :: _ => narrows l (P.l_search_lo l') (P.l_search_hi l')
      end /\ interval_chain rest
  end.

Section Services.
Context {ucd : UnicodeData}.
Variable args : P.Args.
Variable transcript : pystr.
Variable instructions : pystr.
Variable w : world.

(** The range [main] starts from. *)
Notation lo0 := (P.initial_lo args transcript).
Notation hi0 := (P.initial_hi args transcript).

(** A service with a sharp limit: whenever it is called, a trial returns,
    and it succeeds exactly on the prefixes of at most [limit] characters. *)
Definition sharp_limit (limit : Z) : Prop :=
  forall i n, 1 <= n <= P.full_len transcript ->
    exists rr, P.trial_at args transcript instructions w i n = Return rr /\
               (is_success (P.outcome rr) = true <-> n <= limit).

(** A line whose interval lies within the initial range, and whose length
    lies within the range too (the final check may fall one short of its
    lower end) and, for a trial of the loop, within the line's interval. *)
Definition line_in_range (l : P.LogLine) : Prop :=
  lo0 <= P.l_search_lo l /\ P.l_search_hi l <= hi0 /\
  P.l_search_lo l <= P.l_search_hi l + 1 /\
  Z.max 1 (lo0 - 1) <= P.l_n_chars l <= hi0 /\
  (P.from_loop args l ->
   P.l_search_lo l <= P.l_n_chars l <= P.l_search_hi l).

(** How the interval and the log stand at the head of the loop. *)
Definition trace_inv (log0 : list P.LogLine) (st : P.SearchState) : Prop :=
  lo0 <= P.lo st /\ P.hi st <= hi0 /\ P.lo st <= P.hi st + 1 /\
  exists records,
    P.log_file st = log0 ++ records /\
    Forall line_in_range records /\
    interval_chain records /\
    forall cur, P.l_search_lo cur = P.lo st -> P.l_search_hi cur = P.hi st ->
                interval_chain (records ++ [cur]).

End Services.

End Trace.

Module ProdTrace.
Local Open Scope Z_scope.

Section Services.
Variable args : Q.Args.
Variable transcript : pystr.
Variable SYSTEM_RULES : pystr.
Variable w : Q.world.

(** A service with a sharp limit, for [limit_probe_prod.py]: an attempt at
    a length between [min_chars] and the length of the transcript returns,
    and is [ok] exactly when the length is at most [limit]. *)
Definition sharp_limit (limit : Z) : Prop :=
  forall st n, Q.min_chars args <= n <= Q.full_len transcript ->
    exists ok txt meta,
      Q.a_result (Q.attempt args transcript SYSTEM_RULES w st n)
      = Return (ok, txt, meta) /\
      (ok = true <-> n <= limit).

End Services.

(** The length and the [meta] that a row and a dump file share. *)
Definition row_key (r : Q.Row) : Z * Q.Meta := (Q.row_n_chars r, Q.row_meta r).
Definition dump_key (d : Q.Dump) : Z * Q.Meta := (Q.dump_n_chars d, Q.dump_meta d).

(** The rows of the attempts that were not [ok]. *)
Definition not_ok (rows : list Q.Row) : list Q.Row :=
  filter (fun r => negb (Q.row_ok r)) rows.

(** The dump files that the attempts of these rows have written, by
    length: one for a row that is not [ok], in place of an earlier one of
    the same length. *)
Definition dumped (rows : list Q.Row) : list (Z * (Z * Q.Meta)) :=
  fold_left
    (fun files r =>
       if Q.row_ok r then files
       else Q.file_set (Q.row_n_chars r) (row_key r) files)
    rows [].

(** The length and the [meta] that each dump file holds. *)
Definition dump_keys (files : list (Z * Q.Dump)) : list (Z * (Z * Q.Meta)) :=
  map (fun f => (fst f, dump_key (snd f))) files.

(** How the log and the dump files stand after some attempts: one row per
    attempt, each with a preview that is a single line of at most 240
    characters, and the dump files of the rows that are not [ok]. *)
Definition files_inv (log0 : list Q.Row) (st : Q.SearchState) : Prop :=
  exists rows,
    Q.log_file st = log0 ++ rows /\
    List.length rows = Q.calls st /\
    Forall (fun r => ~ In 10%N (Q.row_resp_head r)
                     /\ len (Q.row_resp_head r) <= 240) rows /\
    dump_keys (Q.dumps st) = dumped rows.

End ProdTrace.

Module ProdRuns.
Local Open Scope Z_scope.

(** A service for [limit_probe_prod.py] that answers a prompt of at most
    [limit] characters and returns an empty response to a longer one. *)
Definition answers_up_to (limit : Z) : Q.world := fun _ =>
  {| Q.post := fun req =>
       if len (p_prompt (r_payload req)) <=? limit
       then Q.Response 200 (jq "{'response': 'a full answer'}")
       else Q.Response 200 (jq "{'response': ''}");
     Q.seconds := Float (py "1.0");
     Q.console := fun _ => true |}.

End ProdRuns.

(* ------------------------------------------------------------------ *)
(** ** [json.dumps] and the text of a log line                         *)
(* ------------------------------------------------------------------ *)

(** CPython's encoder with the defaults [write_log_line] leaves in place
    (separators [", "] and [": "], no indentation, keys as they come) and
    [ensure_ascii=False]: in a string only the quote, the backslash and the
    characters below U+0020 are escaped.  The text of a float is what
    [float.__repr__] gives ([NaN], [Infinity], [-Infinity] for the three
    special values); the prober computes on no float, so the two functions
    that give this text are parameters.  The limit on the digits of an
    integer is left out, as in the decoder. *)
Module Dumps.
Local Open Scope N_scope.

(** A hexadecimal digit, in lower case. *)
Definition hexdigit (d : N) : N := if d <? 10 then 48 + d else 87 + d.

(** What the encoder writes for one character of a string. *)
Definition escape_char (c : N) : pystr :=
  if c =? 34 then [92; 34]
  else if c =? 92 then [92; 92]
  else if c =? 10 then [92; 110]
  else if c =? 13 then [92; 114]
  else if c =? 9 then [92; 116]
  else if c =? 8 then [92; 98]
  else if c =? 12 then [92; 102]
  else if c <? 32 then [92; 117; 48; 48; hexdigit (c / 16); hexdigit (c mod 16)]
  else [c].

(** [encode_basestring] *)
Definition encode_basestring (s : pystr) : pystr :=
  34 :: flat_map escape_char s ++ [34].

(** The decimal digits of a natural number, the most significant first;
    [fuel] bounds their number. *)
Fixpoint digits_of (fuel : nat) (n : N) (acc : pystr) : pystr :=
  match fuel with
  | O => acc
  | S fuel' =>
      let acc' := (48 + n mod 10) :: acc in
      if n / 10 =? 0 then acc' else digits_of fuel' (n / 10) acc'
  end.

Definition repr_nat (n : N) : pystr :=
  digits_of (S (N.to_nat (N.log2 n))) n [].

(** [int.__repr__] *)
Definition repr_int (z : Z) : pystr :=
  match z with
  | Z0 => [48]
  | Zpos p => repr_nat (Npos p)
  | Zneg p => 45 :: repr_nat (Npos p)
  end.

(** [sep.join(parts)] *)
Fixpoint join (sep : pystr) (parts : list pystr) : pystr :=
  match parts with
  | [] => []
  | x :: rest =>
      match rest with
      | [] => x
      | _ :: _ => x ++ sep ++ join sep rest
      end
  end.

(** One member of an object, its value already written. *)
Definition member (kv : pystr * pystr) : pystr :=
  encode_basestring (fst kv) ++ py ": " ++ snd kv.

(** The text of an object with these members. *)
Definition object_text (members : list (pystr * pystr)) : pystr :=
  py "{" ++ join (py ", ") (map member members) ++ py "}".

Section Floats.
(** The text of the float that a JSON number with a fraction or an
    exponent was decoded to. *)
Variable float_text : pystr -> pystr.

(** [json.dumps(v, ensure_ascii=False)] for a decoded value. *)
Fixpoint dumps (v : pyval) : pystr :=
  match v with
  | PNone => py "null"
  | PBool true => py "true"
  | PBool false => py "false"
  | PInt z => repr_int z
  | PFloat x => float_text x
  | PStr s => encode_basestring s
  | PList items => py "[" ++ join (py ", ") (map dumps items) ++ py "]"
  | PDict items =>
      object_text (as_dict (map (fun kv => (fst kv, dumps (snd kv))) items))
  end.

(** The value that [json.loads] makes of what [dumps] wrote: floats have
    the text of their value, and an object holds each key once. *)
Fixpoint reread (v : pyval) : pyval :=
  match v with
  | PFloat x => PFloat (float_text x)
  | PList items => PList (map reread items)
  | PDict items =>
      PDict (as_dict (map (fun kv => (fst kv, reread (snd kv))) items))
  | _ => v
  end.

(** The text of [round(x, 3)]. *)
Variable rounded_text : rounded -> pystr.

(** The name of an outcome. *)
Definition outcome_name (o : Outcome) : pystr :=
  match o with
  | OK_JSON => py "OK_JSON"
  | OK_TEXT => py "OK_TEXT"
  | STUB => py "STUB"
  | BAD_JSON => py "BAD_JSON"
  | EMPTY => py "EMPTY"
  | TRUNCATED => py "TRUNCATED"
  | ERROR => py "ERROR"
  end.

(** What [write_log_line] writes for a line: the dictionary, dumped, and a
    line feed. *)
Definition log_text (l : P.LogLine) : pystr :=
  object_text
    [ (py "n_chars", repr_int (P.l_n_chars l));
      (py "elapsed_s", rounded_text (P.l_elapsed_s l));
      (py "http_status", repr_int (P.l_http_status l));
      (py "done_reason", dumps (P.l_done_reason l));
      (py "eval_count", dumps (P.l_eval_count l));
      (py "prompt_eval_count", dumps (P.l_prompt_eval_count l));
      (py "total_duration", dumps (P.l_total_duration l));
      (py "raw_response_len", repr_int (P.l_raw_response_len l));
      (py "outcome", encode_basestring (outcome_name (P.l_outcome l)));
      (py "preview", encode_basestring (P.l_preview l));
      (py "search_lo", repr_int (P.l_search_lo l));
      (py "search_hi", repr_int (P.l_search_hi l));
      (py "ts", encode_basestring (P.l_ts l)) ]
  ++ [10].

(** The dictionary a reader of the log gets from the line. *)
Definition log_value (l : P.LogLine) : pyval :=
  PDict
    [ (py "n_chars", PInt (P.l_n_chars l));
      (py "elapsed_s", PFloat (rounded_text (P.l_elapsed_s l)));
      (py "http_status", PInt (P.l_http_status l));
      (py "done_reason", reread (P.l_done_reason l));
      (py "eval_count", reread (P.l_eval_count l));
      (py "prompt_eval_count", reread (P.l_prompt_eval_count l));
      (py "total_duration", reread (P.l_total_duration l));
      (py "raw_response_len", PInt (P.l_raw_response_len l));
      (py "outcome", PStr (outcome_name (P.l_outcome l)));
      (py "preview", PStr (P.l_preview l));
      (py "search_lo", PInt (P.l_search_lo l));
      (py "search_hi", PInt (P.l_search_hi l));
      (py "ts", PStr (P.l_ts l)) ].

End Floats.

(** A text after which a number ends: it does not go on with a digit, a
    dot or an exponent. *)
Definition stops (rest : pystr) : bool :=
  match rest with
  | [] => true
  | c :: _ => negb (Json.is_digit c || (c =? 46) || (c =? 101) || (c =? 69))
  end.

(** The decoder, given enough fuel, reads [text] as [v], whatever follows
    that does not continue a number. *)
Definition reads (v : pyval) (text : pystr) : Prop :=
  forall fuel rest,
    stops rest = true ->
    (2 * List.length (text ++ rest) < fuel)%nat ->
    Json.scan_once fuel (text ++ rest) = Json.Scanned v rest.

(** A text without control characters. *)
Definition printable (text : pystr) : Prop := Forall (fun c => 32 <= c) text.

End Dumps.

Module Samples.
Local Open Scope Z_scope.

(** A line as a run writes it, with the two floats it holds. *)
Definition sample_line : P.LogLine := {|
  P.l_n_chars := 6000;
  P.l_elapsed_s := Round3 (Float (py "1.4999"));
  P.l_http_status := 200;
  P.l_done_reason := PStr (py "stop");
  P.l_eval_count := PInt 412;
  P.l_prompt_eval_count := PInt 1530;
  P.l_total_duration := PFloat (py "1.5e0");
  P.l_raw_response_len := 15;
  P.l_outcome := OK_TEXT;
  P.l_preview := py "a full" ++ [10%N] ++ py "answer";
  P.l_search_lo := 2000;
  P.l_search_hi := 10000;
  P.l_ts := py "2026-01-01 00:00:00"
|}.

End Samples.

(* ------------------------------------------------------------------ *)
(** ** The body of a request                                           *)
(* ------------------------------------------------------------------ *)

(** [json.dumps(payload)] as [post_ollama] calls it, with the encoder's
    defaults: [ensure_ascii=True], so that a string is written in printable
    ASCII, every other character as [\uXXXX], or as the two escapes of a
    surrogate pair above U+FFFF (the arithmetic is that of CPython's
    [ascii_escape_unichar]). *)
Module Requests.
Import Dumps.
Local Open Scope N_scope.

(** A character that is copied: printable ASCII but for the quote and the
    backslash. *)
Definition plain_ascii (c : N) : bool :=
  (32 <=? c) && (c <=? 126) && negb (c =? 92) && negb (c =? 34).

(** Four hexadecimal digits. *)
Definition hex4_text (u : N) : pystr :=
  [ hexdigit (N.land (N.shiftr u 12) 15); hexdigit (N.land (N.shiftr u 8) 15);
    hexdigit (N.land (N.shiftr u 4) 15); hexdigit (N.land u 15) ].

Definition escape_ascii_char (c : N) : pystr :=
  if plain_ascii c then [c]
  else if c =? 92 then [92; 92]
  else if c =? 34 then [92; 34]
  else if c =? 8 then [92; 98]
  else if c =? 12 then [92; 102]
  else if c =? 10 then [92; 110]
  else if c =? 13 then [92; 114]
  else if c =? 9 then [92; 116]
  else if 65536 <=? c then
    [92; 117] ++ hex4_text (55296 - 64 + N.shiftr c 10)
    ++ [92; 117] ++ hex4_text (56320 + N.land c 1023)
  else [92; 117] ++ hex4_text c.

(** [encode_basestring_ascii] *)
Definition encode_basestring_ascii (s : pystr) : pystr :=
  34 :: flat_map escape_ascii_char s ++ [34].

(** What the encoder writes for a float, from its [repr]. *)
Definition float_json (x : pyfloat) : pystr :=
  match x with
  | Float r =>
      if str_eqb r (py "nan") then py "NaN"
      else if str_eqb r (py "inf") then py "Infinity"
      else if str_eqb r (py "-inf") then py "-Infinity"
      else r
  end.

Definition bool_json (b : bool) : pystr := if b then py "true" else py "false".

Definition ascii_member (kv : pystr * pystr) : pystr :=
  encode_basestring_ascii (fst kv) ++ py ": " ++ snd kv.

Definition ascii_object (members : list (pystr * pystr)) : pystr :=
  py "{" ++ join (py ", ") (map ascii_member members) ++ py "}".

(** The body that [post_ollama] sends for the payload of [run_once]; the
    key [format] comes last, when it is there. *)
Definition request_text (body : payload) : pystr :=
  ascii_object
    ([ (py "model", encode_basestring_ascii (p_model body));
       (py "prompt", encode_basestring_ascii (p_prompt body));
       (py "stream", bool_json (p_stream body));
       (py "options",
        ascii_object
          [ (py "temperature", float_json (p_temperature body));
            (py "num_ctx", repr_int (p_num_ctx body));
            (py "num_predict", repr_int (p_num_predict body)) ]) ]
     ++ match p_format body with
        | Some f => [(py "format", encode_basestring_ascii f)]
        | None => []
        end).

(** What a decoder makes of that body. *)
Definition request_value (body : payload) : pyval :=
  PDict
    ([ (py "model", PStr (p_model body));
       (py "prompt", PStr (p_prompt body));
       (py "stream", PBool (p_stream body));
       (py "options",
        PDict
          [ (py "temperature", PFloat (float_json (p_temperature body)));
            (py "num_ctx", PInt (p_num_ctx body));
            (py "num_predict", PInt (p_num_predict body)) ]) ]
     ++ match p_format body with
        | Some f => [(py "format", PStr f)]
        | None => []
        end).

(** The payload [run_once] builds. *)
Definition run_once_payload (model instructions transcript_prefix : pystr)
    (want_json stream : bool) (temperature : pyfloat)
    (num_ctx num_predict : Z) : payload := {|
  p_model := model;
  p_system := None;
  p_prompt := P.build_prompt instructions transcript_prefix;
  p_stream := stream;
  p_temperature := temperature;
  p_num_ctx := num_ctx;
  p_num_predict := num_predict;
  p_format := if want_json then Some (py "json") else None
|}.

(** A Unicode scalar value: a code point that is no surrogate. *)
Definition is_scalar (c : N) : bool :=
  (c <=? 1114111) && negb ((55296 <=? c) && (c <=? 57343)).

(** A text as the decoding of a UTF-8 file gives it. *)
Definition unicode_text (s : pystr) : Prop := forallb is_scalar s = true.

(** A text of printable ASCII characters. *)
Definition ascii_text (s : pystr) : Prop :=
  Forall (fun c => 32 <= c <= 126) s.

End Requests.

(* ================================================================== *)
(** * Part II. Properties                                              *)
(* ================================================================== *)

Unset Implicit Arguments.
Open Scope string_scope.
Open Scope list_scope.
Open Scope Z_scope.

(* ------------------------------------------------------------------ *)
(** ** Strings                                                         *)
(* ------------------------------------------------------------------ *)

Section StringFacts.
Variable p : N -> bool.

Lemma dropwhile_idempotent (s : pystr) :
  dropwhile p (dropwhile p s) = dropwhile p s.
Proof.
  induction s as [|c s IH]; simpl; [reflexivity|].
  destruct (p c) eqn:E; [exact IH|]. simpl. now rewrite E.
Qed.

Lemma dropwhile_stops (c : N) (s : pystr) :
  p c = false -> dropwhile p (c :: s) = c :: s.
Proof. intros E. simpl. now rewrite E. Qed.

Lemma dropwhile_keeps_last (a : pystr) (c : N) :
  p c = false -> dropwhile p (a ++ [c]) = dropwhile p a ++ [c].
Proof.
  intros E. induction a as [|x a IH]; simpl.
  - now rewrite E.
  - destruct (p x); [exact IH | reflexivity].
Qed.

Lemma dropwhile_head (s : pystr) :
  dropwhile p s = [] \/ exists c r, dropwhile p s = c :: r /\ p c = false.
Proof.
  induction s as [|c s IH]; simpl; [now left|].
  destruct (p c) eqn:E; [exact IH|]. right. now exists c, s.
Qed.

End StringFacts.

Lemma strip_idempotent (t : pystr) : strip (strip t) = strip t.
Proof.
  unfold strip, rstrip, lstrip.
  destruct (dropwhile_head isspace t) as [E | (c & r & E & Hc)]; rewrite E.
  - reflexivity.
  - remember (dropwhile isspace (rev (c :: r))) as z eqn:Ez.
    assert (Hz : exists z', z = z' ++ [c]).
    { subst z. simpl rev. rewrite (dropwhile_keeps_last _ _ _ Hc). eauto. }
    destruct Hz as [z' Hz].
    assert (H : dropwhile isspace (rev z) = rev z).
    { rewrite Hz, rev_app_distr. simpl. now rewrite Hc. }
    rewrite H, rev_involutive, Ez. now rewrite dropwhile_idempotent.
Qed.

Lemma strip_nil : strip [] = [].
Proof. reflexivity. Qed.

(* ------------------------------------------------------------------ *)
(** ** The matcher                                                     *)
(* ------------------------------------------------------------------ *)

Section MatcherFacts.
Context {ucd : UnicodeData}.
Import Re.

Lemma star_monotone (p : N -> bool) (k k' : option N -> pystr -> bool) :
  weaker k k' ->
  forall s prev, star p prev s k = true -> star p prev s k' = true.
Proof.
  intros W. induction s as [|c s IH]; intros prev; simpl.
  - apply W.
  - destruct (p c); [|apply W].
    rewrite !orb_true_iff. intros [H|H]; [left; now apply IH | right; now apply W].
Qed.

Lemma matches_monotone (r : regex) :
  forall k k', weaker k k' ->
  forall prev s, matches r prev s k = true -> matches r prev s k' = true.
Proof.
  induction r as [p|p|r1 IH1 r2 IH2| |]; intros k k' W prev s; simpl.
  - destruct s as [|c s]; [easy|]. rewrite !andb_true_iff.
    intros [H1 H2]. split; [assumption | now apply W].
  - now apply star_monotone.
  - apply IH1. intros prev' s'. now apply IH2.
  - apply W.
  - rewrite !andb_true_iff. intros [H1 H2]. split; [assumption | now apply W].
Qed.

(** A text that matches a concatenation matches its first part. *)
Lemma match_prefix (r1 r2 : regex) (s : pystr) :
  re_match (Seq r1 r2) s = true -> re_match r1 s = true.
Proof.
  unfold re_match. simpl. apply matches_monotone. intros ? ? _. reflexivity.
Qed.

End MatcherFacts.

Section ClassifierFacts.
Context {ucd : UnicodeData}.
Import LimitProbe.

(** The pattern with [The speaker] adds nothing: whatever it catches, the
    pattern of a bare numbered-list marker catches under its own, larger
    threshold. *)
Lemma looks_like_stub_bullet (resp_text : pystr) :
  looks_like_stub resp_text =
  match strip resp_text with
  | [] => true
  | _ :: _ =>
      (len (strip resp_text) <? 120)%Z && Re.re_match bullet_re (strip resp_text)
  end.
Proof.
  unfold looks_like_stub. destruct (strip resp_text) as [|c t] eqn:E; [reflexivity|].
  destruct ((len (c :: t) <? 80)%Z && Re.re_match outline_re (c :: t)) eqn:H.
  - apply andb_true_iff in H as [H1 H2].
    apply match_prefix in H2.
    rewrite H2. apply Z.ltb_lt in H1.
    symmetry. apply andb_true_iff. split; [apply Z.ltb_lt; lia | reflexivity].
  - destruct ((len (c :: t) <? 120)%Z && Re.re_match bullet_re (c :: t)); reflexivity.
Qed.

End ClassifierFacts.

(* ------------------------------------------------------------------ *)
(** ** The decoder                                                     *)
(* ------------------------------------------------------------------ *)

Section DecoderFacts.
Import Json.
Local Open Scope nat_scope.

Lemma dropwhile_length (p : N -> bool) (s : pystr) :
  List.length (dropwhile p s) <= List.length s.
Proof.
  induction s as [|c s IH]; simpl; [lia|]. destruct (p c); simpl; lia.
Qed.

Lemma skip_ws_length (s : pystr) : List.length (skip_ws s) <= List.length s.
Proof. apply dropwhile_length. Qed.

Lemma push_some (c : N) (r : option (pystr * pystr)) (str rest : pystr) :
  push c r = Some (str, rest) -> exists str', r = Some (str', rest).
Proof.
  destruct r as [[str' rest']|]; simpl; [|discriminate].
  intros [= _ ->]. eauto.
Qed.

(** [scanstring] consumes at least the closing quote. *)
Lemma scanstring_shorter (n : nat) :
  forall s str rest, List.length s <= n ->
  scanstring s = Some (str, rest) -> List.length rest < List.length s.
Proof.
  induction n as [|n IH]; intros s str rest Hn.
  - destruct s; [discriminate | simpl in Hn; lia].
  - destruct s as [|c s1]; [discriminate|]. simpl in Hn. simpl scanstring.
    assert (Hpush : forall x t, List.length t <= n ->
              push x (scanstring t) = Some (str, rest) ->
              List.length rest < List.length t).
    { intros x t Ht Hp. apply push_some in Hp as [str' Hp]. eapply IH; eauto. }
    destruct (c =? 34)%N; [intros [= _ <-]; simpl; lia|].
    destruct (c =? 92)%N.
    + destruct s1 as [|e s2]; [discriminate|]. simpl in Hn.
      destruct (e =? 117)%N.
      * destruct s2 as [|h1 [|h2 [|h3 [|h4 s3]]]]; try discriminate.
        simpl in Hn. destruct (hex4 h1 h2 h3 h4) as [u|]; [|discriminate].
        assert (H3 : push u (scanstring s3) = Some (str, rest) ->
                     List.length rest < List.length (c :: e :: h1 :: h2 :: h3 :: h4 :: s3)).
        { intros Hp. apply Hpush in Hp; simpl; lia. }
        destruct (high_surrogate u); [|exact H3].
        destruct s3 as [|b [|x [|k1 [|k2 [|k3 [|k4 s4]]]]]]; try exact H3.
        destruct ((b =? 92)%N && (x =? 117)%N); [|exact H3].
        destruct (hex4 k1 k2 k3 k4) as [u2|]; [|discriminate].
        destruct (low_surrogate u2); [|exact H3].
        intros Hp. apply Hpush in Hp; simpl in *; lia.
      * destruct (unescape e) as [c'|]; [|discriminate].
        intros Hp. apply Hpush in Hp; simpl; lia.
    + destruct (c <=? 31)%N; [discriminate|].
      intros Hp. apply Hpush in Hp; simpl; lia.
Qed.

Lemma take_digits_length (s : pystr) :
  List.length (snd (take_digits s)) <= List.length s.
Proof.
  induction s as [|c s IH]; simpl; [lia|].
  destruct (is_digit c); [|simpl; lia].
  destruct (take_digits s) as [ds r]. simpl in *. lia.
Qed.

Lemma frac_part_length (s : pystr) :
  List.length (snd (frac_part s)) <= List.length s.
Proof.
  unfold frac_part. destruct s as [|dot [|d s']]; simpl; try lia.
  destruct ((dot =? 46)%N && is_digit d); [|simpl; lia].
  pose proof (take_digits_length s'). destruct (take_digits s'). simpl in *. lia.
Qed.

Lemma exp_part_length (s : pystr) :
  List.length (snd (exp_part s)) <= List.length s.
Proof.
  unfold exp_part. destruct s as [|e s']; simpl; [lia|].
  destruct ((e =? 101)%N || (e =? 69)%N); [|simpl; lia].
  destruct s' as [|sg s3].
  - simpl. lia.
  - destruct ((sg =? 45)%N || (sg =? 43)%N).
    + pose proof (take_digits_length s3).
      destruct (take_digits s3) as [[|d ds] r]; simpl in *; lia.
    + pose proof (take_digits_length (sg :: s3)).
      destruct (take_digits (sg :: s3)) as [[|d ds] r]; simpl in *; lia.
Qed.

Lemma match_number_shorter (s : pystr) (v : pyval) (rest : pystr) :
  match_number s = Some (v, rest) -> List.length rest < List.length s.
Proof.
  unfold match_number.
  assert (Hint : forall t ip r0, int_part t = Some (ip, r0) ->
                                 List.length r0 < List.length t).
  { intros [|c t] ip r0; simpl; [discriminate|].
    destruct (c =? 48)%N; [intros [= _ <-]; lia|].
    destruct ((49 <=? c)%N && (c <=? 57)%N); [|discriminate].
    pose proof (take_digits_length t). destruct (take_digits t).
    intros [= _ <-]. simpl in *. lia. }
  set (neg_s1 := match s with
                 | c :: s' => if (c =? 45)%N then (true, s') else (false, s)
                 | [] => (false, s)
                 end).
  assert (Hs1 : List.length (snd neg_s1) <= List.length s).
  { unfold neg_s1. destruct s as [|c s']; simpl; [lia|].
    destruct (c =? 45)%N; simpl; lia. }
  destruct neg_s1 as [neg s1]. simpl in Hs1.
  destruct (int_part s1) as [[ip r0]|] eqn:Ei; [|discriminate].
  apply Hint in Ei.
  pose proof (frac_part_length r0) as Hf. destruct (frac_part r0) as [fp r1].
  pose proof (exp_part_length r1) as He. destruct (exp_part r1) as [ep r2].
  simpl in Hf, He.
  destruct fp, ep; intros [= _ <-]; lia.
Qed.

Lemma startswith_length (prefix : pystr) :
  forall s, startswith s prefix = true -> List.length prefix <= List.length s.
Proof.
  induction prefix as [|p prefix IH]; intros s; simpl; [lia|].
  destruct s as [|c s]; [discriminate|].
  intros H. apply andb_true_iff in H as [_ H]. apply IH in H. simpl. lia.
Qed.

Lemma keyword_shorter (s : pystr) (word : string) (v v' : pyval) (rest : pystr) :
  word <> EmptyString ->
  keyword s word v = Some (v', rest) -> List.length rest < List.length s.
Proof.
  unfold keyword. intros Hw. destruct (startswith s (py word)) eqn:E; [|discriminate].
  intros [= _ <-]. apply startswith_length in E.
  assert (List.length (py word) = String.length word).
  { unfold py. rewrite length_map. clear. induction word; simpl; auto. }
  rewrite length_skipn. destruct word; [congruence|]. simpl in *. lia.
Qed.

Lemma scalar_shorter (s : pystr) (v : pyval) (rest : pystr) :
  scalar s = Some (v, rest) -> List.length rest < List.length s.
Proof.
  unfold scalar, first_of.
  repeat match goal with
         | |- context [keyword s ?word ?val] =>
             destruct (keyword s word val) as [[? ?]|] eqn:?;
             [intros [= <- <-]; eapply keyword_shorter; [|eassumption]; discriminate|]
         end.
  apply match_number_shorter.
Qed.

(** With more than twice as much fuel as the text has characters (an array
    spends one unit on itself and one on each element), the decoder does
    not run out of fuel, and what it reads it consumes. *)
Lemma scan_enough_fuel (fuel : nat) :
  (forall s, 2 * List.length s < fuel ->
     scan_once fuel s <> NoFuel /\
     forall v rest, scan_once fuel s = Scanned v rest ->
                    List.length rest < List.length s) /\
  (forall s acc, 2 * List.length s < fuel ->
     members fuel s acc <> NoFuel /\
     forall v rest, members fuel s acc = Scanned v rest ->
                    List.length rest < List.length s) /\
  (forall s acc, 2 * List.length s + 1 < fuel ->
     elements fuel s acc <> NoFuel /\
     forall v rest, elements fuel s acc = Scanned v rest ->
                    List.length rest < List.length s).
Proof.
  induction fuel as [|fuel (IHs & IHm & IHe)]; [repeat split; intros; lia|].
  split; [|split].
  - intros s Hf. simpl scan_once.
    destruct s as [|c s']; [split; [discriminate | intros; discriminate]|].
    simpl in Hf. pose proof (skip_ws_length s') as Hw.
    destruct (c =? 34)%N.
    { destruct (scanstring s') as [[str rest']|] eqn:E;
        [|split; [discriminate | intros; discriminate]].
      apply (scanstring_shorter _ _ _ _ (Nat.le_refl _)) in E.
      split; [discriminate|]. intros v rest [= _ <-]. simpl. lia. }
    destruct (c =? 123)%N.
    { destruct (skip_ws s') as [|d s''] eqn:E;
        [split; [discriminate | intros; discriminate]|].
      simpl in Hw. destruct (d =? 125)%N.
      - split; [discriminate|]. intros v rest [= _ <-]. simpl. lia.
      - destruct (IHm (d :: s'') [] ltac:(simpl; lia)) as [H1 H2].
        split; [exact H1|]. intros v rest H. apply H2 in H. simpl in *. lia. }
    destruct (c =? 91)%N.
    { destruct (skip_ws s') as [|d s''] eqn:E;
        [split; [discriminate | intros; discriminate]|].
      simpl in Hw. destruct (d =? 93)%N.
      - split; [discriminate|]. intros v rest [= _ <-]. simpl. lia.
      - destruct (IHe (d :: s'') [] ltac:(simpl; lia)) as [H1 H2].
        split; [exact H1|]. intros v rest H. apply H2 in H. simpl in *. lia. }
    destruct (scalar (c :: s')) as [[v' rest']|] eqn:E;
      [|split; [discriminate | intros; discriminate]].
    apply scalar_shorter in E.
    split; [discriminate|]. intros v rest [= _ <-]. exact E.
  - intros s acc Hf. simpl members.
    destruct s as [|q s1]; [split; [discriminate | intros; discriminate]|].
    simpl in Hf.
    destruct (q =? 34)%N; [|split; [discriminate | intros; discriminate]].
    destruct (scanstring s1) as [[key s2]|] eqn:E;
      [|split; [discriminate | intros; discriminate]].
    apply (scanstring_shorter _ _ _ _ (Nat.le_refl _)) in E.
    pose proof (skip_ws_length s2) as Hw2.
    destruct (skip_ws s2) as [|colon s3]; [split; [discriminate | intros; discriminate]|].
    simpl in Hw2.
    destruct (colon =? 58)%N; [|split; [discriminate | intros; discriminate]].
    pose proof (skip_ws_length s3) as Hw3.
    destruct (IHs (skip_ws s3) ltac:(lia)) as [H1 H2].
    destruct (scan_once fuel (skip_ws s3)) as [v s4| |] eqn:Ev;
      [|split; [discriminate | intros; discriminate] | now elim H1].
    specialize (H2 _ _ eq_refl).
    pose proof (skip_ws_length s4) as Hw4.
    destruct (skip_ws s4) as [|d s5]; [split; [discriminate | intros; discriminate]|].
    simpl in Hw4.
    destruct (d =? 125)%N.
    { split; [discriminate|]. intros v' rest [= _ <-]. simpl. lia. }
    destruct (d =? 44)%N; [|split; [discriminate | intros; discriminate]].
    pose proof (skip_ws_length s5) as Hw5.
    destruct (IHm (skip_ws s5) ((key, v) :: acc) ltac:(lia)) as [H3 H4].
    split; [exact H3|]. intros v' rest H. apply H4 in H. simpl. lia.
  - intros s acc Hf. simpl elements.
    destruct (IHs s ltac:(lia)) as [H1 H2].
    destruct (scan_once fuel s) as [v s1| |] eqn:Ev;
      [|split; [discriminate | intros; discriminate] | now elim H1].
    specialize (H2 _ _ eq_refl).
    pose proof (skip_ws_length s1) as Hw1.
    destruct (skip_ws s1) as [|d s2]; [split; [discriminate | intros; discriminate]|].
    simpl in Hw1.
    destruct (d =? 93)%N.
    { split; [discriminate|]. intros v' rest [= _ <-]. lia. }
    destruct (d =? 44)%N; [|split; [discriminate | intros; discriminate]].
    pose proof (skip_ws_length s2) as Hw2.
    destruct (IHe (skip_ws s2) (v :: acc) ltac:(lia)) as [H3 H4].
    split; [exact H3|]. intros v' rest H. apply H4 in H. lia.
Qed.

(** The fuel [loads] gives is enough: when it returns [None], the text is
    not JSON. *)
Lemma loads_has_fuel (s : pystr) :
  scan_once (S (2 * List.length s)) (skip_ws s) <> NoFuel.
Proof.
  apply (proj1 (scan_enough_fuel _)). pose proof (skip_ws_length s). lia.
Qed.

Lemma members_dict (fuel : nat) :
  forall t acc v rest, members fuel t acc = Scanned v rest ->
                       exists items, v = PDict items.
Proof.
  induction fuel as [|fuel IH]; intros t acc v rest; simpl members; [easy|].
  destruct t as [|q s1]; [easy|].
  destruct (q =? 34)%N; [|easy].
  destruct (scanstring s1) as [[key s2]|]; [|easy].
  destruct (skip_ws s2) as [|colon s3]; [easy|].
  destruct (colon =? 58)%N; [|easy].
  destruct (scan_once fuel (skip_ws s3)) as [v' s4| |]; try easy.
  destruct (skip_ws s4) as [|e s5]; [easy|].
  destruct (e =? 125)%N; [intros [= <- _]; eauto|].
  destruct (e =? 44)%N; [apply IH | easy].
Qed.

Lemma scan_once_object (fuel : nat) (s' : pystr) (v : pyval) (rest : pystr) :
  scan_once fuel (123%N :: s') = Scanned v rest -> exists items, v = PDict items.
Proof.
  destruct fuel as [|fuel]; [easy|].
  change (scan_once (S fuel) (123%N :: s')) with
    (match skip_ws s' with
     | d :: s'' =>
         if (d =? 125)%N then Scanned (PDict []) s''
         else members fuel (skip_ws s') []
     | [] => Malformed
     end).
  destruct (skip_ws s') as [|d s'']; [easy|].
  destruct (d =? 125)%N; [intros [= <- _]; eauto | apply members_dict].
Qed.

(** A text that starts with an opening brace decodes to a dictionary or
    not at all: what [extract_generate_fields] returns is a [dict]. *)
Lemma loads_object (s : pystr) (v : pyval) :
  startswith s [123%N] = true -> loads s = Some v ->
  exists items, v = PDict items.
Proof.
  unfold loads. destruct s as [|c s']; [easy|].
  simpl startswith. rewrite andb_true_r. intros Hc.
  apply N.eqb_eq in Hc. subst c.
  change ((123 =? 65279)%N && true) with false. cbv iota.
  change (skip_ws (123%N :: s')) with (123%N :: s').
  destruct (scan_once _ (123%N :: s')) as [v' rest| |] eqn:E; try easy.
  apply scan_once_object in E as [items ->].
  destruct (skip_ws rest); [intros [= <-]; eauto | easy].
Qed.

End DecoderFacts.

Section AsciiTexts.
Context {ucd : UnicodeData}.
Import Re LimitProbe.

Lemma is_word_ascii (c : option N) :
  ascii_or_none c -> is_word c = is_word (ucd := ascii_ucd) c.
Proof.
  destruct c as [c|]; simpl; [|reflexivity].
  intros H. now rewrite uni_isalnum_ascii.
Qed.

Lemma star_ascii (p p' : N -> bool) (k k' : option N -> pystr -> bool) :
  (forall c, (c < 128)%N -> p c = p' c) -> agree_on_ascii k k' ->
  forall s prev, ascii_or_none prev -> is_ascii s ->
                 star p prev s k = star p' prev s k'.
Proof.
  intros Hp Hk. induction s as [|c s IH]; intros prev Hprev Hs; simpl.
  - now apply Hk.
  - inversion Hs as [|? ? Hc Hs']; subst. rewrite <- (Hp c Hc).
    rewrite (IH (Some c) Hc Hs'), (Hk prev (c :: s) Hprev Hs). reflexivity.
Qed.

Lemma matches_ascii (r r' : regex) :
  regex_agree r r' ->
  forall k k', agree_on_ascii k k' ->
  forall prev s, ascii_or_none prev -> is_ascii s ->
  matches r prev s k = matches (ucd := ascii_ucd) r' prev s k'.
Proof.
  induction 1 as [p p' Hp|p p' Hp|r1 r1' r2 r2' _ IH1 _ IH2| |];
    intros k k' Hk prev s Hprev Hs; simpl.
  - destruct s as [|c s]; [reflexivity|].
    inversion Hs as [|? ? Hc Hs']; subst.
    now rewrite (Hp c Hc), (Hk (Some c) s Hc Hs').
  - now apply star_ascii.
  - apply IH1; try assumption. intros prev' s' Hp' Hs'. now apply IH2.
  - now apply Hk.
  - rewrite (Hk prev s Hprev Hs), (is_word_ascii prev Hprev).
    rewrite (is_word_ascii (hd_error s)); [reflexivity|].
    destruct Hs; simpl; auto.
Qed.

Lemma literal_i_agree (s : pystr) : regex_agree (literal_i s) (literal_i s).
Proof.
  induction s as [|a s IH]; simpl; [apply agree_eps|].
  apply agree_seq; [apply agree_chr; reflexivity | exact IH].
Qed.

Lemma bullet_re_agree : regex_agree bullet_re (bullet_re (ucd := ascii_ucd)).
Proof.
  unfold bullet_re, Plus.
  repeat first [apply agree_seq | apply agree_chr | apply agree_star];
    intros c Hc; try reflexivity; now apply uni_isdecimal_ascii.
Qed.

Lemma outline_re_agree : regex_agree outline_re (outline_re (ucd := ascii_ucd)).
Proof.
  unfold outline_re.
  apply agree_seq; [apply bullet_re_agree|].
  apply agree_seq; [apply literal_i_agree | apply agree_boundary].
Qed.

Lemma dropwhile_ascii (p : N -> bool) (s : pystr) :
  is_ascii s -> is_ascii (dropwhile p s).
Proof.
  induction 1 as [|c s Hc Hs IH]; simpl; [constructor|].
  destruct (p c); [exact IH | now constructor].
Qed.

Lemma strip_ascii (s : pystr) : is_ascii s -> is_ascii (strip s).
Proof.
  intros H. unfold strip, rstrip, lstrip, is_ascii.
  apply Forall_rev. apply dropwhile_ascii. apply Forall_rev.
  now apply dropwhile_ascii.
Qed.

Lemma looks_like_stub_ascii (t : pystr) :
  is_ascii t -> looks_like_stub t = looks_like_stub (ucd := ascii_ucd) t.
Proof.
  intros H. apply strip_ascii in H. unfold looks_like_stub, re_match.
  destruct (strip t) as [|c r] eqn:E; [reflexivity|].
  rewrite (matches_ascii _ _ outline_re_agree
             (fun _ _ => true) (fun _ _ => true) ltac:(easy) None (c :: r) I H).
  rewrite (matches_ascii _ _ bullet_re_agree
             (fun _ _ => true) (fun _ _ => true) ltac:(easy) None (c :: r) I H).
  reflexivity.
Qed.

(** What the classifier says of an ASCII text does not depend on the
    Unicode version: it is what the ASCII tables give. *)
Theorem classify_outcome_ascii (text : pystr) (want_json : bool)
    (done_reason : pyval) :
  is_ascii text ->
  classify_outcome (PStr text) want_json done_reason
  = classify_outcome (ucd := ascii_ucd) (PStr text) want_json done_reason.
Proof.
  intros H. unfold classify_outcome. cbn [py_strip bind].
  now rewrite (looks_like_stub_ascii (strip text) (strip_ascii text H)).
Qed.

End AsciiTexts.

Lemma classify_outcome_ascii_witness :
  P.classify_outcome (ucd := arabic_ucd) (PStr (py "1. Intro")) false PNone
  = P.classify_outcome (ucd := ascii_ucd) (PStr (py "1. Intro")) false PNone.
Proof.
  apply (classify_outcome_ascii (ucd := arabic_ucd)).
  unfold is_ascii. repeat constructor.
Defined.

(** Outside ASCII the tables matter: a numbered line whose number is
    written with an Arabic-Indic digit is a stub for [\d] of the
    interpreter, and ordinary text for the ASCII tables. *)
Example classify_outcome_arabic_digit :
  let text := (1633 :: py ". Intro")%N in
  P.classify_outcome (ucd := arabic_ucd) (PStr text) false PNone
    = Return STUB
  /\ P.classify_outcome (ucd := ascii_ucd) (PStr text) false PNone
    = Return OK_TEXT.
Proof. split; reflexivity. Qed.

Section FindFacts.
Variable c : N.

Lemma find_bounds (s : pystr) :
  find c s = (-1)%Z \/ (0 <= find c s < len s)%Z.
Proof.
  unfold len. induction s as [|x s IH]; simpl; [now left|].
  destruct (N.eqb x c); [right; lia|].
  destruct IH as [IH|IH].
  - rewrite IH. now left.
  - destruct (Z.ltb_spec (find c s) 0); [lia|]. right. lia.
Qed.

Lemma rfind_bounds (s : pystr) :
  rfind c s = (-1)%Z \/ (0 <= rfind c s < len s)%Z.
Proof.
  unfold rfind. destruct (find_bounds (rev s)) as [H|H].
  - rewrite H. now left.
  - destruct (Z.ltb_spec (find c (rev s)) 0); [lia|].
    right. unfold len in *. rewrite length_rev in H. lia.
Qed.

Lemma find_startswith (s : pystr) :
  startswith s [c] = true -> find c s = 0%Z.
Proof.
  destruct s as [|x s]; simpl; [discriminate|].
  rewrite andb_true_r. now intros ->.
Qed.

Lemma rfind_endswith (s : pystr) :
  endswith s [c] = true -> rfind c s = (len s - 1)%Z.
Proof.
  unfold endswith, rfind. intros H. simpl rev in H.
  rewrite (find_startswith _ H). simpl. lia.
Qed.

End FindFacts.

Lemma slice_all (s : pystr) : slice s 0 (len s - 1 + 1) = s.
Proof.
  unfold slice, len. replace (Z.of_nat (List.length s) - 1 + 1)%Z
    with (Z.of_nat (List.length s)) by lia.
  rewrite Nat2Z.id, firstn_all. reflexivity.
Qed.

Lemma brace_ends_apart (s : pystr) :
  startswith s [123%N] = true -> endswith s [125%N] = true -> (2 <= len s)%Z.
Proof.
  unfold endswith, len. destruct s as [|x [|y s]]; simpl; try discriminate; [|lia].
  rewrite !andb_true_r. intros H1 H2.
  apply N.eqb_eq in H1, H2. congruence.
Qed.

Section ParseFacts.
Import LimitProbe.

(** On a text that is already stripped, the fast path and the fallback of
    [try_parse_json_output] are one test: the slice from the first opening
    brace to the last closing brace is handed to [json.loads]. *)
Lemma try_parse_json_output_slice (t : pystr) :
  strip t = t ->
  try_parse_json_output t =
  (0 <=? find 123 t)%Z && (find 123 t <? rfind 125 t)%Z
  && parses (slice t (find 123 t) (rfind 125 t + 1)).
Proof.
  intros St. unfold try_parse_json_output, parses. rewrite St.
  destruct t as [|c t]; [reflexivity|].
  remember (c :: t) as s eqn:Es.
  change (py "{") with [123%N]. change (py "}") with [125%N].
  destruct (startswith s [123%N] && endswith s [125%N]) eqn:F.
  - apply andb_true_iff in F as [F1 F2].
    pose proof (brace_ends_apart _ F1 F2) as L.
    rewrite (find_startswith _ _ F1), (rfind_endswith _ _ F2), slice_all.
    replace (0 <? len s - 1)%Z with true by (symmetry; apply Z.ltb_lt; lia).
    reflexivity.
  - pose proof (find_bounds 123 s) as H. pose proof (rfind_bounds 125 s) as H'.
    destruct (Z.eqb_spec (find 123 s) (-1)), (Z.eqb_spec (rfind 125 s) (-1)),
      (Z.leb_spec (rfind 125 s) (find 123 s)), (Z.leb_spec 0 (find 123 s)),
      (Z.ltb_spec (find 123 s) (rfind 125 s)); simpl; try reflexivity; lia.
Qed.

End ParseFacts.

Section Classification.
Context {ucd : UnicodeData}.
Import LimitProbe.

(** The decision list of [classify_outcome], case by case. *)
Lemma classify_outcome_cases
    (text : pystr) (want_json : bool) (done_reason : pyval) :
  let t := strip text in
  exists o : Outcome,
    classify_outcome (PStr text) want_json done_reason = Return o /\
    (o = ERROR <-> startswith t EXCEPTION_MARKER = true) /\
    (o = EMPTY <-> startswith t EXCEPTION_MARKER = false /\ t = []) /\
    (o = STUB <->
       startswith t EXCEPTION_MARKER = false /\ t <> []
       /\ looks_like_stub t = true) /\
    (looks_like_stub t = true -> o <> OK_JSON) /\
    (startswith t EXCEPTION_MARKER = false -> t <> [] ->
     looks_like_stub t = false ->
     o = if want_json
         then if try_parse_json_output t then OK_JSON
              else if py_eq_str done_reason (py "length") then TRUNCATED
              else BAD_JSON
         else if py_eq_str done_reason (py "length") then TRUNCATED
              else OK_TEXT).
Proof.
  intros t. unfold classify_outcome. cbn [py_strip bind]. fold t.
  destruct (startswith t EXCEPTION_MARKER) eqn:M.
  { exists ERROR. split; [reflexivity|]. intuition congruence. }
  destruct t as [|c r] eqn:Et.
  { exists EMPTY. split; [reflexivity|]. intuition congruence. }
  destruct (looks_like_stub (c :: r)) eqn:S.
  { exists STUB. split; [reflexivity|]. intuition congruence. }
  eexists. split; [reflexivity|].
  destruct want_json, (try_parse_json_output (c :: r)),
    (py_eq_str done_reason (py "length")); intuition congruence.
Qed.

(** C2.  The classifier is a first-match decision list.  For every response
    text, requested-output mode and completion reason it returns exactly one
    outcome [o]: ERROR exactly when the stripped text starts with the
    exception marker; else EMPTY exactly when it is empty; else STUB exactly
    when the stub heuristic fires; and only a text that passed these three
    tests reaches the parse and truncation checks.  In particular a text the
    stub heuristic catches is never OK_JSON, whatever [try_parse_json_output]
    would say of it. *)
Theorem classifier_decision_order
    (text : pystr) (want_json : bool) (done_reason : pyval) :
  let t := strip text in
  exists o : Outcome,
    classify_outcome (PStr text) want_json done_reason = Return o /\
    (o = ERROR <-> startswith t EXCEPTION_MARKER = true) /\
    (o = EMPTY <-> startswith t EXCEPTION_MARKER = false /\ t = []) /\
    (o = STUB <->
       startswith t EXCEPTION_MARKER = false /\ t <> []
       /\ looks_like_stub t = true) /\
    (looks_like_stub t = true -> o <> OK_JSON) /\
    (startswith t EXCEPTION_MARKER = false -> t <> [] ->
     looks_like_stub t = false ->
     o = if want_json
         then if try_parse_json_output t then OK_JSON
              else if py_eq_str done_reason (py "length") then TRUNCATED
              else BAD_JSON
         else if py_eq_str done_reason (py "length") then TRUNCATED
              else OK_TEXT).
Proof. exact (classify_outcome_cases text want_json done_reason). Qed.

(** C3, as the code has it.  When structured output is requested and the
    response is not classified ERROR, EMPTY or STUB, the trial is OK_JSON
    exactly when the stripped text has an opening brace before its last
    closing brace and the slice from the first opening brace to the last
    closing brace is accepted by [json.loads].  (Braces inside quoted
    strings are the decoder's business: the slice is not cut at them.) *)
Theorem structured_success_is_outer_slice
    (text : pystr) (done_reason : pyval) :
  let t := strip text in
  startswith t EXCEPTION_MARKER = false ->
  t <> [] ->
  looks_like_stub t = false ->
  (classify_outcome (PStr text) true done_reason = Return OK_JSON <->
   (0 <= find 123 t < rfind 125 t)%Z /\
   Json.loads (slice t (find 123 t) (rfind 125 t + 1)) <> None).
Proof.
  intros t M Ne S.
  destruct (classify_outcome_cases text true done_reason)
    as (o & Ho & _ & _ & _ & _ & Hrest).
  fold t in Hrest. specialize (Hrest M Ne S). rewrite Ho.
  rewrite (try_parse_json_output_slice t (strip_idempotent text)) in Hrest.
  unfold parses in Hrest.
  set (candidate := slice t (find 123 t) (rfind 125 t + 1)) in *.
  assert (E : (0 <=? find 123 t)%Z && (find 123 t <? rfind 125 t)%Z
              && match Json.loads candidate with Some _ => true | None => false end
              = true
              <-> (0 <= find 123 t < rfind 125 t)%Z /\ Json.loads candidate <> None).
  { rewrite !andb_true_iff, Z.leb_le, Z.ltb_lt.
    destruct (Json.loads candidate); intuition congruence. }
  rewrite <- E. clear E.
  destruct ((0 <=? find 123 t)%Z && (find 123 t <? rfind 125 t)%Z
            && match Json.loads candidate with Some _ => true | None => false end);
    subst o; [tauto|].
  destruct (py_eq_str done_reason (py "length")); split; congruence.
Qed.

End Classification.

Section ClassifierExamples.
Import LimitProbe.

(** C2 at a concrete text: a numbered-list stub that carries a JSON object
    [json.loads] accepts is STUB. *)
Lemma classifier_decision_order_witness :
  try_parse_json_output (strip (jq "1. {'a': 1}")) = true /\
  classify_outcome (ucd := ascii_ucd) (PStr (jq "1. {'a': 1}")) true
    (PStr (py "stop")) = Return STUB.
Proof.
  split; [now vm_compute|].
  destruct (classifier_decision_order (ucd := ascii_ucd)
              (jq "1. {'a': 1}") true (PStr (py "stop")))
    as (o & Ho & _ & _ & Hstub & _).
  rewrite Ho. f_equal. apply Hstub. repeat split; now vm_compute.
Defined.

(** C3 at the specification's example: a brace inside a quoted value does
    not end the object. *)
Lemma structured_success_witness :
  classify_outcome (ucd := ascii_ucd)
    (PStr (jq "{'a': 'text with { inside'}")) true (PStr (py "stop"))
  = Return OK_JSON.
Proof.
  refine (proj2 (structured_success_is_outer_slice (ucd := ascii_ucd)
                   (jq "{'a': 'text with { inside'}") (PStr (py "stop"))
                   _ _ _) _); now vm_compute.
Defined.

(** C3 as the specification words it fails: the first balanced object of
    this text is accepted by [json.loads], and the trial is BAD_JSON,
    because the slice the code parses runs to the last closing brace. *)
Lemma first_balanced_object_counterexample :
  let text := jq "{'a': 1} {'b': 2}" in
  classify_outcome (ucd := ascii_ucd) (PStr text) true (PStr (py "stop"))
    = Return BAD_JSON /\
  Spec.first_balanced_object (strip text) = Some (jq "{'a': 1}") /\
  Spec.first_object_parses (strip text) = true.
Proof. repeat split; now vm_compute. Qed.

End ClassifierExamples.

(* ------------------------------------------------------------------ *)
(** ** Bisection arithmetic                                            *)
(* ------------------------------------------------------------------ *)



Section Bisection.
Variables lo hi : Z.
Let mid := (lo + hi) / 2.

Lemma mid_is_floor : 2 * mid <= lo + hi < 2 * mid + 2.
Proof. unfold mid. div_lia. Qed.

Lemma mid_in_range : lo <= hi -> lo <= mid <= hi.
Proof. unfold mid. div_lia. Qed.

Lemma mid_below_hi : lo < hi -> mid < hi.
Proof. unfold mid. div_lia. Qed.

(** Either branch at least halves the width, counted as [hi - lo + 1]. *)
Lemma width_halves_up : 2 * (hi - (mid + 1) + 1) <= hi - lo + 1.
Proof. unfold mid. div_lia. Qed.

Lemma width_halves_down : 2 * (mid - 1 - lo + 1) <= hi - lo + 1.
Proof. unfold mid. div_lia. Qed.

End Bisection.

(* ------------------------------------------------------------------ *)
(** ** The loop of [limit_probe.py]                                    *)
(* ------------------------------------------------------------------ *)

Section ProbeLoop.
Import LimitProbe.
Context {ucd : UnicodeData}.
Variable args : Args.
Variable transcript : pystr.
Variable instructions : pystr.
Variable w : world.

Notation tol := (tolerance args).
Notation trial := (trial args transcript instructions w).
Notation loop_body := (loop_body args transcript instructions w).
Notation search_loop := (search_loop args transcript instructions w).
Notation final_check := (final_check args transcript instructions w).
Notation main := (main args transcript instructions w).
Notation logged := (logged w).

(** The status line and the log line of a trial: the file with one more
    line when the trial can be reported, and [UnicodeEncodeError]
    otherwise. *)
Lemma report_trial (st : SearchState) (rr : RunResult) :
  (_ <- print (w (calls st)) (done_reason rr) ;;
   write_log_line (log_file st) (now (w (calls st))) rr (lo st) (hi st))
  = if reported w st rr then Return (logged st rr)
    else Raise UnicodeEncodeError.
Proof.
  unfold print, write_log_line, reported, LimitProbe.logged.
  destruct (console _ _); cbn [bind andb]; [|reflexivity].
  destruct (line_encodes _); reflexivity.
Qed.

(** An iteration, by cases: the trial raises; it returns and cannot be
    reported; it returns, is reported, and the bounds move. *)
Lemma loop_body_cases (st : SearchState) :
  let mid := (lo st + hi st) / 2 in
  loop_body st =
  match trial st mid with
  | Raise e => Raise e
  | Return rr =>
      if reported w st rr then
        Return
          (if is_success (outcome rr) then
             {| lo := mid + 1; hi := hi st; best_ok := Some rr;
                log_file := logged st rr; calls := S (calls st) |}
           else
             {| lo := lo st; hi := mid - 1; best_ok := best_ok st;
                log_file := logged st rr; calls := S (calls st) |})
      else Raise UnicodeEncodeError
  end.
Proof.
  intros mid. unfold LimitProbe.loop_body. fold mid.
  destruct (trial st mid) as [rr|e]; cbn [bind]; [|reflexivity].
  pose proof (report_trial st rr) as R.
  unfold print, write_log_line, reported, LimitProbe.logged in *.
  destruct (console _ _); cbn [bind andb] in *; [|reflexivity].
  destruct (line_encodes _); reflexivity.
Qed.

(** What one iteration does to the state. *)
Lemma loop_body_returns (st st' : SearchState) :
  loop_body st = Return st' ->
  let mid := (lo st + hi st) / 2 in
  exists rr,
    trial st mid = Return rr /\
    calls st' = S (calls st) /\
    log_file st' = logged st rr /\
    ((is_success (outcome rr) = true /\
      lo st' = mid + 1 /\ hi st' = hi st /\ best_ok st' = Some rr) \/
     (is_success (outcome rr) = false /\
      lo st' = lo st /\ hi st' = mid - 1 /\ best_ok st' = best_ok st)).
Proof.
  intros H mid. rewrite loop_body_cases in H. cbv zeta in H. fold mid in H.
  destruct (trial st mid) as [rr|e]; [|discriminate].
  destruct (reported w st rr); [|discriminate].
  injection H as <-. exists rr. split; [reflexivity|].
  destruct (is_success (outcome rr)); simpl; auto 10.
Qed.

(** An iteration that changes the state has reported its trial. *)
Lemma loop_body_reported (st st' : SearchState) (rr : RunResult) :
  loop_body st = Return st' ->
  trial st ((lo st + hi st) / 2) = Return rr ->
  reported w st rr = true.
Proof.
  intros H Ht. rewrite loop_body_cases in H. cbv zeta in H. rewrite Ht in H.
  destruct (reported w st rr); [reflexivity|discriminate].
Qed.

(** An iteration raises what its trial raises, or [UnicodeEncodeError]
    when the trial cannot be reported. *)
Lemma loop_body_raises (st : SearchState) (e : exn) :
  loop_body st = Raise e ->
  trial st ((lo st + hi st) / 2) = Raise e \/
  exists rr, trial st ((lo st + hi st) / 2) = Return rr
             /\ reported w st rr = false /\ e = UnicodeEncodeError.
Proof.
  intros H. rewrite loop_body_cases in H. cbv zeta in H.
  destruct (trial st ((lo st + hi st) / 2)) as [rr|x];
    [|left; now injection H as ->].
  right. exists rr. destruct (reported w st rr); [discriminate|].
  injection H as <-. auto.
Qed.

Lemma search_loop_exit (fuel : nat) (st : SearchState) :
  hi st - lo st <= tol -> search_loop fuel st = (LoopExit, st).
Proof.
  intros H. destruct fuel; simpl;
    destruct (Z.gtb_spec (hi st - lo st) tol); (lia || reflexivity).
Qed.

Lemma search_loop_step (fuel : nat) (st : SearchState) :
  tol < hi st - lo st ->
  search_loop (S fuel) st =
  match loop_body st with
  | Return st' => search_loop fuel st'
  | Raise e => (LoopCrashed e, aborted st)
  end.
Proof.
  intros H. simpl. destruct (Z.gtb_spec (hi st - lo st) tol); [reflexivity | lia].
Qed.

Lemma search_loop_no_fuel (st : SearchState) :
  tol < hi st - lo st -> search_loop 0 st = (LoopOutOfFuel, st).
Proof.
  intros H. simpl. destruct (Z.gtb_spec (hi st - lo st) tol); [reflexivity | lia].
Qed.

(** A property the iterations preserve holds of the state the loop stops
    in, however it stops; [LoopOutOfFuel] after [n] units of fuel gives the
    state at the head of the loop after [n] iterations. *)
Lemma search_loop_invariant (P : SearchState -> Prop) :
  (forall st st', P st -> tol < hi st - lo st ->
                  loop_body st = Return st' -> P st') ->
  forall fuel st, P st ->
  match search_loop fuel st with
  | (LoopExit, st') => P st' /\ hi st' - lo st' <= tol
  | (LoopOutOfFuel, st') => P st' /\ tol < hi st' - lo st'
  | (LoopCrashed e, st') =>
      exists st'', P st'' /\ tol < hi st'' - lo st'' /\
                   loop_body st'' = Raise e /\ st' = aborted st''
  end.
Proof.
  intros Step. induction fuel as [|fuel IH]; intros st HP.
  - destruct (Z.le_gt_cases (hi st - lo st) tol) as [H|H].
    + rewrite search_loop_exit by assumption. auto.
    + rewrite search_loop_no_fuel by assumption. auto.
  - destruct (Z.le_gt_cases (hi st - lo st) tol) as [H|H].
    + rewrite search_loop_exit by assumption. auto.
    + rewrite search_loop_step by assumption.
      destruct (loop_body st) as [st'|e] eqn:E.
      * apply IH. eapply Step; eassumption.
      * exists st. auto.
Qed.

End ProbeLoop.

Lemma len_slice_to (s : pystr) (n : Z) :
  0 <= n <= len s -> len (slice_to s n) = n.
Proof.
  unfold slice_to, len. intros H.
  destruct (Z.ltb_spec n 0); [lia|].
  rewrite length_firstn. lia.
Qed.

Section TrialFacts.
Import LimitProbe.
Context {ucd : UnicodeData}.

(** A trial that returns reports the length of the prefix it was given and
    the time its call took. *)
Lemma run_once_fields env url model instructions prefix want_json stream
    temperature num_ctx num_predict timeout_s rr :
  run_once env url model instructions prefix want_json stream temperature
    num_ctx num_predict timeout_s = Return rr ->
  n_chars rr = len prefix /\ elapsed_s rr = elapsed env.
Proof.
  unfold run_once.
  destruct (post_ollama _ _ _ _) as [[status http_text]|]; cbn [bind];
    [|discriminate].
  repeat match goal with
         | |- context [bind ?m _] => destruct m; cbn [bind]; try discriminate
         end.
  intros [= <-]. split; reflexivity.
Qed.

End TrialFacts.

(* ------------------------------------------------------------------ *)
(** ** The bound of the specification                                  *)
(* ------------------------------------------------------------------ *)

Section CeilLog2.
Import Spec.

Lemma ceil_div_le (a b m : Z) : 0 < b -> ((a + b - 1) / b <= m <-> a <= b * m).
Proof. intros Hb. split; intros H; Z.div_mod_to_equations; nia. Qed.

Lemma floor_div_ge (a b m : Z) : 0 < a -> (m <= b / a <-> a * m <= b).
Proof. intros Ha. split; intros H; Z.div_mod_to_equations; nia. Qed.

(** [ceil_log2_ratio a b] is the least [k] with [a / b <= 2^k], on either
    side of zero. *)
Lemma ceil_log2_ratio_up (a b k : Z) :
  0 < b <= a -> 0 <= k -> (ceil_log2_ratio a b <= k <-> a <= b * 2 ^ k).
Proof.
  intros Hab Hk. unfold ceil_log2_ratio.
  destruct (Z.leb_spec b a); [|lia].
  assert (0 < (a + b - 1) / b) by (Z.div_mod_to_equations; nia).
  rewrite <- Z.log2_up_le_pow2 by lia. apply ceil_div_le. lia.
Qed.

Lemma ceil_log2_ratio_down (a b k : Z) :
  0 < a < b -> 0 <= k -> (ceil_log2_ratio a b <= - k <-> a * 2 ^ k <= b).
Proof.
  intros Hab Hk. unfold ceil_log2_ratio.
  destruct (Z.leb_spec b a); [lia|].
  assert (0 < b / a) by (Z.div_mod_to_equations; nia).
  rewrite <- floor_div_ge by lia.
  rewrite Z.log2_le_pow2 by lia. lia.
Qed.

Lemma ceil_log2_ratio_nonneg (a b : Z) : 0 < b <= a -> 0 <= ceil_log2_ratio a b.
Proof.
  intros Hab. unfold ceil_log2_ratio.
  destruct (Z.leb_spec b a); [|lia]. apply Z.log2_up_nonneg.
Qed.

End CeilLog2.

Section ProbeSearch.
Import LimitProbe.
Context {ucd : UnicodeData}.
Variable args : Args.
Variable transcript : pystr.
Variable instructions : pystr.
Variable w : world.

Notation tol := (tolerance args).
Notation trial := (trial args transcript instructions w).
Notation loop_body := (loop_body args transcript instructions w).
Notation search_loop := (search_loop args transcript instructions w).
Notation final_check := (final_check args transcript instructions w).
Notation main := (main args transcript instructions w).
Notation initial_state := (initial_state args transcript).

(** With [tolerance >= -1] the quantity [hi - lo + 1] at least halves in
    every iteration, so [n] iterations are enough once it is below
    [(tolerance + 2) * 2^n]: the loop makes at most [n] calls, and does not
    run out of [n] units of fuel. *)
Lemma search_loop_potential (n : nat) :
  forall (fuel : nat) (st : SearchState),
  -1 <= tol ->
  hi st - lo st + 1 < (tol + 2) * 2 ^ Z.of_nat n ->
  (calls (snd (search_loop fuel st)) <= calls st + n)%nat /\
  ((n <= fuel)%nat -> fst (search_loop fuel st) <> LoopOutOfFuel).
Proof.
  induction n as [|n IH]; intros fuel st Htol Hpot.
  - rewrite search_loop_exit by (simpl in Hpot; lia). simpl. split; [lia | discriminate].
  - destruct (Z.le_gt_cases (hi st - lo st) tol) as [H|H].
    { rewrite search_loop_exit by assumption. simpl. split; [lia | discriminate]. }
    destruct fuel as [|fuel].
    { rewrite search_loop_no_fuel by assumption. simpl. split; lia. }
    rewrite search_loop_step by assumption.
    destruct (loop_body st) as [st'|e] eqn:E.
    + apply loop_body_returns in E. cbv zeta in E.
      destruct E as (rr & _ & Hc & _ & Hbr).
      rewrite Nat2Z.inj_succ, Z.pow_succ_r in Hpot by lia.
      pose proof (width_halves_up (lo st) (hi st)) as Hup.
      pose proof (width_halves_down (lo st) (hi st)) as Hdown.
      destruct (IH fuel st' Htol) as [IH1 IH2].
      { destruct Hbr as [(_ & -> & -> & _) | (_ & -> & -> & _)]; nia. }
      split; [lia | intros; apply IH2; lia].
    + simpl. split; [lia | discriminate].
Qed.

(** Some [n] always qualifies. *)
Lemma potential_exists (st : SearchState) :
  -1 <= tol ->
  hi st - lo st + 1 < (tol + 2) * 2 ^ Z.of_nat (Z.to_nat (hi st - lo st + 1)).
Proof.
  intros Htol. destruct (Z.le_gt_cases (hi st - lo st + 1) 0) as [H|H].
  - replace (Z.to_nat (hi st - lo st + 1)) with 0%nat by lia. simpl. lia.
  - rewrite Z2Nat.id by lia.
    pose proof (Z.pow_gt_lin_r 2 (hi st - lo st + 1)). nia.
Qed.

(** C6, as the code has it.  A configuration whose clamped bounds satisfy
    [lo >= hi] aborts before any call and any log line.  For one that
    passes, and a tolerance of at least -1 (any tolerance that is not
    negative, in particular): at every point of the search
    [lo <= hi + 1]; [lo <= hi] holds whenever an iteration is about to
    start, and at every point when the tolerance is at least 1; the loop
    has stopped exactly when [hi - lo <= tolerance]; and it does stop. *)
Theorem search_interval_invariant (log0 : list LogLine) :
  let st0 := initial_state log0 in
  (hi st0 <= lo st0 ->
   forall fuel,
     main fuel log0 = (BadRange (lo st0) (hi st0) (full_len transcript), st0)
     /\ calls st0 = 0%nat /\ log_file st0 = log0) /\
  (lo st0 < hi st0 -> -1 <= tol ->
   (forall fuel e st, search_loop fuel st0 = (e, st) ->
      lo st <= hi st + 1 /\
      (tol < hi st - lo st -> lo st <= hi st) /\
      (1 <= tol -> lo st <= hi st) /\
      (e = LoopExit <-> hi st - lo st <= tol)) /\
   (exists n, forall fuel,
      (n <= fuel)%nat -> fst (search_loop fuel st0) <> LoopOutOfFuel)).
Proof.
  intros st0. split.
  - intros H fuel. unfold LimitProbe.main. fold st0.
    destruct (Z.geb_spec (lo st0) (hi st0)); [|lia]. auto.
  - intros Hrange Htol. split.
    + intros fuel e st Hrun.
      pose proof (search_loop_invariant args transcript instructions w
        (fun s => lo s <= hi s + 1 /\ (1 <= tol -> lo s <= hi s))) as Inv.
      specialize (Inv ltac:(
        intros s s' [P1 P2] G B; apply loop_body_returns in B; cbv zeta in B;
        destruct B as (rr & _ & _ & _ & [(_ & -> & -> & _) | (_ & -> & -> & _)]);
        split; try intros; div_lia) fuel st0 ltac:(split; lia)).
      rewrite Hrun in Inv.
      destruct e.
      * destruct Inv as [[P1 P2] G]. repeat split; auto; lia.
      * destruct Inv as (s & [P1 P2] & G & _ & ->). simpl.
        repeat split; auto; try lia; try discriminate.
      * destruct Inv as [[P1 P2] G]. repeat split; auto; try lia; try discriminate.
    + exists (Z.to_nat (hi st0 - lo st0 + 1)). intros fuel Hf.
      now apply (search_loop_potential _ fuel st0 Htol (potential_exists st0 Htol)).
Qed.

(** C7, as the code has it.  For [lo < hi] and a tolerance that is not
    negative, the loop makes at most
    [max(0, ceil(log2((hi-lo)/max(tolerance,1))) + 1)] calls: none when
    [hi - lo <= tolerance], where the formula can be zero or negative, and
    at most the formula's value, which is then at least 1, otherwise.  That
    many units of fuel are enough for the loop to stop, and the final check
    makes exactly one more call. *)
Theorem search_trial_count (st : SearchState) :
  lo st < hi st -> 0 <= tol ->
  let bound := Spec.trial_bound (lo st) (hi st) tol in
  (forall fuel,
     Z.of_nat (calls (snd (search_loop fuel st)) - calls st) <= Z.max 0 bound) /\
  (hi st - lo st <= tol ->
   forall fuel, calls (snd (search_loop fuel st)) = calls st) /\
  (tol < hi st - lo st -> 1 <= bound) /\
  (forall fuel, (Z.to_nat (Z.max 0 bound) <= fuel)%nat ->
     fst (search_loop fuel st) <> LoopOutOfFuel) /\
  (forall st', calls (snd (final_check st')) = S (calls st')).
Proof.
  intros Hrange Htol bound.
  assert (Hexit : hi st - lo st <= tol ->
                  forall fuel, search_loop fuel st = (LoopExit, st)).
  { intros H fuel. now apply search_loop_exit. }
  assert (Hrun : tol < hi st - lo st ->
                 1 <= bound /\
                 hi st - lo st + 1 < (tol + 2) * 2 ^ Z.of_nat (Z.to_nat (Z.max 0 bound))).
  { intros H. unfold bound, Spec.trial_bound.
    set (m := Z.max tol 1). set (K := Spec.ceil_log2_ratio (hi st - lo st) m).
    assert (HK : 0 <= K) by (apply ceil_log2_ratio_nonneg; lia).
    assert (HW : hi st - lo st <= m * 2 ^ K)
      by (apply ceil_log2_ratio_up; lia).
    split; [lia|].
    rewrite Z2Nat.id by lia. replace (Z.max 0 (K + 1)) with (Z.succ K) by lia.
    rewrite Z.pow_succ_r by lia.
    pose proof (Z.pow_pos_nonneg 2 K). nia. }
  repeat split.
  - intros fuel. destruct (Z.le_gt_cases (hi st - lo st) tol) as [H|H].
    + rewrite Hexit by assumption. simpl. lia.
    + destruct (Hrun H) as [_ Hpot].
      pose proof (proj1 (search_loop_potential _ fuel st ltac:(lia) Hpot)). lia.
  - intros H fuel. now rewrite Hexit.
  - intros H. now apply Hrun.
  - intros fuel Hf. destruct (Z.le_gt_cases (hi st - lo st) tol) as [H|H].
    + rewrite Hexit by assumption. discriminate.
    + destruct (Hrun H) as [_ Hpot].
      now apply (search_loop_potential _ fuel st ltac:(lia) Hpot).
  - intros st'. unfold LimitProbe.final_check.
    destruct (bind _ _) as [[rr file]|e]; reflexivity.
Qed.

End ProbeSearch.

Section ProbeLog.
Import LimitProbe.
Context {ucd : UnicodeData}.
Variable args : Args.
Variable transcript : pystr.
Variable instructions : pystr.
Variable w : world.

Notation tol := (tolerance args).
Notation trial := (trial args transcript instructions w).
Notation trial_at := (trial_at args transcript instructions w).
Notation loop_body := (loop_body args transcript instructions w).
Notation search_loop := (search_loop args transcript instructions w).
Notation final_check := (final_check args transcript instructions w).
Notation main := (main args transcript instructions w).
Notation initial_state := (initial_state args transcript).
Notation record_ok := (record_ok args transcript instructions w).
Notation records_ok := (records_ok args transcript instructions w).
Notation full := (full_len transcript).

Lemma initial_lo_positive : 1 <= initial_lo args transcript.
Proof. unfold initial_lo. lia. Qed.

Lemma initial_hi_within : initial_hi args transcript <= full.
Proof. unfold initial_hi. destruct (max_chars args =? 0); lia. Qed.

Lemma trial_n_chars (st : SearchState) (n : Z) (rr : RunResult) :
  trial st n = Return rr -> 0 <= n <= full -> n_chars rr = n.
Proof.
  unfold LimitProbe.trial, LimitProbe.trial_at. intros H Hn.
  apply run_once_fields in H as [-> _]. now apply len_slice_to.
Qed.

Lemma records_ok_snoc (records : list LogLine) (l : LogLine) :
  forall i, records_ok i records ->
            record_ok (i + List.length records) l ->
            records_ok i (records ++ [l]).
Proof.
  induction records as [|x records IH]; intros i; simpl.
  - rewrite Nat.add_0_r. auto.
  - intros [H1 H2] H3. split; [assumption|].
    apply IH; [assumption|]. now rewrite Nat.add_succ_comm.
Qed.

(** While the loop runs, the lower bound stays at least 1, the upper bound
    at most the length of the transcript, and the best success, when there
    is one, is shorter than [lo]. *)
Lemma search_loop_best_below (fuel : nat) (log0 : list LogLine) :
  -1 <= tol ->
  forall e st, search_loop fuel (initial_state log0) = (e, st) ->
  1 <= lo st /\ hi st <= full /\
  (forall b, best_ok st = Some b -> n_chars b < lo st).
Proof.
  intros Htol e st Hrun.
  pose proof (search_loop_invariant args transcript instructions w
    (fun s => 1 <= lo s /\ hi s <= full /\
              forall b, best_ok s = Some b -> n_chars b < lo s)) as Inv.
  assert (Step : forall s s',
    (1 <= lo s /\ hi s <= full /\
     forall b, best_ok s = Some b -> n_chars b < lo s) ->
    tol < hi s - lo s -> loop_body s = Return s' ->
    (1 <= lo s' /\ hi s' <= full /\
     forall b, best_ok s' = Some b -> n_chars b < lo s')).
  { intros s s' (P1 & P2 & P3) G B.
    apply loop_body_returns in B. cbv zeta in B.
    destruct B as (rr & Ht & _ & _ & Hbr).
    pose proof (mid_in_range (lo s) (hi s) ltac:(lia)) as Hm.
    apply trial_n_chars in Ht; [|lia].
    destruct Hbr as [(_ & -> & -> & ->) | (_ & -> & -> & ->)].
    - repeat split; try lia. intros b [= <-]. lia.
    - repeat split; try lia. assumption. }
  specialize (Inv Step fuel (initial_state log0)).
  rewrite Hrun in Inv.
  assert (Init : 1 <= lo (initial_state log0) /\ hi (initial_state log0) <= full /\
                 forall b, best_ok (initial_state log0) = Some b ->
                           n_chars b < lo (initial_state log0)).
  { simpl. split; [apply initial_lo_positive|]. split; [apply initial_hi_within|].
    discriminate. }
  specialize (Inv Init). destruct e.
  - apply Inv.
  - destruct Inv as (s & P & _ & _ & ->). exact P.
  - apply Inv.
Qed.

End ProbeLog.

Section ProbeLog2.
Import LimitProbe.
Context {ucd : UnicodeData}.
Variable args : Args.
Variable transcript : pystr.
Variable instructions : pystr.
Variable w : world.

Notation tol := (tolerance args).
Notation trial := (trial args transcript instructions w).
Notation trial_at := (trial_at args transcript instructions w).
Notation loop_body := (loop_body args transcript instructions w).
Notation search_loop := (search_loop args transcript instructions w).
Notation final_check := (final_check args transcript instructions w).
Notation main := (main args transcript instructions w).
Notation initial_state := (initial_state args transcript).
Notation record_ok := (record_ok args transcript instructions w).
Notation records_ok := (records_ok args transcript instructions w).
Notation log_inv := (log_inv args transcript instructions w).
Notation longest_inv := (longest_inv transcript).
Notation from_loop := (from_loop args).
Notation full := (full_len transcript).
Notation logged := (logged w).
Notation reported := (reported w).

Lemma carries_log_line (ts : pystr) (rr : RunResult) (lo hi : Z) :
  carries (log_line ts rr lo hi) ts rr.
Proof. unfold carries. cbn. repeat split. Qed.

Lemma line_encodes_log_line (ts : pystr) (rr : RunResult) (lo hi : Z) :
  line_encodes (log_line ts rr lo hi)
  = utf8_ok (done_reason rr) && utf8_ok (eval_count rr)
    && utf8_ok (prompt_eval_count rr) && utf8_ok (total_duration rr)
    && encodes (response_preview rr) && encodes ts.
Proof. reflexivity. Qed.

(** The final check, by cases: the trial raises; it returns and cannot be
    reported; it returns and is reported, and the result is printed, or
    cannot be. *)
Lemma final_check_cases (st : SearchState) :
  let final_n := Z.max 1 (Z.min (hi st) full) in
  final_check st =
  match trial st final_n with
  | Raise e => (Crashed e, aborted st)
  | Return rr =>
      if reported st rr then
        let r :=
          if is_success (outcome rr) then MaxGood final_n (response_preview rr)
          else
            match best_ok st with
            | Some best => MaxGoodEarlier best final_n (outcome rr)
            | None => NoSuccessfulSize rr
            end in
        (match print_report args (w (calls st)) r with
         | Return _ => Finished r
         | Raise e => Crashed e
         end,
         {| lo := lo st; hi := hi st; best_ok := best_ok st;
            log_file := logged st rr; calls := S (calls st) |})
      else (Crashed UnicodeEncodeError, aborted st)
  end.
Proof.
  intros final_n. unfold LimitProbe.final_check. fold final_n.
  destruct (trial st final_n) as [rr|e]; cbn [bind]; [|reflexivity].
  unfold print, write_log_line, LimitProbe.reported, LimitProbe.logged.
  destruct (console _ _); cbn [bind andb]; [|reflexivity].
  destruct (line_encodes _); reflexivity.
Qed.

Lemma log_inv_initial (log0 : list LogLine) : log_inv log0 (initial_state log0).
Proof.
  exists []. simpl. rewrite app_nil_r. repeat split; constructor.
Qed.

Lemma log_inv_step (log0 : list LogLine) (st st' : SearchState) :
  log_inv log0 st -> tol < hi st - lo st -> loop_body st = Return st' ->
  log_inv log0 st'.
Proof.
  intros (records & Hlog & Hlen & Hok & Hloop & Hbest) G B.
  apply loop_body_returns in B. cbv zeta in B.
  destruct B as (rr & Ht & Hc & Hl & Hbr).
  set (l := log_line (now (w (calls st))) rr (lo st) (hi st)).
  assert (Hrec : record_ok (0 + List.length records) l).
  { rewrite Hlen. exists ((lo st + hi st) / 2), rr. simpl.
    split; [exact Ht|]. split; [apply carries_log_line|].
    left. split; [exact G | reflexivity]. }
  exists (records ++ [l]). repeat split.
  - rewrite Hl. unfold LimitProbe.logged. rewrite Hlog, <- app_assoc. reflexivity.
  - rewrite length_app, Hc, Hlen. simpl. lia.
  - now apply records_ok_snoc.
  - apply Forall_app. split; [assumption|]. constructor; [exact G | constructor].
  - destruct Hbr as [(Hs & _ & _ & ->) | (Hs & _ & _ & ->)].
    + split; [exact Hs|]. exists records, l, [], (now (w (calls st))).
      split; [reflexivity|]. split; [apply carries_log_line|constructor].
    + destruct (best_ok st) as [b|].
      * destruct Hbest as (Hb & before & x & after & ts & Hrecs & Hx & Hafter).
        split; [exact Hb|].
        exists before, x, (after ++ [l]), ts.
        split; [rewrite Hrecs, <- app_assoc; reflexivity|].
        split; [exact Hx|].
        apply Forall_app. split; [exact Hafter|]. constructor; [exact Hs|constructor].
      * apply Forall_app. split; [assumption|]. constructor; [exact Hs | constructor].
Qed.

(** The state the loop stops in, however it stops, is described by
    [log_inv]; an iteration that raised made its call and logged nothing. *)
Lemma search_loop_log (fuel : nat) (log0 : list LogLine) :
  match search_loop fuel (initial_state log0) with
  | (LoopExit, st) => log_inv log0 st /\ hi st - lo st <= tol
  | (LoopOutOfFuel, st) => log_inv log0 st /\ tol < hi st - lo st
  | (LoopCrashed e, st) =>
      exists st', log_inv log0 st' /\ tol < hi st' - lo st' /\
                  loop_body st' = Raise e /\ st = aborted st'
  end.
Proof.
  apply (search_loop_invariant args transcript instructions w (log_inv log0)).
  - intros st st'. apply log_inv_step.
  - apply log_inv_initial.
Qed.

Lemma longest_inv_initial (log0 : list LogLine) :
  longest_inv log0 (initial_state log0).
Proof.
  unfold LimitProbe.longest_inv. cbn [lo hi best_ok log_file LimitProbe.initial_state].
  split; [apply initial_lo_positive|]. split; [apply initial_hi_within|].
  split; [|discriminate].
  exists []. split; [now rewrite app_nil_r|constructor].
Qed.

Lemma longest_inv_step (log0 : list LogLine) (st st' : SearchState) :
  -1 <= tol ->
  longest_inv log0 st -> tol < hi st - lo st -> loop_body st = Return st' ->
  longest_inv log0 st'.
Proof.
  intros Htol (P1 & P2 & (old & Ho & P3) & P4) G B.
  apply loop_body_returns in B. cbv zeta in B.
  destruct B as (rr & Ht & _ & Hl & Hbr).
  pose proof (mid_in_range (lo st) (hi st) ltac:(lia)) as Hm.
  pose proof (trial_n_chars args transcript instructions w st _ rr Ht ltac:(lia))
    as Hn.
  assert (Hnew : log_file st'
                 = log0 ++ old ++ [log_line (now (w (calls st))) rr (lo st) (hi st)]).
  { rewrite Hl. unfold LimitProbe.logged. now rewrite Ho, <- app_assoc. }
  unfold LimitProbe.longest_inv.
  destruct Hbr as [(Hs & -> & -> & ->) | (Hs & -> & -> & ->)].
  - split; [lia|]. split; [lia|]. split.
    + eexists. split; [exact Hnew|].
      apply Forall_app. split.
      * eapply Forall_impl; [|exact P3]. cbn beta. intros l H Hl'.
        specialize (H Hl'). lia.
      * constructor; [|constructor]. intros _. cbn. lia.
    + intros b [= <-]. lia.
  - split; [lia|]. split; [lia|]. split; [|exact P4].
    eexists. split; [exact Hnew|].
    apply Forall_app. split; [exact P3|].
    constructor; [|constructor]. cbn. intros Hx. congruence.
Qed.

(** Fuel that ran out is fuel spent: the loop resumes where it stood. *)
Lemma search_loop_resume (k : nat) :
  forall (st st_k : SearchState) (fuel : nat),
  search_loop k st = (LoopOutOfFuel, st_k) ->
  search_loop (k + fuel) st = search_loop fuel st_k.
Proof.
  induction k as [|k IH]; intros st st_k fuel H.
  - destruct (Z.le_gt_cases (hi st - lo st) tol) as [G|G].
    + rewrite search_loop_exit in H by assumption. discriminate.
    + rewrite search_loop_no_fuel in H by assumption. now injection H as <-.
  - destruct (Z.le_gt_cases (hi st - lo st) tol) as [G|G].
    + rewrite search_loop_exit in H by assumption. discriminate.
    + rewrite search_loop_step in H by assumption.
      change (S k + fuel)%nat with (S (k + fuel)).
      rewrite search_loop_step by assumption.
      destruct (loop_body st); [now apply IH | discriminate].
Qed.

(** The log only grows. *)
Lemma search_loop_appends (fuel : nat) (st : SearchState) :
  exists more, log_file (snd (search_loop fuel st)) = log_file st ++ more.
Proof.
  pose proof (search_loop_invariant args transcript instructions w
    (fun s => exists more, log_file s = log_file st ++ more)) as Inv.
  assert (Step : forall s s',
    (exists more, log_file s = log_file st ++ more) ->
    tol < hi s - lo s -> loop_body s = Return s' ->
    exists more, log_file s' = log_file st ++ more).
  { intros s s' [more Hm] _ B. apply loop_body_returns in B. cbv zeta in B.
    destruct B as (rr & _ & _ & Hl & _). rewrite Hl.
    unfold LimitProbe.logged. rewrite Hm, <- app_assoc. eauto. }
  specialize (Inv Step fuel st ltac:(exists []; now rewrite app_nil_r)).
  destruct (search_loop fuel st) as [[|e|] s]; simpl.
  - apply Inv.
  - destruct Inv as (s' & P & _ & _ & ->). exact P.
  - apply Inv.
Qed.

Lemma final_check_appends (st : SearchState) :
  exists more, log_file (snd (final_check st)) = log_file st ++ more.
Proof.
  rewrite final_check_cases. cbv zeta.
  destruct (trial st _) as [rr|e]; cbn [snd].
  - destruct (reported st rr); cbn [snd log_file aborted].
    + unfold LimitProbe.logged. eauto.
    + exists []. now rewrite app_nil_r.
  - exists []. now rewrite app_nil_r.
Qed.

End ProbeLog2.

Section ProbeClaims.
Import LimitProbe.
Context {ucd : UnicodeData}.
Variable args : Args.
Variable transcript : pystr.
Variable instructions : pystr.
Variable w : world.

Notation tol := (tolerance args).
Notation trial := (trial args transcript instructions w).
Notation trial_at := (trial_at args transcript instructions w).
Notation loop_body := (loop_body args transcript instructions w).
Notation search_loop := (search_loop args transcript instructions w).
Notation final_check := (final_check args transcript instructions w).
Notation main := (main args transcript instructions w).
Notation initial_state := (initial_state args transcript).
Notation record_ok := (record_ok args transcript instructions w).
Notation records_ok := (records_ok args transcript instructions w).
Notation log_inv := (log_inv args transcript instructions w).
Notation longest_inv := (longest_inv transcript).
Notation from_loop := (from_loop args).
Notation full := (full_len transcript).
Notation logged := (logged w).
Notation reported := (reported w).

(** [main] once the range check has passed and the first line that names
    the log is printed. *)
Lemma main_cases (fuel : nat) (log0 : list LogLine) :
  main fuel log0 =
  let st0 := initial_state log0 in
  if lo st0 >=? hi st0 then (BadRange (lo st0) (hi st0) full, st0)
  else if console (w 0%nat) (PStr (log args)) then
    match search_loop fuel st0 with
    | (LoopExit, st) => final_check st
    | (LoopCrashed e, st) => (Crashed e, st)
    | (LoopOutOfFuel, st) => (OutOfFuel, st)
    end
  else (Crashed UnicodeEncodeError, st0).
Proof.
  unfold LimitProbe.main, print. cbv zeta.
  destruct (_ >=? _); [reflexivity|]. now destruct (console _ _).
Qed.

(** In every run of [limit_probe.py], however it ends, the log is the log
    it started with followed by one line per trial that returned and could
    be reported, in the order of the calls: line number [i] is the line of
    the trial of call number [i], with each of that trial's fields, the
    time of writing and the bounds [lo], [hi] its length was computed
    from.  There are as many lines as calls, or one fewer: then the run
    ended in the exception of its last trial, the one that trial raised or
    the [UnicodeEncodeError] of a trial that could not be reported.  At
    every point of the run the log so far is a prefix of the final log: no
    line is rewritten or deleted. *)
Theorem log_holds_reported_trials (fuel : nat) (log0 : list LogLine) :
  let e := fst (main fuel log0) in
  let st := snd (main fuel log0) in
  (exists records,
     log_file st = log0 ++ records /\
     (List.length records <= calls st <= S (List.length records))%nat /\
     match e with
     | Crashed _ => True
     | _ => List.length records = calls st
     end /\
     records_ok 0 records /\
     (calls st = S (List.length records) ->
      exists s n,
        calls s = List.length records /\
        match trial s n with
        | Raise x => e = Crashed x
        | Return rr => reported s rr = false /\ e = Crashed UnicodeEncodeError
        end)) /\
  (forall k st_k,
     lo (initial_state log0) < hi (initial_state log0) ->
     console (w 0%nat) (PStr (log args)) = true ->
     (k <= fuel)%nat ->
     search_loop k (initial_state log0) = (LoopOutOfFuel, st_k) ->
     exists more, log_file st = log_file st_k ++ more).
Proof.
  intros e st. subst e st. rewrite main_cases. cbv zeta.
  set (st0 := initial_state log0).
  destruct (Z.geb_spec (lo st0) (hi st0)) as [Hbad|Hgood].
  { split.
    - exists []. simpl. rewrite app_nil_r.
      repeat split; (lia || constructor).
    - intros k st_k H. lia. }
  destruct (console (w 0%nat) (PStr (log args))).
  2: { split.
       - exists []. simpl. rewrite app_nil_r.
         repeat split; (lia || constructor).
       - intros k st_k _ Hc. discriminate. }
  split.
  - pose proof (search_loop_log args transcript instructions w fuel log0) as L.
    fold st0 in L.
    destruct (search_loop fuel st0) as [[|x|] s].
    + destruct L as [(records & Hlog & Hlen & Hok & _) G].
      rewrite final_check_cases. cbv zeta.
      destruct (trial s _) as [rr|x] eqn:T.
      * destruct (reported s rr) eqn:R.
        -- exists (records ++ [log_line (now (w (calls s))) rr (lo s) (hi s)]).
           cbn [fst snd log_file calls].
           split; [unfold LimitProbe.logged; now rewrite Hlog, <- app_assoc|].
           rewrite length_app, Hlen. cbn [List.length].
           split; [lia|]. split; [destruct (print_report _ _ _); lia|].
           split; [|intros; lia].
           apply records_ok_snoc; [assumption|]. rewrite Hlen.
           eexists _, rr. split; [exact T|]. split; [apply carries_log_line|].
           right. split; [exact G | reflexivity].
        -- exists records. cbn [fst snd LimitProbe.aborted log_file calls].
           split; [exact Hlog|]. split; [lia|]. split; [exact I|].
           split; [exact Hok|]. intros _.
           exists s, (Z.max 1 (Z.min (hi s) full)).
           split; [now symmetry|]. rewrite T. now split.
      * exists records. cbn [fst snd LimitProbe.aborted log_file calls].
        split; [exact Hlog|]. split; [lia|]. split; [exact I|].
        split; [exact Hok|]. intros _.
        exists s, (Z.max 1 (Z.min (hi s) full)).
        split; [now symmetry|]. now rewrite T.
    + destruct L as (s' & (records & Hlog & Hlen & Hok & _) & _ & B & ->).
      exists records. cbn [fst snd LimitProbe.aborted log_file calls].
      split; [exact Hlog|]. split; [lia|]. split; [exact I|].
      split; [exact Hok|]. intros _.
      exists s', ((lo s' + hi s') / 2). split; [now symmetry|].
      apply loop_body_raises in B.
      destruct B as [B|(rr & B & R & ->)]; rewrite B; [reflexivity|now split].
    + destruct L as [(records & Hlog & Hlen & Hok & _) _].
      exists records. cbn [fst snd]. split; [exact Hlog|]. split; [lia|].
      split; [exact Hlen|]. split; [exact Hok|]. intros; lia.
  - intros k st_k _ _ Hk Hrun.
    replace fuel with (k + (fuel - k))%nat by lia.
    rewrite (search_loop_resume args transcript instructions w k _ _ (fuel - k) Hrun).
    destruct (search_loop_appends args transcript instructions w (fuel - k) st_k)
      as [more Hmore].
    destruct (search_loop (fuel - k) st_k) as [[|x|] s]; simpl in *; eauto.
    destruct (final_check_appends args transcript instructions w s) as [more' Hmore'].
    rewrite Hmore', Hmore, <- app_assoc. eauto.
Qed.

(** A record that holds a surrogate is not written: [write_log_line]
    raises, and the file is as it was. *)
Lemma write_log_line_surrogate (file : list LogLine) (ts : pystr)
    (rr : RunResult) (lo hi : Z) :
  existsb is_surrogate (response_preview rr) = true ->
  write_log_line file ts rr lo hi = Raise UnicodeEncodeError.
Proof.
  intros H. unfold write_log_line, line_encodes, encodes.
  cbn [l_preview log_line]. rewrite H. cbn [negb].
  now rewrite andb_false_r.
Qed.

(** In [limit_probe.py] the best success is only replaced by a success at
    a strictly larger length; an iteration that raises leaves it alone. *)
Lemma probe_best_only_grows (fuel : nat) (log0 : list LogLine)
    (st : SearchState) :
  -1 <= tol ->
  search_loop fuel (initial_state log0) = (LoopOutOfFuel, st) ->
  (forall st',
     loop_body st = Return st' ->
     exists rr,
       trial st ((lo st + hi st) / 2) = Return rr /\
       n_chars rr = (lo st + hi st) / 2 /\
       (is_success (outcome rr) = false -> best_ok st' = best_ok st) /\
       (is_success (outcome rr) = true ->
        best_ok st' = Some rr /\
        forall b, best_ok st = Some b -> n_chars b < n_chars rr)) /\
  (forall rr,
     trial st ((lo st + hi st) / 2) = Return rr -> reported st rr = true ->
     exists st', loop_body st = Return st') /\
  (forall e k,
     loop_body st = Raise e ->
     exists st', search_loop (S k) st = (LoopCrashed e, st')
                 /\ best_ok st' = best_ok st).
Proof.
  intros Htol Hrun.
  destruct (search_loop_best_below args transcript instructions w fuel log0
              Htol _ _ Hrun) as (P1 & P2 & P3).
  pose proof (search_loop_invariant args transcript instructions w
                (fun _ => True) ltac:(auto) fuel (initial_state log0) I) as G.
  rewrite Hrun in G. destruct G as [_ G].
  pose proof (mid_in_range (lo st) (hi st) ltac:(lia)) as Hm.
  split; [|split].
  - intros st' B. apply loop_body_returns in B. cbv zeta in B.
    destruct B as (rr & Ht & _ & _ & Hbr). exists rr.
    pose proof (trial_n_chars args transcript instructions w st _ rr Ht
                  ltac:(lia)) as Hn.
    split; [exact Ht|]. split; [exact Hn|].
    destruct Hbr as [(Hs & _ & _ & ->) | (Hs & _ & _ & ->)]; rewrite Hs;
      split; try discriminate; auto.
    intros _. split; [reflexivity|]. intros b Hb. specialize (P3 b Hb). lia.
  - intros rr Ht Hr. rewrite loop_body_cases. cbv zeta. rewrite Ht, Hr. eauto.
  - intros e k B. rewrite search_loop_step by assumption. rewrite B.
    eexists. split; reflexivity.
Qed.

(** The final check leaves [best_ok] alone. *)
Lemma final_check_keeps_best (st : SearchState) :
  best_ok (snd (final_check st)) = best_ok st.
Proof.
  rewrite final_check_cases. cbv zeta.
  destruct (trial st _) as [rr|e]; [destruct (reported st rr)|]; reflexivity.
Qed.

(** The report of a run of [limit_probe.py] that reaches its result. *)
Lemma probe_final_report (fuel : nat) (log0 : list LogLine)
    (r : report) (st : SearchState) :
  main fuel log0 = (Finished r, st) ->
  exists records last,
    log_file st = log0 ++ records ++ [last] /\
    calls st = S (List.length records) /\
    Forall from_loop records /\
    hi st - lo st <= tol /\
    l_search_lo last = lo st /\ l_search_hi last = hi st /\
    l_n_chars last = Z.max 1 (Z.min (hi st) full) /\
    match r with
    | MaxGood n preview =>
        is_success (l_outcome last) = true /\ n = l_n_chars last /\
        preview = l_preview last
    | MaxGoodEarlier best n o =>
        failed last /\ n = l_n_chars last /\ o = l_outcome last /\
        best_ok st = Some best /\
        last_success records best /\
        (-1 <= tol ->
         Forall (fun l => is_success (l_outcome l) = true ->
                          l_n_chars l <= n_chars best) records)
    | NoSuccessfulSize rr =>
        best_ok st = None /\ Forall failed (records ++ [last]) /\
        l_outcome last = outcome rr /\ l_preview last = response_preview rr
    end.
Proof.
  rewrite main_cases. cbv zeta. set (st0 := initial_state log0).
  destruct (Z.geb_spec (lo st0) (hi st0)) as [Hbad|Hgood]; [discriminate|].
  destruct (console (w 0%nat) (PStr (log args))); [|discriminate].
  pose proof (search_loop_log args transcript instructions w fuel log0) as L.
  pose proof (fun H : -1 <= tol =>
    search_loop_invariant args transcript instructions w (longest_inv log0)
      (fun s s' => longest_inv_step args transcript instructions w log0 s s' H)
      fuel st0 (longest_inv_initial args transcript log0)) as M.
  fold st0 in L.
  destruct (search_loop fuel st0) as [[|x|] s] eqn:Hrun; try discriminate.
  destruct L as [(records & Hlog & Hlen & Hok & Hloop & Hbest) G].
  rewrite final_check_cases. cbv zeta.
  destruct (trial s _) as [rr|x] eqn:T; [|discriminate].
  destruct (reported s rr); [|discriminate].
  destruct (print_report _ _ _); [|discriminate].
  intros [= <- <-]. cbn [lo hi calls log_file best_ok].
  assert (Hfull : 2 <= full).
  { pose proof initial_lo_positive args transcript.
    pose proof initial_hi_within args transcript. simpl in Hgood. lia. }
  apply trial_n_chars in T; [|lia].
  exists records, (log_line (now (w (calls s))) rr (lo s) (hi s)).
  split; [unfold LimitProbe.logged; now rewrite Hlog, <- app_assoc|].
  split; [now rewrite Hlen|]. split; [exact Hloop|]. split; [exact G|].
  split; [reflexivity|]. split; [reflexivity|]. split; [exact T|].
  destruct (is_success (outcome rr)) eqn:S.
  - split; [exact S|]. split; [symmetry; exact T|reflexivity].
  - destruct (best_ok s) as [b|] eqn:Eb.
    + split; [exact S|]. split; [symmetry; exact T|]. split; [reflexivity|].
      split; [reflexivity|]. split; [exact Hbest|].
      intros Htol. destruct (M Htol) as [(_ & _ & (recs & Hr & Q3) & Q4) _].
      specialize (Q4 b Eb).
      rewrite Hlog in Hr. apply app_inv_head in Hr. subst recs.
      eapply Forall_impl; [|exact Q3]. cbn beta.
      intros l H Hl. specialize (H Hl). lia.
    + split; [reflexivity|]. split; [|split; reflexivity].
      apply Forall_app. split; [assumption|]. constructor; [exact S | constructor].
Qed.

(** In [limit_probe.py], when every trial returns and none succeeds
    (every response is an empty string, say), and whatever is printed and
    logged can be, enough fuel ends the run in the report that no
    successful size was found. *)
Lemma probe_no_success (log0 : list LogLine) :
  lo (initial_state log0) < hi (initial_state log0) ->
  -1 <= tol ->
  console_takes_all w ->
  lines_encode args transcript instructions w ->
  (forall i n, exists rr, trial_at i n = Return rr
                          /\ is_success (outcome rr) = false) ->
  exists enough, forall fuel, (enough <= fuel)%nat ->
    exists rr st, main fuel log0 = (Finished (NoSuccessfulSize rr), st).
Proof.
  intros Hgood Htol Hcon Henc Hfail. set (st0 := initial_state log0) in *.
  exists (Z.to_nat (hi st0 - lo st0 + 1)). intros fuel Hfuel.
  rewrite main_cases. cbv zeta. fold st0.
  destruct (Z.geb_spec (lo st0) (hi st0)) as [Hbad|_]; [lia|].
  rewrite Hcon.
  assert (Hrep : forall s n rr, trial_at (calls s) n = Return rr ->
                                reported s rr = true).
  { intros s n rr Hr. unfold LimitProbe.reported. rewrite Hcon.
    now rewrite (Henc _ _ _ (lo s) (hi s) Hr). }
  pose proof (proj2 (search_loop_potential args transcript instructions w _
    fuel st0 Htol (potential_exists args st0 Htol)) Hfuel) as Hstop.
  pose proof (search_loop_invariant args transcript instructions w
    (fun s => best_ok s = None)) as Inv.
  assert (Step : forall s s', best_ok s = None -> tol < hi s - lo s ->
                              loop_body s = Return s' -> best_ok s' = None).
  { intros s s' P _ B. apply loop_body_returns in B. cbv zeta in B.
    destruct B as (rr & Ht & _ & _ & [(Hs & _) | (_ & _ & _ & ->)]); [|exact P].
    destruct (Hfail (calls s) ((lo s + hi s) / 2)) as (rr' & Ht' & Hf).
    unfold LimitProbe.trial in Ht. congruence. }
  specialize (Inv Step fuel st0 eq_refl).
  destruct (search_loop _ st0) as [[|x|] s]; simpl in Hstop.
  - destruct Inv as [Hnone _]. rewrite final_check_cases. cbv zeta.
    unfold LimitProbe.trial.
    destruct (Hfail (calls s) (Z.max 1 (Z.min (hi s) full))) as (rr & Hr & Hf).
    rewrite Hr, (Hrep s _ rr Hr), Hf, Hnone.
    unfold print_report, print. rewrite !Hcon. cbn [bind]. eauto.
  - destruct Inv as (s' & _ & _ & B & _). apply loop_body_raises in B.
    destruct (Hfail (calls s') ((lo s' + hi s') / 2)) as (rr & Ht & _).
    unfold LimitProbe.trial in B.
    destruct B as [B|(rr' & B & Hr & _)]; [congruence|].
    rewrite (Hrep s' _ rr' B) in Hr. discriminate.
  - now elim Hstop.
Qed.

End ProbeClaims.

(* ------------------------------------------------------------------ *)
(** ** The loop of [limit_probe_prod.py]                               *)
(* ------------------------------------------------------------------ *)

Section ProdLoop.
Import LimitProbeProd.
Variable args : Args.
Variable transcript : pystr.
Variable SYSTEM_RULES : pystr.
Variable w : world.

Notation tol := (tolerance args).
Notation attempt := (attempt args transcript SYSTEM_RULES w).
Notation loop_body := (loop_body args transcript SYSTEM_RULES w).
Notation search_loop := (search_loop args transcript SYSTEM_RULES w).
Notation final_check := (final_check args transcript SYSTEM_RULES w).
Notation aborted := (aborted args transcript SYSTEM_RULES w).
Notation main := (main args transcript SYSTEM_RULES w).
Notation initial_state := (initial_state args transcript).
Notation full := (full_len transcript).

(** An attempt, by cases: the call or the verdict raises, and nothing is
    written; or the dump and the row are written, and the attempt returns
    when its status line can be printed. *)
Lemma attempt_written (st : SearchState) (n : Z) :
  let a := attempt st n in
  (a_log_file a = log_file st /\ a_dumps a = dumps st
   /\ exists e, a_result a = Raise e) \/
  (exists ok text meta raw_http,
     a_log_file a =
       log_file st
       ++ [ {| row_n_chars := n; row_ok := ok; row_meta := meta;
               row_resp_head := escape_newlines (slice_to text 120) |} ] /\
     a_dumps a =
       (if ok then dumps st
        else file_set n {| dump_n_chars := n; dump_meta := meta;
                           dump_raw_http := raw_http |} (dumps st)) /\
     a_result a =
       if console (w (calls st)) (done_reason meta)
          && console (w (calls st)) (prompt_eval_count meta)
       then Return (ok, text, meta) else Raise UnicodeEncodeError).
Proof.
  intros a. subst a. unfold LimitProbeProd.attempt.
  destruct (bind _ _) as [[[[ok text] meta] raw]|e].
  - right. exists ok, text, meta, raw. cbn [a_log_file a_dumps a_result].
    split; [reflexivity|]. split; [reflexivity|].
    unfold print. destruct (console _ (done_reason meta)); cbn [bind andb];
      [|reflexivity].
    destruct (console _ (prompt_eval_count meta)); reflexivity.
  - left. cbn. eauto.
Qed.

(** The exception of an attempt tells what it wrote: the attempt that
    raises [UnicodeEncodeError] could not print its status line, and has
    written its row; every other exception is one of the call or of the
    verdict, and the log is as it was. *)
Lemma attempt_exception (st : SearchState) (n : Z) (x : exn) :
  a_result (attempt st n) = Raise x ->
  (x = UnicodeEncodeError
   /\ exists row, a_log_file (attempt st n) = log_file st ++ [row]) \/
  (x <> UnicodeEncodeError /\ a_log_file (attempt st n) = log_file st).
Proof.
  unfold LimitProbeProd.attempt.
  destruct (bind _ _) as [[[[ok text] meta] raw]|e] eqn:E.
  - cbn [a_result a_log_file]. unfold print.
    destruct (console _ (done_reason meta)); cbn [bind].
    + destruct (console _ (prompt_eval_count meta)); cbn [bind];
        [discriminate|].
      intros [= <-]. left. eauto.
    + intros [= <-]. left. eauto.
  - cbn [a_result a_log_file]. intros [= ->]. right. split; [|reflexivity].
    unfold call_ollama in E.
    destruct (post _ _) as [status raw|]; cbn [bind] in E;
      [|injection E as <-; discriminate].
    destruct ((400 <=? status) && (status <? 600)); cbn [bind] in E;
      [injection E as <-; discriminate|].
    destruct (Json.loads raw) as [obj|]; cbn [bind] in E;
      [|injection E as <-; discriminate].
    destruct obj; cbn [py_get bind] in E;
      try (injection E as <-; discriminate).
    destruct (py_or _ _) as [|b|z|f|t|l|d]; cbn [py_len bind] in E;
      try (injection E as <-; discriminate);
      destruct (want_json args);
      cbn [is_json_object py_strip bind] in E;
      try discriminate E; injection E as <-; discriminate.
Qed.

(** An attempt that returns has written one row, for the length it was
    asked to try. *)
Lemma attempt_returns (st : SearchState) (n : Z) (ok : bool) (txt : pystr)
    (meta : Meta) :
  a_result (attempt st n) = Return (ok, txt, meta) ->
  exists row, a_log_file (attempt st n) = log_file st ++ [row]
              /\ row_n_chars row = n /\ row_ok row = ok.
Proof.
  intros H.
  destruct (attempt_written st n) as [(_ & _ & e & He)|
                                      (ok' & text & meta' & raw & Hl & _ & Hr)].
  - rewrite He in H. discriminate.
  - rewrite Hr in H. destruct (_ && _); [|discriminate].
    injection H as -> -> ->. rewrite Hl. eexists. split; [reflexivity|].
    now split.
Qed.

Lemma prod_loop_body_returns (st st' : SearchState) :
  loop_body st = Return st' ->
  let mid := (lo st + hi st) / 2 in
  exists ok txt meta,
    a_result (attempt st mid) = Return (ok, txt, meta) /\
    calls st' = S (calls st) /\
    log_file st' = a_log_file (attempt st mid) /\
    ((ok = true /\ lo st' = mid + 1 /\ hi st' = hi st /\
      best st' = mid /\ best_meta st' = Some meta) \/
     (ok = false /\ lo st' = lo st /\ hi st' = mid - 1 /\
      best st' = best st /\ best_meta st' = best_meta st)).
Proof.
  intros H mid. unfold LimitProbeProd.loop_body in H. fold mid in H.
  destruct (a_result (attempt st mid)) as [[[ok txt] meta]|e]; [|discriminate].
  cbn [bind] in H. injection H as <-. exists ok, txt, meta.
  split; [reflexivity|].
  destruct ok; simpl; auto 10.
Qed.

Lemma prod_loop_body_raises (st : SearchState) (e : exn) :
  loop_body st = Raise e ->
  a_result (attempt st ((lo st + hi st) / 2)) = Raise e.
Proof.
  unfold LimitProbeProd.loop_body.
  destruct (a_result _) as [[[ok txt] meta]|x]; cbn [bind]; congruence.
Qed.

Lemma prod_search_loop_exit (fuel : nat) (st : SearchState) :
  hi st - lo st <= tol -> search_loop fuel st = (LoopExit, st).
Proof.
  intros H. destruct fuel; simpl;
    destruct (Z.gtb_spec (hi st - lo st) tol); (lia || reflexivity).
Qed.

Lemma prod_search_loop_step (fuel : nat) (st : SearchState) :
  tol < hi st - lo st ->
  search_loop (S fuel) st =
  match loop_body st with
  | Return st' => search_loop fuel st'
  | Raise e => (LoopCrashed e, aborted st ((lo st + hi st) / 2))
  end.
Proof.
  intros H. simpl. destruct (Z.gtb_spec (hi st - lo st) tol); [reflexivity | lia].
Qed.

Lemma prod_search_loop_no_fuel (st : SearchState) :
  tol < hi st - lo st -> search_loop 0 st = (LoopOutOfFuel, st).
Proof.
  intros H. simpl. destruct (Z.gtb_spec (hi st - lo st) tol); [reflexivity | lia].
Qed.

Lemma prod_search_loop_invariant (P : SearchState -> Prop) :
  (forall st st', P st -> tol < hi st - lo st ->
                  loop_body st = Return st' -> P st') ->
  forall fuel st, P st ->
  match search_loop fuel st with
  | (LoopExit, st') => P st' /\ hi st' - lo st' <= tol
  | (LoopOutOfFuel, st') => P st' /\ tol < hi st' - lo st'
  | (LoopCrashed e, st') =>
      exists st'', P st'' /\ tol < hi st'' - lo st'' /\
                   loop_body st'' = Raise e /\
                   st' = aborted st'' ((lo st'' + hi st'') / 2)
  end.
Proof.
  intros Step. induction fuel as [|fuel IH]; intros st HP;
    destruct (Z.le_gt_cases (hi st - lo st) tol) as [H|H];
    try (rewrite prod_search_loop_exit by assumption; now auto).
  - rewrite prod_search_loop_no_fuel by assumption. auto.
  - rewrite prod_search_loop_step by assumption.
    destruct (loop_body st) as [st'|e] eqn:E.
    + apply IH. eapply Step; eassumption.
    + exists st. auto.
Qed.

(** Once a success is recorded, [best] is below [lo]. *)
Lemma prod_best_below (fuel : nat) (log0 : list Row) :
  -1 <= tol ->
  forall e st, search_loop fuel (initial_state log0) = (e, st) ->
  best_meta st <> None -> best st < lo st.
Proof.
  intros Htol e st Hrun.
  pose proof (prod_search_loop_invariant
    (fun s => best_meta s <> None -> best s < lo s)) as Inv.
  assert (Step : forall s s',
    (best_meta s <> None -> best s < lo s) -> tol < hi s - lo s ->
    loop_body s = Return s' -> (best_meta s' <> None -> best s' < lo s')).
  { intros s s' P G B. apply prod_loop_body_returns in B. cbv zeta in B.
    destruct B as (ok & txt & meta & _ & _ & _ &
                   [(_ & -> & _ & -> & _) | (_ & -> & _ & -> & ->)]).
    - lia.
    - exact P. }
  specialize (Inv Step fuel (initial_state log0) ltac:(simpl; congruence)).
  rewrite Hrun in Inv. destruct e.
  - apply Inv.
  - destruct Inv as (s & P & _ & _ & ->). exact P.
  - apply Inv.
Qed.

(** In [limit_probe_prod.py] the best success is only replaced by a
    success at a strictly larger length; an attempt that raises leaves it
    alone. *)
Lemma prod_best_only_grows (fuel : nat) (log0 : list Row) (st : SearchState) :
  -1 <= tol ->
  search_loop fuel (initial_state log0) = (LoopOutOfFuel, st) ->
  (forall st',
     loop_body st = Return st' ->
     exists ok txt meta,
       a_result (attempt st ((lo st + hi st) / 2)) = Return (ok, txt, meta) /\
       (ok = false -> best st' = best st /\ best_meta st' = best_meta st) /\
       (ok = true ->
        best st' = (lo st + hi st) / 2 /\
        (best_meta st <> None -> best st < best st'))) /\
  (forall ok txt meta,
     a_result (attempt st ((lo st + hi st) / 2)) = Return (ok, txt, meta) ->
     exists st', loop_body st = Return st') /\
  (forall e k,
     loop_body st = Raise e ->
     exists st', search_loop (S k) st = (LoopCrashed e, st')
                 /\ best st' = best st /\ best_meta st' = best_meta st).
Proof.
  intros Htol Hrun.
  pose proof (prod_best_below fuel log0 Htol _ _ Hrun) as P.
  pose proof (prod_search_loop_invariant (fun _ => True) ltac:(auto)
                fuel (initial_state log0) I) as G.
  rewrite Hrun in G. destruct G as [_ G].
  pose proof (mid_in_range (lo st) (hi st) ltac:(lia)) as Hm.
  split; [|split].
  - intros st' B. apply prod_loop_body_returns in B. cbv zeta in B.
    destruct B as (ok & txt & meta & Ha & _ & _ & Hbr).
    exists ok, txt, meta. split; [exact Ha|].
    destruct Hbr as [(Hs & _ & _ & Hb & _) | (Hs & _ & _ & Hb & Hbm)];
      subst ok; split; try discriminate; auto.
    intros _. split; [exact Hb|]. intros Hb'. specialize (P Hb'). lia.
  - intros ok txt meta Ha. unfold LimitProbeProd.loop_body. rewrite Ha.
    cbn [bind]. eauto.
  - intros e k B. rewrite prod_search_loop_step by assumption. rewrite B.
    eexists. split; [reflexivity|]. now split.
Qed.

(** In [limit_probe_prod.py] the one trial after the loop is at the
    full length of the transcript, wherever the loop left [hi]. *)
Lemma prod_final_check (st : SearchState) :
  match a_result (attempt st full) with
  | Raise e => final_check st = (Crashed e, aborted st full)
  | Return (ok, txt, meta) =>
      exists row st',
        final_check st =
          (match print_result args (w (calls st)) st' with
           | Return _ => Finished
           | Raise e => Crashed e
           end, st') /\
        log_file st' = log_file st ++ [row] /\
        row_n_chars row = full /\ row_ok row = ok /\
        calls st' = S (calls st) /\
        (ok = true -> best st' = full) /\
        (ok = false ->
         best st' = best st /\ best_meta st' = best_meta st)
  end.
Proof.
  unfold LimitProbeProd.final_check.
  destruct (a_result (attempt st full)) as [[[ok txt] meta]|e] eqn:Ha;
    [|reflexivity].
  destruct (attempt_returns _ _ _ _ _ Ha) as (row & Hrow & Hn & Hok).
  exists row. eexists. split; [reflexivity|].
  destruct ok; simpl; repeat split; auto; discriminate.
Qed.

(** The calls of the spot-check: one, however it ends. *)
Lemma prod_final_check_calls (st : SearchState) :
  calls (snd (final_check st)) = S (calls st).
Proof.
  unfold LimitProbeProd.final_check.
  destruct (a_result _) as [[[ok txt] meta]|e]; [destruct ok|]; reflexivity.
Qed.

(** Without a success the production variant reports a best length of 0. *)
Lemma prod_no_success (fuel : nat) (log0 : list Row) :
  forall e st, search_loop fuel (initial_state log0) = (e, st) ->
  exists rows, log_file st = log0 ++ rows /\
               (Forall (fun r => row_ok r = false) rows ->
                best st = 0 /\ best_meta st = None).
Proof.
  intros e st Hrun.
  pose proof (prod_search_loop_invariant
    (fun s => exists rows, log_file s = log0 ++ rows /\
                (Forall (fun r => row_ok r = false) rows ->
                 best s = 0 /\ best_meta s = None))) as Inv.
  assert (Step : forall s s',
    (exists rows, log_file s = log0 ++ rows /\
       (Forall (fun r => row_ok r = false) rows -> best s = 0 /\ best_meta s = None)) ->
    tol < hi s - lo s -> loop_body s = Return s' ->
    exists rows, log_file s' = log0 ++ rows /\
       (Forall (fun r => row_ok r = false) rows -> best s' = 0 /\ best_meta s' = None)).
  { intros s s' (rows & Hl & P) _ B. apply prod_loop_body_returns in B.
    cbv zeta in B. destruct B as (ok & txt & meta & Ha & _ & Hlog & Hbr).
    destruct (attempt_returns _ _ _ _ _ Ha) as (row & Hrow & _ & Hok).
    exists (rows ++ [row]). split.
    - rewrite Hlog, Hrow, Hl, <- app_assoc. reflexivity.
    - intros F. apply Forall_app in F as [F1 F2].
      inversion F2 as [|? ? Hf _]; subst.
      destruct Hbr as [(Hs & _) | (_ & _ & _ & -> & ->)]; [congruence | auto]. }
  specialize (Inv Step fuel (initial_state log0)
                ltac:(exists []; simpl; rewrite app_nil_r; auto)).
  rewrite Hrun in Inv. destruct e.
  - apply Inv.
  - destruct Inv as (s & (rows & Hl & P) & _ & _ & ->).
    cbn [LimitProbeProd.aborted log_file best best_meta].
    destruct (attempt_written s ((lo s + hi s) / 2))
      as [(E & _)|(ok & text & meta & raw & E & _)]; cbv zeta in E; rewrite E.
    + exists rows. now split.
    + eexists. split; [rewrite Hl, <- app_assoc; reflexivity|].
      intros F. apply Forall_app in F as [F _]. now apply P.
  - apply Inv.
Qed.

End ProdLoop.

Section StripPrefix.

Lemma dropwhile_app_stop (p : N -> bool) (u v : pystr) (c : N) (v' : pystr) :
  v = c :: v' -> p c = false -> dropwhile p (u ++ v) = dropwhile p u ++ v.
Proof.
  intros -> Hc. induction u as [|x u IH]; simpl.
  - now rewrite Hc.
  - destruct (p x); [exact IH | reflexivity].
Qed.

(** Stripping keeps a prefix that starts and ends with characters that are
    not white space. *)
Lemma strip_keeps_prefix (a rest : pystr) (c d : N) (a' a'' : pystr) :
  a = c :: a' -> isspace c = false ->
  rev a = d :: a'' -> isspace d = false ->
  strip (a ++ rest) = a ++ rstrip rest.
Proof.
  intros Ha Hc Hr Hd. unfold strip, lstrip.
  rewrite Ha at 1. simpl app. rewrite (dropwhile_stops _ _ _ Hc).
  change (c :: a' ++ rest) with ((c :: a') ++ rest). rewrite <- Ha.
  unfold rstrip. rewrite rev_app_distr.
  rewrite (dropwhile_app_stop _ _ _ _ _ Hr Hd).
  rewrite rev_app_distr, rev_involutive. reflexivity.
Qed.

Lemma startswith_app (a rest : pystr) : startswith (a ++ rest) a = true.
Proof.
  induction a as [|c a IH]; simpl; [reflexivity|].
  now rewrite N.eqb_refl.
Qed.

End StripPrefix.

Section TrialOutcomes.
Import LimitProbe.
Context {ucd : UnicodeData}.

Lemma extract_raw (http_text : pystr) :
  startswith (lstrip http_text) (py "{") = false \/
  Json.loads (lstrip http_text) = None ->
  exists message,
    extract_generate_fields http_text = raw_envelope message (lstrip http_text).
Proof.
  unfold extract_generate_fields, raw_envelope. intros [H|H].
  - rewrite H. cbn [negb]. eexists. reflexivity.
  - destruct (startswith _ _); cbn [negb]; [rewrite H|]; eexists; reflexivity.
Qed.

(** [run_once] on a body that is no JSON object: the text itself is
    classified, by the ordinary decision order, and the trial returns. *)
Lemma run_once_on_raw (env : environment) (status : Z) (http_text : pystr)
    url model instructions prefix want_json stream temperature
    num_ctx num_predict timeout_s :
  (forall req, net env req = Responded status http_text
               \/ net env req = RaisedHTTPError (Some status) http_text) ->
  startswith (lstrip http_text) (py "{") = false \/
  Json.loads (lstrip http_text) = None ->
  exists rr o,
    run_once env url model instructions prefix want_json stream temperature
      num_ctx num_predict timeout_s = Return rr /\
    classify_outcome (PStr (lstrip http_text)) want_json (PStr (py "unknown"))
      = Return o /\
    outcome rr = o /\ http_status rr = status.
Proof.
  intros Hnet Hraw. unfold run_once, post_ollama.
  match goal with |- context [net env ?r] => destruct (Hnet r) as [-> | ->] end;
    cbn [bind];
    destruct (extract_raw _ Hraw) as [message ->];
    destruct (classify_outcome_cases (lstrip http_text) want_json
                (PStr (py "unknown"))) as (o & Ho & _);
    unfold raw_envelope; cbn [py_get bind];
    change (dict_get _ (py "_raw") (PStr [])) with (PStr (lstrip http_text));
    change (dict_get _ (py "response") (PStr (lstrip http_text)))
      with (PStr (lstrip http_text));
    change (dict_get _ (py "done_reason") (PStr (py "unknown")))
      with (PStr (py "unknown"));
    rewrite Ho; cbn [bind py_strip py_or truthy py_len];
    destruct (lstrip http_text); cbn [bind py_or truthy py_len];
    do 2 eexists; repeat split; reflexivity.
Qed.

(** [run_once] when the call raised anything but an [HTTPError]: the trial
    returns, classified ERROR, with status 0. *)
Lemma run_once_on_exception (env : environment) (type_name message : pystr)
    url model instructions prefix want_json stream temperature
    num_ctx num_predict timeout_s :
  (forall req, net env req = RaisedException type_name message) ->
  exists rr,
    run_once env url model instructions prefix want_json stream temperature
      num_ctx num_predict timeout_s = Return rr /\
    outcome rr = ERROR /\ http_status rr = 0.
Proof.
  intros Hnet. unfold run_once, post_ollama. rewrite Hnet. cbn [bind].
  set (rest := py " " ++ type_name ++ py ": " ++ message).
  set (text := EXCEPTION_MARKER ++ rest).
  assert (Hl : lstrip text = text) by reflexivity.
  destruct (extract_raw text) as [msg Hx].
  { left. rewrite Hl. reflexivity. }
  rewrite Hx, Hl. unfold raw_envelope. cbn [py_get bind].
  change (dict_get _ (py "_raw") (PStr [])) with (PStr text).
  change (dict_get _ (py "response") (PStr text)) with (PStr text).
  change (dict_get _ (py "done_reason") (PStr (py "unknown")))
    with (PStr (py "unknown")).
  destruct (classify_outcome_cases text want_json (PStr (py "unknown")))
    as (o & Ho & Herr & _).
  assert (o = ERROR) as ->.
  { apply Herr. unfold text.
    rewrite (strip_keeps_prefix EXCEPTION_MARKER rest 95 95
               (tl EXCEPTION_MARKER) (tl (rev EXCEPTION_MARKER)))
      by reflexivity.
    apply startswith_app. }
  rewrite Ho. cbn [bind py_strip py_or truthy py_len].
  destruct text; cbn [bind py_or truthy py_len];
    eexists; repeat split; reflexivity.
Qed.

(** [run_once] when the envelope holds anything but a string under
    [response]: [classify_outcome] raises, and nothing catches it. *)
Lemma run_once_on_non_string (env : environment) (status : Z)
    (http_text : pystr) (items : list (pystr * pyval))
    url model instructions prefix want_json stream temperature
    num_ctx num_predict timeout_s :
  (forall req, net env req = Responded status http_text) ->
  extract_generate_fields http_text = PDict items ->
  (forall s, dict_get items (py "response")
               (dict_get items (py "_raw") (PStr [])) <> PStr s) ->
  run_once env url model instructions prefix want_json stream temperature
    num_ctx num_predict timeout_s = Raise AttributeError.
Proof.
  intros Hnet Hx Hns. unfold run_once, post_ollama. rewrite Hnet.
  cbn [bind]. rewrite Hx. cbn [py_get bind].
  destruct (dict_get items (py "response") _) as [| | | |s| |];
    try reflexivity.
  now elim (Hns s).
Qed.

End TrialOutcomes.

Section BothVariants.
Context {ucd : UnicodeData}.
Variable args : P.Args.
Variable transcript : pystr.
Variable instructions : pystr.
Variable w : world.
Variable qargs : Q.Args.
Variable qtranscript : pystr.
Variable SYSTEM_RULES : pystr.
Variable qw : Q.world.

Notation p_trial := (P.trial args transcript instructions w).
Notation p_loop := (P.search_loop args transcript instructions w).
Notation p_body := (P.loop_body args transcript instructions w).
Notation p_main := (P.main args transcript instructions w).
Notation p_start := (P.initial_state args transcript).
Notation q_attempt := (Q.attempt qargs qtranscript SYSTEM_RULES qw).
Notation q_loop := (Q.search_loop qargs qtranscript SYSTEM_RULES qw).
Notation q_body := (Q.loop_body qargs qtranscript SYSTEM_RULES qw).
Notation q_final := (Q.final_check qargs qtranscript SYSTEM_RULES qw).
Notation q_aborted := (Q.aborted qargs qtranscript SYSTEM_RULES qw).
Notation q_main := (Q.main qargs qtranscript SYSTEM_RULES qw).
Notation q_start := (Q.initial_state qargs qtranscript).

(** C1.  In both variants the loop runs while [hi - lo > tolerance].  An
    iteration tries the length [mid = floor((lo + hi) / 2)]: the trial is
    run on the first [mid] characters of the transcript.  When the outcome
    is a success the trial becomes the best success and [lo] becomes
    [mid + 1]; otherwise [hi] becomes [mid - 1]; nothing else of the
    interval changes.  That is the iteration of a trial that returns and
    whose status line and log line can be written; a trial that raises, or
    that cannot be reported, ends the loop with the bounds and the best
    success as they were. *)
Theorem search_loop_iteration (fuel : nat) (st : P.SearchState)
    (qst : Q.SearchState) :
  (let mid := (P.lo st + P.hi st) / 2 in
   (P.hi st - P.lo st <= P.tolerance args -> p_loop fuel st = (P.LoopExit, st)) /\
   (P.tolerance args < P.hi st - P.lo st ->
    2 * mid <= P.lo st + P.hi st < 2 * mid + 2 /\
    (forall e, p_trial st mid = Raise e ->
       p_loop (S fuel) st = (P.LoopCrashed e, P.aborted st)) /\
    forall rr, p_trial st mid = Return rr ->
      P.n_chars rr = len (slice_to transcript mid) /\
      (P.reported w st rr = true ->
       p_loop (S fuel) st =
       p_loop fuel
         (if is_success (P.outcome rr)
          then {| P.lo := mid + 1; P.hi := P.hi st; P.best_ok := Some rr;
                  P.log_file := P.logged w st rr; P.calls := S (P.calls st) |}
          else {| P.lo := P.lo st; P.hi := mid - 1; P.best_ok := P.best_ok st;
                  P.log_file := P.logged w st rr; P.calls := S (P.calls st) |})) /\
      (P.reported w st rr = false ->
       p_loop (S fuel) st = (P.LoopCrashed UnicodeEncodeError, P.aborted st))))
  /\
  (let mid := (Q.lo qst + Q.hi qst) / 2 in
   (Q.hi qst - Q.lo qst <= Q.tolerance qargs -> q_loop fuel qst = (Q.LoopExit, qst)) /\
   (Q.tolerance qargs < Q.hi qst - Q.lo qst ->
    (forall e, Q.a_result (q_attempt qst mid) = Raise e ->
       q_loop (S fuel) qst = (Q.LoopCrashed e, q_aborted qst mid)) /\
    forall ok txt meta,
      Q.a_result (q_attempt qst mid) = Return (ok, txt, meta) ->
      (exists row, Q.a_log_file (q_attempt qst mid) = Q.log_file qst ++ [row]
                   /\ Q.row_n_chars row = mid /\ Q.row_ok row = ok) /\
      q_loop (S fuel) qst =
      q_loop fuel
        (if ok
         then {| Q.lo := mid + 1; Q.hi := Q.hi qst; Q.best := mid;
                 Q.best_meta := Some meta;
                 Q.best_preview := slice_to txt 300;
                 Q.log_file := Q.a_log_file (q_attempt qst mid);
                 Q.dumps := Q.a_dumps (q_attempt qst mid);
                 Q.calls := S (Q.calls qst) |}
         else {| Q.lo := Q.lo qst; Q.hi := mid - 1; Q.best := Q.best qst;
                 Q.best_meta := Q.best_meta qst;
                 Q.best_preview := Q.best_preview qst;
                 Q.log_file := Q.a_log_file (q_attempt qst mid);
                 Q.dumps := Q.a_dumps (q_attempt qst mid);
                 Q.calls := S (Q.calls qst) |}))).
Proof.
  split; intros mid; (split; [intros H | intros H]).
  - now apply search_loop_exit.
  - split; [apply mid_is_floor|]. split.
    + intros e Ht. rewrite search_loop_step by assumption.
      rewrite loop_body_cases. cbv zeta. fold mid. now rewrite Ht.
    + intros rr Ht. split; [|split].
      * unfold P.trial, P.trial_at in Ht. now apply run_once_fields in Ht.
      * intros Hr. rewrite search_loop_step by assumption.
        rewrite loop_body_cases. cbv zeta. fold mid. now rewrite Ht, Hr.
      * intros Hr. rewrite search_loop_step by assumption.
        rewrite loop_body_cases. cbv zeta. fold mid. now rewrite Ht, Hr.
  - now apply prod_search_loop_exit.
  - split.
    + intros e Ha. rewrite prod_search_loop_step by assumption.
      unfold Q.loop_body. fold mid. now rewrite Ha.
    + intros ok txt meta Ha. split.
      * exact (attempt_returns _ _ _ _ _ _ _ _ _ Ha).
      * rewrite prod_search_loop_step by assumption.
        unfold Q.loop_body. fold mid. rewrite Ha. reflexivity.
Qed.

(** C8, as the code has it.  Provided the tolerance is at least -1, during
    the search loop of either variant an iteration that fails leaves the
    best success as it is, and one that succeeds replaces it; when there
    was a best success already, the new one is strictly longer.  An
    iteration that raises ends the loop and leaves the best success as it
    is.  (The states [st] are those at the head of the loop after any
    number of iterations; an iteration changes the state when its trial
    returns and can be reported.) *)
Theorem best_success_only_grows (fuel : nat) (log0 : list P.LogLine)
    (qlog0 : list Q.Row) :
  (-1 <= P.tolerance args ->
   forall st,
     p_loop fuel (p_start log0) = (P.LoopOutOfFuel, st) ->
     (forall st',
        p_body st = Return st' ->
        exists rr,
          p_trial st ((P.lo st + P.hi st) / 2) = Return rr /\
          P.n_chars rr = (P.lo st + P.hi st) / 2 /\
          (is_success (P.outcome rr) = false -> P.best_ok st' = P.best_ok st) /\
          (is_success (P.outcome rr) = true ->
           P.best_ok st' = Some rr /\
           forall b, P.best_ok st = Some b -> P.n_chars b < P.n_chars rr)) /\
     (forall rr,
        p_trial st ((P.lo st + P.hi st) / 2) = Return rr ->
        P.reported w st rr = true ->
        exists st', p_body st = Return st') /\
     (forall e k,
        p_body st = Raise e ->
        exists st', p_loop (S k) st = (P.LoopCrashed e, st')
                    /\ P.best_ok st' = P.best_ok st))
  /\
  (-1 <= Q.tolerance qargs ->
   forall qst,
     q_loop fuel (q_start qlog0) = (Q.LoopOutOfFuel, qst) ->
     (forall qst',
        q_body qst = Return qst' ->
        exists ok txt meta,
          Q.a_result (q_attempt qst ((Q.lo qst + Q.hi qst) / 2))
          = Return (ok, txt, meta) /\
          (ok = false ->
           Q.best qst' = Q.best qst /\ Q.best_meta qst' = Q.best_meta qst) /\
          (ok = true ->
           Q.best qst' = (Q.lo qst + Q.hi qst) / 2 /\
           (Q.best_meta qst <> None -> Q.best qst < Q.best qst'))) /\
     (forall ok txt meta,
        Q.a_result (q_attempt qst ((Q.lo qst + Q.hi qst) / 2))
        = Return (ok, txt, meta) ->
        exists qst', q_body qst = Return qst') /\
     (forall e k,
        q_body qst = Raise e ->
        exists qst', q_loop (S k) qst = (Q.LoopCrashed e, qst')
                     /\ Q.best qst' = Q.best qst
                     /\ Q.best_meta qst' = Q.best_meta qst)).
Proof.
  split; intros Htol.
  - intros st. now apply probe_best_only_grows.
  - intros qst. now apply prod_best_only_grows.
Qed.

(** C4, as the code has it.  [limit_probe.py]: a run that prints a result
    has made, after the loop stopped, exactly one more trial, at length
    [max(1, min(hi, full_len))]; if it succeeded its length is the
    boundary reported, with its preview; otherwise the best success is
    reported when there is one: the one [best_ok] holds, which is the last
    success the log of this run has a line of and, the tolerance being at
    least -1, no shorter than any other; and if no trial of the run
    succeeded the report is that no successful size was found, which is how
    a run in which every trial fails (every response empty, say) and can be
    printed and logged ends.  [limit_probe_prod.py]: the one trial after
    the loop is at the full length of the transcript, whatever [hi] is; if
    it succeeds the full length is reported, otherwise the best so far,
    which is 0 when no trial succeeded. *)
Theorem final_check_and_report (fuel : nat) (log0 : list P.LogLine)
    (qlog0 : list Q.Row) :
  (forall r st, p_main fuel log0 = (P.Finished r, st) ->
     exists records last,
       P.log_file st = log0 ++ records ++ [last] /\
       P.calls st = S (List.length records) /\
       Forall (P.from_loop args) records /\
       P.hi st - P.lo st <= P.tolerance args /\
       P.l_search_lo last = P.lo st /\ P.l_search_hi last = P.hi st /\
       P.l_n_chars last = Z.max 1 (Z.min (P.hi st) (P.full_len transcript)) /\
       match r with
       | P.MaxGood n preview =>
           is_success (P.l_outcome last) = true /\ n = P.l_n_chars last /\
           preview = P.l_preview last
       | P.MaxGoodEarlier best n o =>
           P.failed last /\ n = P.l_n_chars last /\ o = P.l_outcome last /\
           P.best_ok st = Some best /\
           P.last_success records best /\
           (-1 <= P.tolerance args ->
            Forall (fun l => is_success (P.l_outcome l) = true ->
                             P.l_n_chars l <= P.n_chars best) records)
       | P.NoSuccessfulSize rr =>
           P.best_ok st = None /\ Forall P.failed (records ++ [last]) /\
           P.l_outcome last = P.outcome rr /\
           P.l_preview last = P.response_preview rr
       end)
  /\
  (P.lo (p_start log0) < P.hi (p_start log0) -> -1 <= P.tolerance args ->
   P.console_takes_all w ->
   P.lines_encode args transcript instructions w ->
   (forall i n, exists rr, P.trial_at args transcript instructions w i n = Return rr
                           /\ is_success (P.outcome rr) = false) ->
   exists enough, forall more, (enough <= more)%nat ->
     exists rr st,
       P.main args transcript instructions w more log0
       = (P.Finished (P.NoSuccessfulSize rr), st))
  /\
  (forall qst qst', q_loop fuel (q_start qlog0) = (Q.LoopExit, qst) ->
     q_main fuel qlog0 = (Q.Finished, qst') ->
     exists ok txt meta rows row,
       Q.a_result (q_attempt qst (Q.full_len qtranscript))
       = Return (ok, txt, meta) /\
       Q.log_file qst = qlog0 ++ rows /\
       Q.log_file qst' = qlog0 ++ rows ++ [row] /\
       Q.row_n_chars row = Q.full_len qtranscript /\
       Q.row_ok row = ok /\
       (ok = true -> Q.best qst' = Q.full_len qtranscript) /\
       (ok = false -> Q.best qst' = Q.best qst) /\
       (Forall (fun r => Q.row_ok r = false) (rows ++ [row]) -> Q.best qst' = 0)).
Proof.
  split; [|split].
  - intros r st. apply probe_final_report.
  - apply probe_no_success.
  - intros qst qst' Hloop Hmain. unfold Q.main in Hmain. rewrite Hloop in Hmain.
    pose proof (prod_final_check qargs qtranscript SYSTEM_RULES qw qst) as F.
    destruct (Q.a_result (q_attempt qst (Q.full_len qtranscript)))
      as [[[ok txt] meta]|e] eqn:Ha.
    2: { rewrite F in Hmain. discriminate. }
    destruct F as (row & st' & Hf & Hlog & Hn & Hok & _ & Hs & Hfail).
    rewrite Hf in Hmain. injection Hmain as _ <-.
    destruct (prod_no_success qargs qtranscript SYSTEM_RULES qw fuel qlog0 _ _ Hloop)
      as (rows & Hrows & Hzero).
    exists ok, txt, meta, rows, row. repeat split; auto.
    + rewrite Hlog, Hrows, <- app_assoc. reflexivity.
    + now apply Hfail.
    + intros F. apply Forall_app in F as [F1 F2].
      inversion F2 as [|? ? Hrow _]; subst.
      destruct (Hfail ltac:(congruence)) as [-> _]. now apply Hzero.
Qed.

(** C5, as the code has it.  [limit_probe.py]: an exception of the HTTP
    call other than an [HTTPError] (no connection, a timeout) is captured;
    the trial returns with status 0 and outcome ERROR, and, its status line
    and its log line written, the loop goes on with [hi = mid - 1].
    [limit_probe_prod.py] captures nothing: a failed request, a 4xx or 5xx
    status and a body that is not JSON each raise out of the attempt, and
    an attempt that raises ends the run. *)
Theorem trial_failures (fuel : nat) (st : P.SearchState) (qst : Q.SearchState) :
  (forall type_name message,
     (forall req, net (w (P.calls st)) req = RaisedException type_name message) ->
     P.tolerance args < P.hi st - P.lo st ->
     exists rr,
       p_trial st ((P.lo st + P.hi st) / 2) = Return rr /\
       P.outcome rr = ERROR /\ P.http_status rr = 0 /\
       (P.reported w st rr = true ->
        exists st',
          p_body st = Return st' /\
          P.hi st' = (P.lo st + P.hi st) / 2 - 1 /\ P.lo st' = P.lo st /\
          P.best_ok st' = P.best_ok st /\
          p_loop (S fuel) st = p_loop fuel st') /\
       (P.reported w st rr = false ->
        p_loop (S fuel) st = (P.LoopCrashed UnicodeEncodeError, P.aborted st)))
  /\
  (forall n,
     ((forall req, Q.post (qw (Q.calls qst)) req = Q.PostRaised) ->
      Q.a_result (q_attempt qst n) = Raise RequestException) /\
     (forall status text,
        (forall req, Q.post (qw (Q.calls qst)) req = Q.Response status text) ->
        (400 <= status < 600 ->
         Q.a_result (q_attempt qst n) = Raise HTTPStatusError) /\
        (~ 400 <= status < 600 -> Json.loads text = None ->
         Q.a_result (q_attempt qst n) = Raise JSONDecodeError)))
  /\
  (forall e,
     Q.tolerance qargs < Q.hi qst - Q.lo qst ->
     Q.a_result (q_attempt qst ((Q.lo qst + Q.hi qst) / 2)) = Raise e ->
     q_loop (S fuel) qst
     = (Q.LoopCrashed e, q_aborted qst ((Q.lo qst + Q.hi qst) / 2)))
  /\
  (forall e, Q.a_result (q_attempt qst (Q.full_len qtranscript)) = Raise e ->
             q_final qst = (Q.Crashed e, q_aborted qst (Q.full_len qtranscript))).
Proof.
  split; [|split; [|split]].
  - intros type_name message Hnet G.
    destruct (run_once_on_exception (w (P.calls st)) type_name message
      (P.url args) (P.model args) instructions
      (slice_to transcript ((P.lo st + P.hi st) / 2)) (P.want_json args) false
      (P.temperature args) (P.num_ctx args) (P.num_predict args)
      (P.timeout args) Hnet) as (rr & Hr & Ho & Hs).
    change (p_trial st ((P.lo st + P.hi st) / 2) = Return rr) in Hr.
    exists rr. split; [exact Hr|]. split; [exact Ho|]. split; [exact Hs|].
    split; intros Hrep; rewrite search_loop_step by assumption;
      rewrite loop_body_cases; cbv zeta; rewrite Hr, Hrep, ?Ho; cbn [is_success].
    + eexists. split; [reflexivity|]. now repeat split.
    + reflexivity.
  - intros n. split.
    + intros Hnet. unfold Q.attempt, Q.call_ollama. now rewrite Hnet.
    + intros status text Hnet. split.
      * intros Hs. unfold Q.attempt, Q.call_ollama. rewrite Hnet.
        destruct (Z.leb_spec 400 status), (Z.ltb_spec status 600); try lia.
        reflexivity.
      * intros Hs Hl. unfold Q.attempt, Q.call_ollama. rewrite Hnet, Hl.
        destruct (Z.leb_spec 400 status), (Z.ltb_spec status 600); try lia;
          reflexivity.
  - intros e G Ha. rewrite prod_search_loop_step by assumption.
    unfold Q.loop_body. now rewrite Ha.
  - intros e Ha. unfold Q.final_check. now rewrite Ha.
Qed.

End BothVariants.

Section TrialReturns.
Import LimitProbe.
Context {ucd : UnicodeData}.

(** [run_once] when the envelope holds a string under [response] (or, that
    key being absent, under [_raw], or under neither): the trial returns,
    with the outcome of that string. *)
Lemma run_once_on_string (env : environment) (status : Z)
    (http_text : pystr) (items : list (pystr * pyval)) (s : pystr)
    url model instructions prefix want_json stream temperature
    num_ctx num_predict timeout_s :
  (forall req, net env req = Responded status http_text) ->
  extract_generate_fields http_text = PDict items ->
  dict_get items (py "response") (dict_get items (py "_raw") (PStr [])) = PStr s ->
  exists rr o,
    run_once env url model instructions prefix want_json stream temperature
      num_ctx num_predict timeout_s = Return rr /\
    classify_outcome (PStr s) want_json
      (dict_get items (py "done_reason") (PStr (py "unknown"))) = Return o /\
    outcome rr = o /\ raw_response_len rr = len s.
Proof.
  intros Hnet Hx Hs. unfold run_once, post_ollama. rewrite Hnet.
  cbn [bind]. rewrite Hx. cbn [py_get bind]. rewrite Hs.
  destruct (classify_outcome_cases s want_json
              (dict_get items (py "done_reason") (PStr (py "unknown"))))
    as (o & Ho & _).
  rewrite Ho. cbn [bind py_strip].
  destruct s; cbn [bind py_or truthy py_len];
    do 2 eexists; repeat split; reflexivity.
Qed.

(** The same, with every field of the result. *)
Lemma run_once_record (env : environment) (status : Z)
    (http_text : pystr) (items : list (pystr * pyval)) (s : pystr)
    url model instructions prefix want_json stream temperature
    num_ctx num_predict timeout_s :
  (forall req, net env req = Responded status http_text) ->
  extract_generate_fields http_text = PDict items ->
  dict_get items (py "response") (dict_get items (py "_raw") (PStr [])) = PStr s ->
  exists o,
    classify_outcome (PStr s) want_json
      (dict_get items (py "done_reason") (PStr (py "unknown"))) = Return o /\
    run_once env url model instructions prefix want_json stream temperature
      num_ctx num_predict timeout_s
    = Return {|
        n_chars := len prefix;
        elapsed_s := elapsed env;
        http_status := status;
        done_reason := dict_get items (py "done_reason") (PStr (py "unknown"));
        eval_count := dict_get items (py "eval_count") PNone;
        prompt_eval_count := dict_get items (py "prompt_eval_count") PNone;
        total_duration := dict_get items (py "total_duration") PNone;
        raw_response_len := len s;
        outcome := o;
        response_preview :=
          if len (escape_newlines (strip s)) >? 220
          then firstn 220 (escape_newlines (strip s)) ++ [8230%N]
          else escape_newlines (strip s)
      |}.
Proof.
  intros Hnet Hx Hs. unfold run_once, post_ollama. rewrite Hnet.
  cbn [bind]. rewrite Hx. cbn [py_get bind]. rewrite Hs.
  destruct (classify_outcome_cases s want_json
              (dict_get items (py "done_reason") (PStr (py "unknown"))))
    as (o & Ho & _).
  rewrite Ho. cbn [bind py_strip]. exists o. split; [reflexivity|].
  destruct s; cbn [bind py_or truthy py_len]; reflexivity.
Qed.

(** C10, where the code breaks it.  An envelope whose [response] is [null]
    makes [run_once] raise [AttributeError], whatever the rest of the call
    is: [classify_outcome] asks [None] for [strip]. *)
Theorem null_response_raises (status : Z) (took : pyfloat) (ts : pystr)
    (shown : pyval -> bool)
    url model instructions prefix want_json stream temperature
    num_ctx num_predict timeout_s :
  run_once
    {| net := fun _ => Responded status (jq "{'response': null}");
       elapsed := took; now := ts; console := shown |}
    url model instructions prefix want_json stream temperature
    num_ctx num_predict timeout_s
  = Raise AttributeError.
Proof.
  apply (run_once_on_non_string _ status (jq "{'response': null}")
           [(py "response", PNone)]).
  - reflexivity.
  - now vm_compute.
  - intros s. now vm_compute.
Qed.

End TrialReturns.

(* ------------------------------------------------------------------ *)
(** ** Concrete runs                                                   *)
(* ------------------------------------------------------------------ *)

Section ConcreteRuns.
Import Runs.

Local Notation p_loop := (P.search_loop (ucd := ascii_ucd)).
Local Notation p_main := (P.main (ucd := ascii_ucd)).
Local Notation p_body := (P.loop_body (ucd := ascii_ucd)).
Local Notation p_trial := (P.trial (ucd := ascii_ucd)).

(** C6 as stated fails for a tolerance of 0: a transcript of two
    characters, every response empty.  The configuration passes the check
    ([lo = 1 < hi = 2]); the one trial, at length 1, fails, and the search
    goes on with [lo = 1 > hi = 0]. *)
Lemma interval_invariant_counterexample :
  let args := probe_args false 1 0 in
  let st0 := P.initial_state args (py "ab") [] in
  let r := p_loop args (py "ab") instructions (answers "{'response': ''}") 5 st0 in
  (P.lo st0 = 1 /\ P.hi st0 = 2) /\
  fst r = P.LoopExit /\ P.calls (snd r) = 1%nat /\
  P.lo (snd r) = 1 /\ P.hi (snd r) = 0 /\ P.hi (snd r) < P.lo (snd r).
Proof. now vm_compute. Qed.

(** C7 as stated fails when [hi - lo] is well below the tolerance: for
    [lo = 2000], [hi = 2100] and the default tolerance of 500 the bound of
    the claim is -1, and the loop makes 0 trials. *)
Lemma trial_count_counterexample :
  let args := probe_args false 2000 500 in
  let transcript := repeat 120%N 2100 in
  let st0 := P.initial_state args transcript [] in
  let r := p_loop args transcript instructions (answers "{'response': 'ok'}") 5 st0 in
  (P.lo st0 = 2000 /\ P.hi st0 = 2100) /\
  Spec.trial_bound 2000 2100 500 = -1 /\
  fst r = P.LoopExit /\ P.calls (snd r) = 0%nat /\
  (Z.of_nat (P.calls (snd r)) <=? Spec.trial_bound 2000 2100 500) = false.
Proof. now vm_compute. Qed.

(** C8 as stated fails for a tolerance of -2: a transcript of two
    characters, every trial a success.  After two iterations the best
    success has length 2 and [lo = 3 > hi = 2]; the loop still runs, tries
    length 2 again, and replaces the best success by a trial of the same
    length. *)
Lemma best_success_counterexample :
  let args := probe_args false 1 (-2) in
  let w := answers "{'response': 'fine'}" in
  let r2 := p_loop args (py "ab") instructions w 2
              (P.initial_state args (py "ab") []) in
  let st2 := snd r2 in
  fst r2 = P.LoopOutOfFuel /\
  (P.lo st2 = 3 /\ P.hi st2 = 2 /\ P.calls st2 = 2%nat) /\
  option_map P.n_chars (P.best_ok st2) = Some 2 /\
  exists rr st3,
    p_trial args (py "ab") instructions w st2 ((P.lo st2 + P.hi st2) / 2)
      = Return rr /\
    is_success (P.outcome rr) = true /\ P.n_chars rr = 2 /\
    p_body args (py "ab") instructions w st2 = Return st3 /\
    P.best_ok st3 = Some rr.
Proof.
  repeat (split; [now vm_compute|]).
  do 2 eexists. repeat split; vm_compute; reflexivity.
Qed.

End ConcreteRuns.

Section ConcreteRuns2.
Import Runs.

Local Notation p_loop := (P.search_loop (ucd := ascii_ucd)).
Local Notation p_main := (P.main (ucd := ascii_ucd)).
Local Notation p_body := (P.loop_body (ucd := ascii_ucd)).
Local Notation p_trial := (P.trial (ucd := ascii_ucd)).
Local Notation q_loop := Q.search_loop.
Local Notation q_main := Q.main.

(** C4 as stated fails in [limit_probe_prod.py]: a transcript of four
    characters, every response empty.  The loop stops with [hi = 1], for
    which the claim's final length is [max(1, min(1, 4)) = 1]; the final
    trial is at length 4, and the result printed is a best length of 0. *)
Lemma final_check_counterexample :
  let args := prod_args false 1 0 in
  let w := prod_always (Q.Response 200 (jq "{'response': ''}")) in
  let r := q_main args (py "abcd") system_rules w 5 [] in
  fst r = Q.Finished /\
  map Q.row_n_chars (Q.log_file (snd r)) = [2; 4] /\
  Q.hi (snd r) = 1 /\
  Z.max 1 (Z.min (Q.hi (snd r)) (Q.full_len (py "abcd"))) = 1 /\
  Q.best (snd r) = 0.
Proof. now vm_compute. Qed.

(** C5 as stated fails in [limit_probe_prod.py]: a request that fails
    ends the run with the exception, after one call and with nothing
    logged. *)
Lemma trial_failures_counterexample :
  let args := prod_args false 1 0 in
  let r := q_main args (py "abcd") system_rules (prod_always Q.PostRaised) 5 [] in
  fst r = Q.Crashed RequestException /\
  Q.calls (snd r) = 1%nat /\ Q.log_file (snd r) = [].
Proof. now vm_compute. Qed.

(** C1 at a concrete state: [lo = 1], [hi = 4], tolerance 0, a trial that
    succeeds at [mid = 2]. *)
Lemma search_loop_iteration_witness :
  let args := probe_args false 1 0 in
  let w := answers "{'response': 'fine'}" in
  let st0 := P.initial_state args (py "abcd") [] in
  exists rr,
    p_trial args (py "abcd") instructions w st0 2 = Return rr /\
    is_success (P.outcome rr) = true /\
    P.reported w st0 rr = true /\
    p_loop args (py "abcd") instructions w 1 st0 =
    p_loop args (py "abcd") instructions w 0
      {| P.lo := 3; P.hi := 4; P.best_ok := Some rr;
         P.log_file := P.logged w st0 rr; P.calls := 1 |}.
Proof.
  intros args w st0.
  destruct (p_trial args (py "abcd") instructions w st0 2) as [rr|e] eqn:T;
    [|now vm_compute in T].
  exists rr. split; [reflexivity|].
  assert (S : is_success (P.outcome rr) = true)
    by (vm_compute in T; injection T as <-; reflexivity).
  assert (R : P.reported w st0 rr = true)
    by (vm_compute in T; injection T as <-; reflexivity).
  split; [exact S|]. split; [exact R|].
  destruct (search_loop_iteration (ucd := ascii_ucd) args (py "abcd")
              instructions w (prod_args false 1 0) (py "abcd") system_rules
              (prod_always Q.PostRaised) 0 st0
              (Q.initial_state (prod_args false 1 0) (py "abcd") []))
    as [[_ H] _].
  destruct (H ltac:(now vm_compute)) as (_ & _ & H2).
  destruct (H2 rr T) as (_ & Heq & _). specialize (Heq R).
  rewrite S in Heq. exact Heq.
Defined.

(** Every trial of a service that always sends the same envelope can be
    logged when that envelope holds no surrogate. *)
Lemma answers_lines_encode (body : string) (items : list (pystr * pyval))
    (s : pystr) (args : P.Args) (transcript : pystr) :
  P.extract_generate_fields (jq body) = PDict items ->
  dict_get items (py "response") (dict_get items (py "_raw") (PStr [])) = PStr s ->
  utf8_ok (dict_get items (py "done_reason") (PStr (py "unknown"))) = true ->
  utf8_ok (dict_get items (py "eval_count") PNone) = true ->
  utf8_ok (dict_get items (py "prompt_eval_count") PNone) = true ->
  utf8_ok (dict_get items (py "total_duration") PNone) = true ->
  encodes (if len (escape_newlines (strip s)) >? 220
           then firstn 220 (escape_newlines (strip s)) ++ [8230%N]
           else escape_newlines (strip s)) = true ->
  P.lines_encode (ucd := ascii_ucd) args transcript instructions (answers body).
Proof.
  intros Hx Hs H1 H2 H3 H4 H5 i n rr lo hi Hr.
  destruct (run_once_record (ucd := ascii_ucd) (answers body i) 200 (jq body)
              items s (P.url args) (P.model args) instructions
              (slice_to transcript n) (P.want_json args) false
              (P.temperature args) (P.num_ctx args) (P.num_predict args)
              (P.timeout args) ltac:(reflexivity) Hx Hs) as (o & _ & Hrec).
  set (preview := if _ >? 220 then _ else _) in *. clearbody preview.
  unfold P.trial_at in Hr. rewrite Hrec in Hr. injection Hr as <-.
  rewrite line_encodes_log_line.
  unfold P.done_reason, P.eval_count, P.prompt_eval_count, P.total_duration,
    P.response_preview.
  cbv beta iota. now rewrite H1, H2, H3, H4, H5.
Qed.

(** C4 at a concrete run of [limit_probe.py]: every response is an empty
    string, and the run ends in the report that no size succeeded. *)
Lemma final_check_and_report_witness :
  let args := probe_args false 1 0 in
  exists enough, forall more, (enough <= more)%nat ->
    exists rr st,
      p_main args (py "abcd") instructions (answers "{'response': ''}") more []
      = (P.Finished (P.NoSuccessfulSize rr), st).
Proof.
  intros args.
  refine (proj1 (proj2 (final_check_and_report (ucd := ascii_ucd) args (py "abcd")
            instructions (answers "{'response': ''}") (prod_args false 1 0)
            (py "abcd") system_rules (prod_always Q.PostRaised) 0 [] []))
            _ _ _ _ _).
  - now vm_compute.
  - now vm_compute.
  - intros i v. reflexivity.
  - apply (answers_lines_encode "{'response': ''}" [(py "response", PStr [])] []);
      reflexivity.
  - intros i n.
    destruct (run_once_on_string (ucd := ascii_ucd)
                (answers "{'response': ''}" i) 200 (jq "{'response': ''}")
                [(py "response", PStr [])] []
                (P.url args) (P.model args) instructions
                (slice_to (py "abcd") n) (P.want_json args) false
                (P.temperature args) (P.num_ctx args) (P.num_predict args)
                (P.timeout args))
      as (rr & o & Hr & Ho & Hout & _); try reflexivity.
    exists rr. split; [exact Hr|]. rewrite Hout.
    vm_compute in Ho. now injection Ho as <-.
Defined.

(** C5 at a concrete state: the connection is refused. *)
Lemma trial_failures_witness :
  let args := probe_args false 1 0 in
  let w := always (RaisedException (py "URLError") (py "refused")) in
  let st0 := P.initial_state args (py "abcd") [] in
  exists rr st',
    p_trial args (py "abcd") instructions w st0 ((P.lo st0 + P.hi st0) / 2)
      = Return rr /\
    P.outcome rr = ERROR /\ P.http_status rr = 0 /\
    P.reported w st0 rr = true /\
    p_body args (py "abcd") instructions w st0 = Return st' /\
    P.hi st' = (P.lo st0 + P.hi st0) / 2 - 1 /\ P.lo st' = P.lo st0 /\
    p_loop args (py "abcd") instructions w 1 st0
    = p_loop args (py "abcd") instructions w 0 st'.
Proof.
  intros args w st0.
  destruct (proj1 (trial_failures (ucd := ascii_ucd) args (py "abcd")
              instructions w (prod_args false 1 0) (py "abcd") system_rules
              (prod_always Q.PostRaised) 0 st0
              (Q.initial_state (prod_args false 1 0) (py "abcd") []))
              (py "URLError") (py "refused") ltac:(reflexivity)
              ltac:(now vm_compute))
    as (rr & Hr & Ho & Hs & Hyes & _).
  assert (R : P.reported w st0 rr = true)
    by (vm_compute in Hr; injection Hr as <-; reflexivity).
  destruct (Hyes R) as (st' & Hb & Hhi & Hlo & _ & Hloop).
  exists rr, st'. repeat split; assumption.
Defined.

(** C6 at a concrete run: tolerance 0, a transcript of two characters. *)
Lemma search_interval_invariant_witness :
  let args := probe_args false 1 0 in
  let w := answers "{'response': ''}" in
  let r := p_loop args (py "ab") instructions w 5
             (P.initial_state args (py "ab") []) in
  P.lo (snd r) <= P.hi (snd r) + 1 /\
  (P.tolerance args < P.hi (snd r) - P.lo (snd r) -> P.lo (snd r) <= P.hi (snd r)) /\
  (1 <= P.tolerance args -> P.lo (snd r) <= P.hi (snd r)) /\
  (fst r = P.LoopExit <-> P.hi (snd r) - P.lo (snd r) <= P.tolerance args).
Proof.
  intros args w r.
  refine (proj1 (proj2 (search_interval_invariant (ucd := ascii_ucd) args
            (py "ab") instructions w []) _ _) 5%nat (fst r) (snd r) _).
  - now vm_compute.
  - now vm_compute.
  - apply surjective_pairing.
Defined.

(** C7 at a concrete state: [lo = 1], [hi = 16], tolerance 0; the bound
    is 5. *)
Lemma search_trial_count_witness :
  let args := probe_args false 1 0 in
  let transcript := py "0123456789abcdef" in
  let w := answers "{'response': 'fine'}" in
  let st0 := P.initial_state args transcript [] in
  Spec.trial_bound (P.lo st0) (P.hi st0) 0 = 5 /\
  Z.of_nat (P.calls (snd (p_loop args transcript instructions w 9 st0))
            - P.calls st0) <= Z.max 0 (Spec.trial_bound (P.lo st0) (P.hi st0) 0).
Proof.
  intros args transcript w st0. split; [now vm_compute|].
  refine (proj1 (search_trial_count (ucd := ascii_ucd) args transcript
                   instructions w st0 _ _) 9%nat); now vm_compute.
Defined.

(** C8 at a concrete state: after a success at length 2, a success at
    length 3 replaces it. *)
Lemma best_success_only_grows_witness :
  let args := probe_args false 1 0 in
  let w := answers "{'response': 'fine'}" in
  let r1 := p_loop args (py "abcd") instructions w 1
              (P.initial_state args (py "abcd") []) in
  exists rr st',
    p_trial args (py "abcd") instructions w (snd r1) 3 = Return rr /\
    p_body args (py "abcd") instructions w (snd r1) = Return st' /\
    P.n_chars rr = 3 /\
    P.best_ok st' = Some rr /\
    forall b, P.best_ok (snd r1) = Some b -> P.n_chars b < P.n_chars rr.
Proof.
  intros args w r1.
  destruct (proj1 (best_success_only_grows (ucd := ascii_ucd) args (py "abcd")
              instructions w (prod_args false 1 0) (py "abcd") system_rules
              (prod_always Q.PostRaised) 1 [] [])
              ltac:(now vm_compute) (snd r1) ltac:(now vm_compute))
    as (Hgrow & Hgo & _).
  destruct (p_trial args (py "abcd") instructions w (snd r1) 3) as [rr|e] eqn:T;
    [|now vm_compute in T].
  assert (S : is_success (P.outcome rr) = true)
    by (vm_compute in T; injection T as <-; reflexivity).
  assert (R : P.reported w (snd r1) rr = true)
    by (vm_compute in T; injection T as <-; reflexivity).
  destruct (Hgo rr T R) as (st' & Hb).
  destruct (Hgrow st' Hb) as (rr' & T' & Hn & _ & Hs).
  change ((P.lo (snd r1) + P.hi (snd r1)) / 2) with 3 in T', Hn.
  rewrite T in T'. injection T' as <-.
  destruct (Hs S) as [Hbest Hlt].
  exists rr, st'. repeat split; assumption.
Defined.

(** C9, where the code breaks it.  The service answers every call with a
    response that is one lone surrogate (the JSON escape of U+D83D, which
    the decoder takes).  The first trial, at length 2, returns, classified
    OK_TEXT, with the surrogate as its preview; [write_log_line] raises
    [UnicodeEncodeError] on it, and the run ends there: one call was made,
    and the log is as it was. *)
Theorem lone_surrogate_not_logged (fuel : nat) (log0 : list P.LogLine) :
  let args := probe_args false 1 0 in
  let w := answers "{'response': '\ud83d'}" in
  (exists rr,
     P.trial_at (ucd := ascii_ucd) args (py "abcd") instructions w 0 2
       = Return rr /\
     P.outcome rr = OK_TEXT /\ P.response_preview rr = [55357%N] /\
     P.write_log_line log0 (now (w 0%nat)) rr 1 4 = Raise UnicodeEncodeError) /\
  p_main args (py "abcd") instructions w (S fuel) log0
  = (P.Crashed UnicodeEncodeError,
     {| P.lo := 1; P.hi := 4; P.best_ok := None;
        P.log_file := log0; P.calls := 1 |}).
Proof.
  intros args w. split.
  - eexists. split; [now vm_compute|]. now repeat split.
  - now vm_compute.
Qed.

(** The log at a concrete run: three trials, three lines, the first of
    which was there after the first iteration. *)
Lemma log_holds_reported_trials_witness :
  let args := probe_args false 1 0 in
  let w := answers "{'response': 'fine'}" in
  let st := snd (p_main args (py "abcd") instructions w 5 []) in
  let st1 := snd (p_loop args (py "abcd") instructions w 1
                    (P.initial_state args (py "abcd") [])) in
  P.calls st = 3%nat /\ P.calls st1 = 1%nat /\
  (exists records,
     P.log_file st = ([] ++ records)%list /\
     (List.length records <= P.calls st <= S (List.length records))%nat /\
     List.length records = P.calls st /\
     P.records_ok (ucd := ascii_ucd) args (py "abcd") instructions w 0 records) /\
  exists more, P.log_file st = (P.log_file st1 ++ more)%list.
Proof.
  intros args w st st1.
  destruct (log_holds_reported_trials (ucd := ascii_ucd) args (py "abcd")
              instructions w 5 []) as [H1 H2].
  split; [now vm_compute|]. split; [now vm_compute|]. split.
  { destruct H1 as (records & A & B & C & D & _).
    exists records. split; [exact A|]. split; [exact B|].
    split; [exact C|exact D]. }
  apply (H2 1%nat st1).
  - now vm_compute.
  - reflexivity.
  - lia.
  - now vm_compute.
Defined.

End ConcreteRuns2.

(* ------------------------------------------------------------------ *)
(** ** Further properties                                              *)
(* ------------------------------------------------------------------ *)

Section Further.
Import Runs.
Context {ucd : UnicodeData}.

(** A trial returns exactly when what the envelope holds under [response]
    (or, that key being absent, the raw text or the empty string that
    stand in) is a string. *)
Theorem run_once_returns_iff (env : environment) (status : Z)
    (http_text : pystr) (items : list (pystr * pyval))
    url model instructions prefix want_json stream temperature
    num_ctx num_predict timeout_s :
  (forall req, net env req = Responded status http_text) ->
  P.extract_generate_fields http_text = PDict items ->
  ((exists rr,
      P.run_once env url model instructions prefix want_json stream
        temperature num_ctx num_predict timeout_s = Return rr)
   <->
   exists s, dict_get items (py "response")
               (dict_get items (py "_raw") (PStr [])) = PStr s).
Proof.
  intros Hnet Hx. split.
  - intros [rr Hr].
    destruct (dict_get items (py "response") (dict_get items (py "_raw") (PStr [])))
      as [| | | |s| |] eqn:E; eauto;
      rewrite (run_once_on_non_string env status http_text items url model
                 instructions prefix want_json stream temperature num_ctx
                 num_predict timeout_s Hnet Hx) in Hr;
      try discriminate; intros s; rewrite E; discriminate.
  - intros [s Hs].
    destruct (run_once_on_string env status http_text items s url model
                instructions prefix want_json stream temperature num_ctx
                num_predict timeout_s Hnet Hx Hs) as (rr & _ & Hr & _).
    eauto.
Qed.

End Further.

Section Scenarios.
Import Runs.

Lemma run_once_returns_iff_witness :
  exists s, dict_get [(py "response", PStr (py "fine"))] (py "response")
              (dict_get [(py "response", PStr (py "fine"))] (py "_raw") (PStr []))
            = PStr s.
Proof.
  refine (proj1 (run_once_returns_iff (ucd := ascii_ucd)
            (answers "{'response': 'fine'}" 0%nat) 200
            (jq "{'response': 'fine'}") [(py "response", PStr (py "fine"))]
            [] [] [] [] false false (Float []) 0 0 0 _ _) _).
  - reflexivity.
  - now vm_compute.
  - eexists. now vm_compute.
Defined.

(** The boundary scenario of the specification: a transcript of 10,000
    characters, [min_chars = 2000], a tolerance of 500, success up to 6,000
    characters and truncation above.  The run makes four trials and the
    final check, which fails at 6,499; the boundary reported is the earlier
    success at 6,000, within [5500, 6500]. *)
Lemma boundary_scenario :
  let r := P.main (ucd := ascii_ucd) (probe_args false 2000 500)
             (repeat 120%N 10000) instructions (cuts_above 6000) 10 [] in
  P.calls (snd r) = 5%nat /\
  map P.l_n_chars (P.log_file (snd r)) = [6000; 8000; 7000; 6500; 6499] /\
  map P.l_outcome (P.log_file (snd r))
    = [OK_TEXT; TRUNCATED; TRUNCATED; TRUNCATED; TRUNCATED] /\
  match fst r with
  | P.Finished (P.MaxGoodEarlier best final_n last) =>
      P.n_chars best = 6000 /\ final_n = 6499 /\ last = TRUNCATED
  | _ => False
  end.
Proof. now vm_compute. Qed.

End Scenarios.

Import Trace.

(* ------------------------------------------------------------------ *)
(** ** The range check, the lengths tried and the intervals logged     *)
(* ------------------------------------------------------------------ *)

Section ProbeTrace.
Import LimitProbe.
Context {ucd : UnicodeData}.
Variable args : Args.
Variable transcript : pystr.
Variable instructions : pystr.
Variable w : world.

Notation tol := (tolerance args).
Notation full := (full_len transcript).
Notation lo0 := (initial_lo args transcript).
Notation hi0 := (initial_hi args transcript).
Notation trial := (trial args transcript instructions w).
Notation loop_body := (loop_body args transcript instructions w).
Notation search_loop := (search_loop args transcript instructions w).
Notation final_check := (final_check args transcript instructions w).
Notation main := (main args transcript instructions w).
Notation initial_state := (initial_state args transcript).
Notation line_in_range := (line_in_range args transcript).
Notation trace_inv := (trace_inv args transcript).

(** [main] never ends in [BadRange] once the range check has passed. *)
Lemma main_past_range_check (fuel : nat) (log0 : list LogLine) :
  lo0 < hi0 -> forall l h f, fst (main fuel log0) <> BadRange l h f.
Proof.
  intros Hr l h f. rewrite main_cases. cbn [lo hi LimitProbe.initial_state].
  destruct (Z.geb_spec lo0 hi0) as [Hge|_]; [lia|].
  destruct (console _ _); [|discriminate].
  destruct (search_loop fuel (initial_state log0)) as [[| e |] st]; cbn [fst];
    try discriminate.
  rewrite final_check_cases. cbv zeta.
  destruct (trial st _) as [rr|e]; [destruct (LimitProbe.reported w st rr)|];
    cbn [fst]; try discriminate.
  destruct (print_report _ _ _); discriminate.
Qed.

(** The run is refused, before any HTTP call and with the log untouched,
    exactly when the transcript or a given [max_chars] does not exceed
    [max(1, min_chars)]. *)
Theorem probe_range_check (fuel : nat) (log0 : list LogLine) :
  let floor := Z.max 1 (min_chars args) in
  let refused :=
    full <= floor \/ (max_chars args <> 0 /\ max_chars args <= floor) in
  (refused ->
   main fuel log0 = (BadRange lo0 hi0 full, initial_state log0)
   /\ calls (snd (main fuel log0)) = 0%nat
   /\ log_file (snd (main fuel log0)) = log0)
  /\ (~ refused -> forall l h f, fst (main fuel log0) <> BadRange l h f).
Proof.
  intros floor refused. subst floor refused.
  assert (Hiff : hi0 <= lo0 <->
                 full <= Z.max 1 (min_chars args)
                 \/ (max_chars args <> 0
                     /\ max_chars args <= Z.max 1 (min_chars args))).
  { unfold LimitProbe.initial_lo, LimitProbe.initial_hi.
    destruct (Z.eqb_spec (max_chars args) 0); lia. }
  split.
  - intros H. apply Hiff in H.
    assert (E : main fuel log0 = (BadRange lo0 hi0 full, initial_state log0)).
    { rewrite main_cases. cbn [lo hi LimitProbe.initial_state].
      destruct (Z.geb_spec lo0 hi0) as [_|Hlt]; [reflexivity|lia]. }
    rewrite E. now repeat split.
  - intros H. apply main_past_range_check.
    destruct (Z.lt_ge_cases lo0 hi0) as [Hlt|Hge]; [exact Hlt|].
    elim H. apply Hiff. lia.
Qed.

(** A chain stays one when the interval of its last line is narrowed. *)
Lemma interval_chain_snoc (records : list LogLine) (a b : LogLine) :
  interval_chain (records ++ [a]) ->
  narrows a (l_search_lo b) (l_search_hi b) ->
  interval_chain (records ++ [a; b]).
Proof.
  induction records as [|r rs IH]; cbn [app interval_chain].
  - intros _ H. now repeat split.
  - intros [H1 H2] H. split; [|now apply IH].
    destruct rs; exact H1.
Qed.

Lemma trace_inv_initial (log0 : list LogLine) :
  lo0 < hi0 -> trace_inv log0 (initial_state log0).
Proof.
  intros Hr. unfold Trace.trace_inv. cbn [lo hi log_file LimitProbe.initial_state].
  repeat split; try lia.
  exists []. rewrite app_nil_r.
  split; [reflexivity|]. split; [constructor|]. split; [exact I|].
  intros cur _ _. cbn. now split.
Qed.

Lemma trace_inv_step (log0 : list LogLine) (st st' : SearchState) :
  -1 <= tol ->
  trace_inv log0 st -> tol < hi st - lo st -> loop_body st = Return st' ->
  trace_inv log0 st'.
Proof.
  intros Ht (Hlo & Hhi & Hle & records & Hlog & Hall & _ & Hchain) Hgo Hbody.
  pose proof (initial_lo_positive args transcript) as Hpos.
  pose proof (initial_hi_within args transcript) as Hfull.
  destruct (loop_body_returns _ _ _ _ _ _ Hbody) as (rr & Htrial & _ & Hlog' & Hcase).
  pose proof (mid_in_range (lo st) (hi st) ltac:(lia)) as Hmid.
  assert (Hn : n_chars rr = (lo st + hi st) / 2).
  { apply (trial_n_chars _ _ _ _ _ _ _ Htrial). lia. }
  set (line := log_line (now (w (calls st))) rr (lo st) (hi st)).
  assert (Hlog'' : log_file st' = log0 ++ (records ++ [line])).
  { rewrite Hlog'. unfold LimitProbe.logged. rewrite Hlog.
    now rewrite app_assoc. }
  assert (Hline : line_in_range line).
  { unfold Trace.line_in_range, from_loop. cbn. rewrite Hn. lia. }
  assert (Hnew : forall cur, narrows line (l_search_lo cur) (l_search_hi cur) ->
                             interval_chain ((records ++ [line]) ++ [cur])).
  { intros cur Hc. rewrite <- app_assoc. cbn [app].
    apply interval_chain_snoc; [|exact Hc]. now apply Hchain. }
  unfold Trace.trace_inv.
  destruct Hcase as [(_ & El & Eh & _)|(_ & El & Eh & _)]; rewrite El, Eh;
    (split; [lia|]; split; [lia|]; split; [lia|]);
    exists (records ++ [line]);
    (split; [exact Hlog''|];
     split; [apply Forall_app; split; [exact Hall|now constructor]|];
     split; [now apply Hchain|]);
    intros cur Hcl Hch; apply Hnew; unfold narrows; cbn; lia.
Qed.

(** The log of a run, whatever its ending. *)
Lemma main_trace (fuel : nat) (log0 : list LogLine) :
  -1 <= tol ->
  exists records,
    log_file (snd (main fuel log0)) = log0 ++ records /\
    Forall line_in_range records /\
    interval_chain records.
Proof.
  intros Ht.
  pose proof (initial_lo_positive args transcript) as Hpos.
  pose proof (initial_hi_within args transcript) as Hfull.
  rewrite main_cases. cbn [lo hi LimitProbe.initial_state].
  destruct (Z.geb_spec lo0 hi0) as [Hge|Hlt].
  { exists []. cbn. rewrite app_nil_r. now repeat split. }
  destruct (console _ _).
  2: { exists []. cbn. rewrite app_nil_r. now repeat split. }
  pose proof (search_loop_invariant args transcript instructions w
                (trace_inv log0)
                (fun st st' => trace_inv_step log0 st st' Ht)
                fuel (initial_state log0) (trace_inv_initial log0 Hlt)) as H.
  destruct (search_loop fuel (initial_state log0)) as [[| e |] st].
  - destruct H as ((Hlo & Hhi & Hle & records & Hlog & Hall & Hch & Hchain) & Hexit).
    rewrite final_check_cases. cbv zeta.
    destruct (trial st _) as [rr|e] eqn:Htrial; cbn [snd].
    2: { exists records. cbn. now repeat split. }
    destruct (LimitProbe.reported w st rr); cbn [snd].
    + assert (Hn : n_chars rr = Z.max 1 (Z.min (hi st) full)).
      { apply (trial_n_chars _ _ _ _ _ _ _ Htrial). lia. }
      set (last := log_line (now (w (calls st))) rr (lo st) (hi st)).
      exists (records ++ [last]). cbn [log_file].
      split; [|split].
      * unfold LimitProbe.logged. rewrite Hlog. now rewrite app_assoc.
      * apply Forall_app. split; [exact Hall|]. constructor; [|constructor].
        unfold Trace.line_in_range, from_loop. cbn. rewrite Hn. lia.
      * now apply Hchain.
    + exists records. cbn. now repeat split.
  - destruct H as (st'' & (_ & _ & _ & records & Hlog & Hall & Hch & _) & _ & _ & ->).
    exists records. cbn. now repeat split.
  - destruct H as ((_ & _ & _ & records & Hlog & Hall & Hch & _) & _).
    exists records. cbn. now repeat split.
Qed.

(** With a tolerance of at least -1, every trial of a run is made on at
    least one character of the transcript and on no more than the upper end
    of the range.  A trial of the loop has a length within the interval its
    line records, hence within the range; the final check can fall one
    character short of the lower end of the range, not more. *)
Theorem trial_lengths_in_range (fuel : nat) (log0 : list LogLine) :
  -1 <= tol ->
  exists records,
    log_file (snd (main fuel log0)) = log0 ++ records /\
    Forall (fun l =>
              Z.max 1 (lo0 - 1) <= l_n_chars l <= hi0 /\
              (from_loop args l ->
               lo0 <= l_search_lo l /\
               l_search_lo l <= l_n_chars l <= l_search_hi l /\
               l_search_hi l <= hi0)) records.
Proof.
  intros Ht. destruct (main_trace fuel log0 Ht) as (records & Hlog & Hall & _).
  exists records. split; [exact Hlog|].
  eapply Forall_impl; [|exact Hall].
  intros l (H1 & H2 & H3 & H4 & H5). split; [exact H4|].
  intros Hl. specialize (H5 Hl). lia.
Qed.

(** With a tolerance of at least -1, the intervals the lines of a run
    record lie within the initial range and narrow strictly from each line
    to the next: one end moves inward and the other stays. *)
Theorem log_intervals_narrow (fuel : nat) (log0 : list LogLine) :
  -1 <= tol ->
  exists records,
    log_file (snd (main fuel log0)) = log0 ++ records /\
    interval_chain records /\
    Forall (fun l => lo0 <= l_search_lo l /\ l_search_hi l <= hi0
                     /\ l_search_lo l <= l_search_hi l + 1) records.
Proof.
  intros Ht. destruct (main_trace fuel log0 Ht) as (records & Hlog & Hall & Hch).
  exists records. split; [exact Hlog|]. split; [exact Hch|].
  eapply Forall_impl; [|exact Hall].
  intros l (H1 & H2 & H3 & _). now repeat split.
Qed.

End ProbeTrace.

Import Trace.

(* ------------------------------------------------------------------ *)
(** ** How close the reported boundary is to a sharp limit             *)
(* ------------------------------------------------------------------ *)

Section ProbeAccuracy.
Import LimitProbe.
Context {ucd : UnicodeData}.
Variable args : Args.
Variable transcript : pystr.
Variable instructions : pystr.
Variable w : world.

Notation tol := (tolerance args).
Notation full := (full_len transcript).
Notation lo0 := (initial_lo args transcript).
Notation hi0 := (initial_hi args transcript).
Notation trial := (trial args transcript instructions w).
Notation loop_body := (loop_body args transcript instructions w).
Notation search_loop := (search_loop args transcript instructions w).
Notation final_check := (final_check args transcript instructions w).
Notation main := (main args transcript instructions w).
Notation initial_state := (initial_state args transcript).
Notation sharp_limit := (sharp_limit args transcript instructions w).

(** Under a sharp limit the interval keeps the limit between [lo - 1] and
    [hi], and the best success is the trial at [lo - 1]. *)
Lemma sharp_limit_step (limit : Z) (st st' : SearchState) :
  -1 <= tol -> sharp_limit limit ->
  let inv := fun st : SearchState =>
    lo0 <= lo st /\ hi st <= hi0 /\ lo st <= hi st + 1 /\
    Z.min limit hi0 <= hi st /\
    match best_ok st with
    | Some b => n_chars b = lo st - 1 /\ lo0 <= n_chars b <= limit
    | None => lo st = lo0
    end in
  inv st -> tol < hi st - lo st -> loop_body st = Return st' -> inv st'.
Proof.
  intros Ht Hsharp inv (Hlo & Hhi & Hle & Hlim & Hbest) Hgo Hbody.
  pose proof (initial_lo_positive args transcript) as Hpos.
  pose proof (initial_hi_within args transcript) as Hfull.
  destruct (loop_body_returns _ _ _ _ _ _ Hbody) as (rr & Htrial & _ & _ & Hcase).
  pose proof (mid_in_range (lo st) (hi st) ltac:(lia)) as Hmid.
  assert (Hn : n_chars rr = (lo st + hi st) / 2).
  { apply (trial_n_chars _ _ _ _ _ _ _ Htrial). lia. }
  destruct (Hsharp (calls st) ((lo st + hi st) / 2) ltac:(lia))
    as (rr' & Htrial' & Hok).
  unfold LimitProbe.trial in Htrial. rewrite Htrial in Htrial'.
  injection Htrial' as <-.
  unfold inv.
  destruct Hcase as [(Hs & El & Eh & Eb)|(Hs & El & Eh & Eb)];
    rewrite El, Eh, Eb.
  - apply Hok in Hs. repeat split; lia.
  - assert (~ (lo st + hi st) / 2 <= limit).
    { intros Hc. apply Hok in Hc. congruence. }
    repeat split; try lia. exact Hbest.
Qed.

(** Under a sharp limit, with a tolerance of at least -1, a console that
    takes what is printed and trials whose log lines can be encoded, a run
    that passes the range check finishes, and what it reports brackets the
    limit:
    - a final check that succeeds was made at the limit itself, or at the
      upper end of the range when the limit lies beyond it;
    - otherwise the best success reported is at most the limit and at most
      [tolerance] below it, the final check having failed just above;
    - no success at all is reported only when the limit is below
      [max(1, lo + tolerance)], [lo] being the lower end of the range. *)
Theorem probe_accuracy (limit : Z) (log0 : list LogLine) :
  lo0 < hi0 -> -1 <= tol -> sharp_limit limit ->
  console_takes_all w ->
  lines_encode args transcript instructions w ->
  exists enough, forall fuel, (enough <= fuel)%nat ->
    exists r st,
      main fuel log0 = (Finished r, st) /\
      match r with
      | MaxGood n _ => n = Z.min limit hi0
      | MaxGoodEarlier best n _ =>
          lo0 <= n_chars best <= limit /\ limit < n /\ n - n_chars best <= tol + 1
      | NoSuccessfulSize _ => limit < Z.max 1 (lo0 + tol)
      end.
Proof.
  intros Hr Ht Hsharp Hcon Henc.
  pose proof (initial_lo_positive args transcript) as Hpos.
  pose proof (initial_hi_within args transcript) as Hfull.
  assert (Hrep : forall s n rr,
            P.trial_at args transcript instructions w (calls s) n = Return rr ->
            LimitProbe.reported w s rr = true).
  { intros s n rr Hrr. unfold LimitProbe.reported. rewrite Hcon.
    now rewrite (Henc _ _ _ (lo s) (hi s) Hrr). }
  exists (Z.to_nat (hi0 - lo0 + 1)). intros fuel Hfuel.
  pose proof (search_loop_potential args transcript instructions w
                (Z.to_nat (hi0 - lo0 + 1)) fuel (initial_state log0) Ht
                (potential_exists args (initial_state log0) Ht)) as [_ Hnofuel].
  specialize (Hnofuel Hfuel).
  pose proof (search_loop_invariant args transcript instructions w _
                (fun st st' => sharp_limit_step limit st st' Ht Hsharp)
                fuel (initial_state log0)) as H.
  cbn beta in H.
  specialize (H ltac:(cbn; repeat split; lia)).
  rewrite main_cases. cbn [lo hi LimitProbe.initial_state].
  destruct (Z.geb_spec lo0 hi0) as [Hge|_]; [lia|].
  rewrite Hcon.
  destruct (search_loop fuel (initial_state log0)) as [[| e |] st].
  - destruct H as ((Hlo & Hhi & Hle & Hlim & Hbest) & Hexit).
    rewrite final_check_cases. cbv zeta.
    destruct (Hsharp (calls st) (Z.max 1 (Z.min (hi st) full)) ltac:(lia))
      as (rr & Htrial & Hok).
    unfold LimitProbe.trial. rewrite Htrial, (Hrep st _ rr Htrial).
    unfold print_report, print. rewrite !Hcon. cbn [bind].
    eexists. eexists. split; [reflexivity|].
    destruct (is_success (outcome rr)) eqn:Hs.
    + pose proof (proj1 Hok eq_refl). lia.
    + assert (~ Z.max 1 (Z.min (hi st) full) <= limit).
      { intros Hc. apply Hok in Hc. discriminate. }
      destruct (best_ok st) as [b|]; lia.
  - destruct H as (st'' & (Hlo & Hhi & Hle & _) & Hgo & Hraise & _).
    apply loop_body_raises in Hraise.
    pose proof (mid_in_range (lo st'') (hi st'') ltac:(lia)) as Hmid.
    destruct (Hsharp (calls st'') ((lo st'' + hi st'') / 2) ltac:(lia))
      as (rr & Htrial & _).
    unfold LimitProbe.trial in Hraise.
    destruct Hraise as [Hraise|(rr' & Hraise & Hno & _)]; [congruence|].
    rewrite (Hrep st'' _ rr' Hraise) in Hno. discriminate.
  - now elim Hnofuel.
Qed.

End ProbeAccuracy.

Import ProdTrace.

(* ------------------------------------------------------------------ *)
(** ** Runs of [limit_probe_prod.py]                                   *)
(* ------------------------------------------------------------------ *)

Section EscapedText.

Lemma escape_newlines_no_line_feed (s : pystr) :
  ~ In 10%N (escape_newlines s).
Proof.
  induction s as [|c s IH]; cbn [escape_newlines]; [easy|].
  destruct (N.eqb_spec c 10) as [->|Hc]; cbn [In]; intros H.
  - destruct H as [H|[H|H]]; [discriminate|discriminate|tauto].
  - destruct H as [H|H]; [congruence|tauto].
Qed.

Lemma escape_newlines_length (s : pystr) :
  len s <= len (escape_newlines s) <= 2 * len s.
Proof.
  unfold len. induction s as [|c s IH]; cbn [escape_newlines]; [simpl; lia|].
  destruct (N.eqb c 10); cbn [List.length]; lia.
Qed.

Lemma len_slice_to_bound (s : pystr) (n : Z) : 0 <= n -> len (slice_to s n) <= n.
Proof.
  intros Hn. unfold slice_to, len. destruct (Z.ltb_spec n 0); [lia|].
  pose proof (firstn_le_length (Z.to_nat n) s). lia.
Qed.

End EscapedText.

Section ProdRun.
Import LimitProbeProd.
Variable args : Args.
Variable transcript : pystr.
Variable SYSTEM_RULES : pystr.
Variable w : world.

Notation tol := (tolerance args).
Notation attempt := (attempt args transcript SYSTEM_RULES w).
Notation loop_body := (loop_body args transcript SYSTEM_RULES w).
Notation search_loop := (search_loop args transcript SYSTEM_RULES w).
Notation final_check := (final_check args transcript SYSTEM_RULES w).
Notation main := (main args transcript SYSTEM_RULES w).
Notation initial_state := (initial_state args transcript).
Notation full := (full_len transcript).
Notation sharp_limit := (sharp_limit args transcript SYSTEM_RULES w).

(** A row whose preview is a single line of at most 240 characters. *)
Notation one_line r :=
  (~ In 10%N (row_resp_head r) /\ len (row_resp_head r) <= 240).

Lemma dumped_snoc (rows : list Row) (r : Row) :
  dumped (rows ++ [r])
  = if row_ok r then dumped rows
    else file_set (row_n_chars r) (row_key r) (dumped rows).
Proof. unfold dumped. now rewrite fold_left_app. Qed.

Lemma dump_keys_file_set (n : Z) (d : Dump) (files : list (Z * Dump)) :
  dump_keys (file_set n d files) = file_set n (dump_key d) (dump_keys files).
Proof.
  unfold dump_keys. induction files as [|[n' d'] files IH]; [reflexivity|].
  cbn [file_set map fst snd]. destruct (n' =? n); cbn [map fst snd];
    [reflexivity|]. now rewrite IH.
Qed.

(** How the two kinds of file stand after an attempt, whether it returned
    or raised. *)
Lemma attempt_files (log0 : list Row) (st : SearchState) (n : Z)
    (rows : list Row) :
  log_file st = log0 ++ rows ->
  Forall (fun r => one_line r) rows ->
  dump_keys (dumps st) = dumped rows ->
  exists rows',
    a_log_file (attempt st n) = log0 ++ rows' /\
    Forall (fun r => one_line r) rows' /\
    dump_keys (a_dumps (attempt st n)) = dumped rows' /\
    ((rows' = rows /\
      exists e, a_result (attempt st n) = Raise e /\ e <> UnicodeEncodeError) \/
     (exists row, rows' = rows ++ [row] /\ row_n_chars row = n /\
        forall x, a_result (attempt st n) = Raise x -> x = UnicodeEncodeError)).
Proof.
  intros Hlog Hall Hd.
  assert (Hne : forall row : Row, log_file st ++ [row] <> log_file st).
  { intros row H. apply (f_equal (@List.length Row)) in H.
    rewrite length_app in H. cbn in H. lia. }
  destruct (attempt_written args transcript SYSTEM_RULES w st n)
    as [(El & Ed & e & He)|(ok & text & meta & raw & El & Ed & _)];
    cbv zeta in El, Ed.
  - exists rows. rewrite El, Ed. repeat split; auto. left. split; [reflexivity|].
    exists e. split; [exact He|].
    destruct (attempt_exception args transcript SYSTEM_RULES w st n _ He)
      as [(_ & row & Hrow)|(Hx & _)]; [|exact Hx].
    rewrite El in Hrow. symmetry in Hrow. now apply Hne in Hrow.
  - eexists. split; [rewrite El, Hlog, <- app_assoc; reflexivity|].
    split; [|split].
    + apply Forall_app. split; [exact Hall|]. constructor; [|constructor].
      cbn [row_resp_head]. split; [apply escape_newlines_no_line_feed|].
      pose proof (escape_newlines_length (slice_to text 120)).
      pose proof (len_slice_to_bound text 120 ltac:(lia)). lia.
    + rewrite Ed, dumped_snoc. cbn [row_ok row_n_chars].
      destruct ok; [exact Hd|]. rewrite dump_keys_file_set, Hd. reflexivity.
    + right. eexists. split; [reflexivity|]. split; [reflexivity|].
      intros x Hx.
      destruct (attempt_exception args transcript SYSTEM_RULES w st n _ Hx)
        as [(Hu & _)|(_ & Hsame)]; [exact Hu|].
      rewrite El in Hsame. now apply Hne in Hsame.
Qed.

Lemma files_inv_step (log0 : list Row) (st st' : SearchState) :
  files_inv log0 st -> loop_body st = Return st' -> files_inv log0 st'.
Proof.
  intros (rows & Hlog & Hlen & Hall & Hd) Hbody.
  destruct (attempt_files log0 st ((lo st + hi st) / 2) rows Hlog Hall Hd)
    as (rows' & Hl & Ha & Hdm & Hcase).
  unfold LimitProbeProd.loop_body in Hbody.
  destruct (a_result (attempt st _)) as [[[ok txt] meta]|e] eqn:Hr;
    [|discriminate].
  destruct Hcase as [(_ & e & He & _)|(row & -> & _)]; [congruence|].
  cbn [bind] in Hbody. injection Hbody as <-.
  exists (rows ++ [row]).
  destruct ok; cbn [log_file dumps calls];
    (split; [exact Hl|]; split; [rewrite length_app; cbn; lia|];
     split; [exact Ha|exact Hdm]).
Qed.

(** The lines of the result that cannot be printed raise
    [UnicodeEncodeError]. *)
Lemma print_result_raises (env : environment) (st : SearchState) (x : exn) :
  print_result args env st = Raise x -> x = UnicodeEncodeError.
Proof.
  unfold print_result, print.
  destruct (best_meta st) as [meta|];
    repeat match goal with
           | |- context [console env ?v] =>
               destruct (console env v); cbn [bind]
           end;
    intros H; try discriminate H; now injection H as <-.
Qed.

(** In every run of [limit_probe_prod.py], however it ends, the log is
    what it was followed by one row per attempt that got as far as its
    row: as many rows as calls, or one fewer.  A run that ended in an
    exception has as many rows as calls exactly when the exception is the
    [UnicodeEncodeError] of a line that could not be printed: the attempt
    whose status line was refused had written its row, and an attempt
    whose call or verdict raised has written none.  Every preview in a row
    is a single line of at most 240 characters.  The dump files the run
    has written are those of the rows that are not [ok], one per length, a
    later one in place of an earlier one of the same length, each with the
    length and the [meta] of its row. *)
Theorem prod_rows_and_dumps (fuel : nat) (log0 : list Row) :
  let e := fst (main fuel log0) in
  let st := snd (main fuel log0) in
  exists rows,
    log_file st = log0 ++ rows /\
    (List.length rows <= calls st <= S (List.length rows))%nat /\
    match e with
    | Crashed x => List.length rows = calls st <-> x = UnicodeEncodeError
    | _ => List.length rows = calls st
    end /\
    Forall (fun r => ~ In 10%N (row_resp_head r)
                     /\ len (row_resp_head r) <= 240) rows /\
    dump_keys (dumps st) = dumped rows.
Proof.
  cbv zeta. unfold LimitProbeProd.main.
  pose proof (prod_search_loop_invariant args transcript SYSTEM_RULES w
                (files_inv log0)
                (fun st st' H _ => files_inv_step log0 st st' H)
                fuel (initial_state log0)) as H.
  specialize (H ltac:(exists []; cbn; rewrite app_nil_r; repeat split; constructor)).
  assert (Hraised : forall (st : SearchState) (n : Z) (rows : list Row)
                           (e : exn),
            log_file st = log0 ++ rows ->
            List.length rows = calls st ->
            Forall (fun r => one_line r) rows ->
            dump_keys (dumps st) = dumped rows ->
            a_result (attempt st n) = Raise e ->
            exists rows',
              a_log_file (attempt st n) = log0 ++ rows' /\
              (List.length rows' <= S (calls st) <= S (List.length rows'))%nat /\
              (List.length rows' = S (calls st) <-> e = UnicodeEncodeError) /\
              Forall (fun r => one_line r) rows' /\
              dump_keys (a_dumps (attempt st n)) = dumped rows').
  { intros st n rows e Hlog Hlen Hall Hd Hr.
    destruct (attempt_files log0 st n rows Hlog Hall Hd)
      as (rows' & Hl & Ha & Hdm & Hcase).
    exists rows'. split; [exact Hl|].
    destruct Hcase as [(-> & e' & He' & Hne)|(row & -> & _ & Hu)].
    - rewrite Hr in He'. injection He' as <-.
      split; [lia|]. split; [|now split]. split; [lia|]. intros ->. now elim Hne.
    - rewrite length_app. cbn [List.length].
      split; [lia|]. split; [|now split]. split; [intros _; now apply Hu|lia]. }
  destruct (search_loop fuel (initial_state log0)) as [[| e |] st].
  - destruct H as ((rows & Hlog & Hlen & Hall & Hd) & _).
    unfold LimitProbeProd.final_check.
    destruct (a_result (attempt st full)) as [[[ok txt] meta]|e] eqn:Hr.
    + destruct (attempt_files log0 st full rows Hlog Hall Hd)
        as (rows' & Hl & Ha & Hdm & Hcase).
      destruct Hcase as [(_ & e & He & _)|(row & -> & _)]; [congruence|].
      exists (rows ++ [row]).
      destruct ok; cbn [fst snd log_file dumps calls]; rewrite length_app;
        cbn [List.length];
        (split; [exact Hl|]; split; [lia|];
         split; [|split; [exact Ha|exact Hdm]];
         destruct (print_result _ _ _) as [|x] eqn:Hp; [lia|];
         split; [intros _; exact (print_result_raises _ _ _ Hp)|lia]).
    + destruct (Hraised st full rows e Hlog Hlen Hall Hd Hr)
        as (rows' & Hl & Hb & Hiff & Ha & Hdm).
      exists rows'. cbn [fst snd LimitProbeProd.aborted log_file dumps calls].
      repeat split; try assumption; try lia; apply Hiff.
  - destruct H as (st'' & (rows & Hlog & Hlen & Hall & Hd) & _ & Hraise & ->).
    apply prod_loop_body_raises in Hraise.
    destruct (Hraised st'' ((lo st'' + hi st'') / 2) rows e Hlog Hlen Hall Hd Hraise)
      as (rows' & Hl & Hb & Hiff & Ha & Hdm).
    exists rows'. cbn [fst snd LimitProbeProd.aborted log_file dumps calls].
    repeat split; try assumption; try lia; apply Hiff.
  - destruct H as ((rows & Hlog & Hlen & Hall & Hd) & _).
    exists rows. cbn. repeat split; auto; lia.
Qed.

End ProdRun.

Import ProdTrace.

Section ProdSearch.
Import LimitProbeProd.
Variable args : Args.
Variable transcript : pystr.
Variable SYSTEM_RULES : pystr.
Variable w : world.

Notation tol := (tolerance args).
Notation attempt := (attempt args transcript SYSTEM_RULES w).
Notation loop_body := (loop_body args transcript SYSTEM_RULES w).
Notation search_loop := (search_loop args transcript SYSTEM_RULES w).
Notation final_check := (final_check args transcript SYSTEM_RULES w).
Notation main := (main args transcript SYSTEM_RULES w).
Notation initial_state := (initial_state args transcript).
Notation full := (full_len transcript).
Notation sharp_limit := (sharp_limit args transcript SYSTEM_RULES w).

(** As in [limit_probe.py]: with [tolerance >= -1], [n] iterations are
    enough once [hi - lo + 1] is below [(tolerance + 2) * 2^n]. *)
Lemma prod_search_loop_potential (n : nat) :
  forall (fuel : nat) (st : SearchState),
  -1 <= tol ->
  hi st - lo st + 1 < (tol + 2) * 2 ^ Z.of_nat n ->
  (calls (snd (search_loop fuel st)) <= calls st + n)%nat /\
  ((n <= fuel)%nat -> fst (search_loop fuel st) <> LoopOutOfFuel).
Proof.
  induction n as [|n IH]; intros fuel st Htol Hpot.
  - rewrite prod_search_loop_exit by (simpl in Hpot; lia).
    simpl. split; [lia | discriminate].
  - destruct (Z.le_gt_cases (hi st - lo st) tol) as [H|H].
    { rewrite prod_search_loop_exit by assumption. simpl.
      split; [lia | discriminate]. }
    destruct fuel as [|fuel].
    { rewrite prod_search_loop_no_fuel by assumption. simpl. split; lia. }
    rewrite prod_search_loop_step by assumption.
    destruct (loop_body st) as [st'|e] eqn:E.
    + apply prod_loop_body_returns in E. cbv zeta in E.
      destruct E as (ok & txt & meta & _ & Hc & _ & Hbr).
      rewrite Nat2Z.inj_succ, Z.pow_succ_r in Hpot by lia.
      pose proof (width_halves_up (lo st) (hi st)) as Hup.
      pose proof (width_halves_down (lo st) (hi st)) as Hdown.
      destruct (IH fuel st' Htol) as [IH1 IH2].
      { destruct Hbr as [(_ & -> & -> & _) | (_ & -> & -> & _)]; nia. }
      split; [lia | intros; apply IH2; lia].
    + simpl. split; [lia | discriminate].
Qed.

Lemma prod_potential_exists (st : SearchState) :
  -1 <= tol ->
  hi st - lo st + 1 < (tol + 2) * 2 ^ Z.of_nat (Z.to_nat (hi st - lo st + 1)).
Proof.
  intros Htol. destruct (Z.le_gt_cases (hi st - lo st + 1) 0) as [H|H].
  - replace (Z.to_nat (hi st - lo st + 1)) with 0%nat by lia. simpl. lia.
  - rewrite Z2Nat.id by lia.
    pose proof (Z.pow_gt_lin_r 2 (hi st - lo st + 1)). nia.
Qed.

(** The calls of a whole run: those of the loop, and the spot-check. *)
Lemma prod_main_calls (fuel : nat) (log0 : list Row) :
  (calls (snd (main fuel log0))
   <= S (calls (snd (search_loop fuel (initial_state log0)))))%nat /\
  (fst (search_loop fuel (initial_state log0)) <> LoopOutOfFuel ->
   fst (main fuel log0) <> OutOfFuel).
Proof.
  unfold LimitProbeProd.main.
  destruct (search_loop fuel (initial_state log0)) as [[| e |] st]; cbn [fst snd].
  - rewrite prod_final_check_calls. split; [lia|]. intros _.
    unfold LimitProbeProd.final_check.
    destruct (a_result _) as [[[ok txt] meta]|e]; cbn [fst]; [|discriminate].
    destruct (print_result _ _ _); discriminate.
  - split; [lia|discriminate].
  - split; [lia|]. intros H. now elim H.
Qed.

(** [limit_probe_prod.py] checks no range.  With a tolerance of at least
    -1 its loop stops whatever [min_chars] is; when the transcript is at
    most [tolerance] characters longer than [min_chars] the loop is
    skipped, and the run is the one spot-check at full length; with a
    tolerance that is not negative the run makes at most
    [max(0, ceil(log2((full_len - min_chars) / max(tolerance, 1))) + 1)]
    attempts in the loop, and the spot-check. *)
Theorem prod_search_terminates (fuel : nat) (log0 : list Row) :
  -1 <= tol ->
  (exists n, forall fuel',
     (n <= fuel')%nat -> fst (main fuel' log0) <> OutOfFuel) /\
  (full - min_chars args <= tol ->
   main fuel log0 = final_check (initial_state log0)
   /\ (calls (snd (main fuel log0)) = 1)%nat) /\
  (0 <= tol -> min_chars args < full ->
   let bound := Z.max 0 (Spec.trial_bound (min_chars args) full tol) in
   Z.of_nat (calls (snd (main fuel log0))) <= bound + 1 /\
   ((Z.to_nat bound <= fuel)%nat -> fst (main fuel log0) <> OutOfFuel)).
Proof.
  intros Ht. split; [|split].
  - exists (Z.to_nat (full - min_chars args + 1)). intros fuel' Hf.
    apply prod_main_calls.
    now apply (prod_search_loop_potential _ fuel' (initial_state log0) Ht
                 (prod_potential_exists (initial_state log0) Ht)).
  - intros Hshort. unfold LimitProbeProd.main.
    rewrite prod_search_loop_exit by exact Hshort.
    split; [reflexivity|]. now rewrite prod_final_check_calls.
  - intros Ht0 Hr bound.
    assert (Hpot : hi (initial_state log0) - lo (initial_state log0) + 1
                   < (tol + 2) * 2 ^ Z.of_nat (Z.to_nat bound)).
    { cbn [hi lo LimitProbeProd.initial_state].
      destruct (Z.le_gt_cases (full - min_chars args) tol) as [H|H].
      { pose proof (Z.pow_pos_nonneg 2 (Z.of_nat (Z.to_nat bound))). nia. }
      unfold bound, Spec.trial_bound.
      set (m := Z.max tol 1).
      set (K := Spec.ceil_log2_ratio (full - min_chars args) m).
      assert (HK : 0 <= K) by (apply ceil_log2_ratio_nonneg; lia).
      assert (HW : full - min_chars args <= m * 2 ^ K)
        by (apply ceil_log2_ratio_up; lia).
      rewrite Z2Nat.id by lia. replace (Z.max 0 (K + 1)) with (Z.succ K) by lia.
      rewrite Z.pow_succ_r by lia.
      pose proof (Z.pow_pos_nonneg 2 K). nia. }
    destruct (prod_search_loop_potential _ fuel (initial_state log0)
                ltac:(lia) Hpot) as [Hc Hf].
    destruct (prod_main_calls fuel log0) as [Hm Hn].
    cbn [calls LimitProbeProd.initial_state] in Hc.
    split; [lia|]. intros Hfuel. apply Hn, Hf. exact Hfuel.
Qed.

(** Under a sharp limit the interval keeps the limit between [lo - 1] and
    [hi], and [best], once set, is [lo - 1]. *)
Lemma prod_sharp_limit_step (limit : Z) (st st' : SearchState) :
  -1 <= tol -> sharp_limit limit ->
  let inv := fun st : SearchState =>
    min_chars args <= lo st /\ hi st <= full /\ lo st <= hi st + 1 /\
    Z.min limit full <= hi st /\
    match best_meta st with
    | Some _ => best st = lo st - 1 /\ min_chars args <= best st <= limit
    | None => lo st = min_chars args /\ best st = 0
    end in
  inv st -> tol < hi st - lo st -> loop_body st = Return st' -> inv st'.
Proof.
  intros Ht Hsharp inv (Hlo & Hhi & Hle & Hlim & Hbest) Hgo Hbody.
  destruct (prod_loop_body_returns _ _ _ _ _ _ Hbody)
    as (ok & txt & meta & Ha & _ & _ & Hcase).
  pose proof (mid_in_range (lo st) (hi st) ltac:(lia)) as Hmid.
  destruct (Hsharp st ((lo st + hi st) / 2) ltac:(lia))
    as (ok' & txt' & meta' & Ha' & Hok).
  rewrite Ha in Ha'. injection Ha' as <- <- <-.
  unfold inv.
  destruct Hcase as [(Hs & El & Eh & Eb & Em)|(Hs & El & Eh & Eb & Em)];
    rewrite El, Eh, Eb, Em.
  - apply Hok in Hs. repeat split; lia.
  - assert (~ (lo st + hi st) / 2 <= limit).
    { intros Hc. apply Hok in Hc. congruence. }
    repeat split; try lia. exact Hbest.
Qed.

(** Under a sharp limit, with a tolerance of at least -1, [min_chars] no
    larger than the transcript and a console that takes what is printed,
    a run finishes, and:
    - when the whole transcript is within the limit, [best] is its length;
    - otherwise [best], when a success was recorded, is at most the limit
      and at most [tolerance + 1] below it;
    - otherwise [best] is 0, and the limit is at most
      [min_chars + tolerance]. *)
Theorem prod_accuracy (limit : Z) (log0 : list Row) :
  min_chars args <= full -> -1 <= tol -> sharp_limit limit ->
  console_takes_all w ->
  exists enough, forall fuel, (enough <= fuel)%nat ->
    exists st,
      main fuel log0 = (Finished, st) /\
      (full <= limit -> best st = full) /\
      (limit < full ->
       match best_meta st with
       | Some _ => min_chars args <= best st <= limit
                   /\ limit - best st <= tol + 1
       | None => best st = 0 /\ limit <= min_chars args + tol
       end).
Proof.
  intros Hr Ht Hsharp Hcon.
  exists (Z.to_nat (full - min_chars args + 1)). intros fuel Hfuel.
  pose proof (prod_search_loop_potential _ fuel (initial_state log0) Ht
                (prod_potential_exists (initial_state log0) Ht)) as [_ Hnofuel].
  specialize (Hnofuel Hfuel).
  pose proof (prod_search_loop_invariant args transcript SYSTEM_RULES w _
                (fun st st' => prod_sharp_limit_step limit st st' Ht Hsharp)
                fuel (initial_state log0)) as H.
  cbn beta in H.
  specialize (H ltac:(cbn; repeat split; lia)).
  unfold LimitProbeProd.main.
  destruct (search_loop fuel (initial_state log0)) as [[| e |] st].
  - destruct H as ((Hlo & Hhi & Hle & Hlim & Hbest) & Hexit).
    unfold LimitProbeProd.final_check.
    destruct (Hsharp st full ltac:(lia)) as (ok & txt & meta & Ha & Hok).
    rewrite Ha.
    assert (Hp : forall s, print_result args (w (calls st)) s = Return tt).
    { intros s. unfold print_result, print.
      destruct (best_meta s); rewrite !Hcon; reflexivity. }
    rewrite Hp. eexists. split; [reflexivity|].
    destruct ok eqn:Hs; cbn [best best_meta].
    + pose proof (proj1 Hok eq_refl). split; [reflexivity|lia].
    + assert (~ full <= limit).
      { intros Hc. apply Hok in Hc. discriminate. }
      split; [lia|]. intros _.
      destruct (best_meta st); lia.
  - destruct H as (st'' & (Hlo & Hhi & Hle & _) & Hgo & Hraise & _).
    apply prod_loop_body_raises in Hraise.
    pose proof (mid_in_range (lo st'') (hi st'') ltac:(lia)) as Hmid.
    destruct (Hsharp st'' ((lo st'' + hi st'') / 2) ltac:(lia))
      as (ok & txt & meta & Ha & _).
    rewrite Ha in Hraise. discriminate.
  - now elim Hnofuel.
Qed.

End ProdSearch.

(* ------------------------------------------------------------------ *)
(** ** What a trial returns                                            *)
(* ------------------------------------------------------------------ *)

Section TrialResults.
Import LimitProbe.
Context {ucd : UnicodeData}.

(** What [run_once] makes of the escaped text [e]. *)
Lemma preview_cut (e : pystr) :
  ~ In 10%N e ->
  let preview := if len e >? 220 then firstn 220 e ++ [8230%N] else e in
  ~ In 10%N preview /\ len preview <= 221 /\
  (len preview = 221 -> exists cut, preview = cut ++ [8230%N]).
Proof.
  intros Hlf preview. subst preview.
  destruct (Z.gtb_spec (len e) 220) as [Hlong|Hshort].
  - split; [|split].
    + intros H. apply in_app_or in H as [H|H].
      * apply Hlf. rewrite <- (firstn_skipn 220 e). apply in_or_app. now left.
      * cbn in H. destruct H as [H|[]]. discriminate.
    + unfold len in *. rewrite length_app, length_firstn.
      cbn [List.length]. lia.
    + intros _. eexists. reflexivity.
  - split; [exact Hlf|]. split; lia.
Qed.

(** The preview of a trial is a single line of at most 221 characters:
    line feeds are escaped, and what exceeds 220 characters is cut and
    replaced by an ellipsis. *)
Theorem preview_single_line env url model instructions prefix want_json
    stream temperature num_ctx num_predict timeout_s rr :
  run_once env url model instructions prefix want_json stream temperature
    num_ctx num_predict timeout_s = Return rr ->
  ~ In 10%N (response_preview rr) /\
  len (response_preview rr) <= 221 /\
  (len (response_preview rr) = 221 ->
   exists cut, response_preview rr = cut ++ [8230%N]).
Proof.
  unfold run_once.
  destruct (post_ollama _ _ _ _) as [[status http_text]|]; cbn [bind];
    [|discriminate].
  repeat match goal with
         | |- context [bind ?m _] => destruct m; cbn [bind]; try discriminate
         end.
  intros [= <-].
  match goal with
  | |- context [escape_newlines ?s] =>
      exact (preview_cut _ (escape_newlines_no_line_feed s))
  end.
Qed.

(** [extract_generate_fields] returns a dictionary for every body: the
    decoded body when it is a JSON object, and otherwise the two keys
    [_parse_error] and [_raw], the latter holding the body less its
    leading white space.  So no [.get] of [run_once] can fail. *)
Theorem extract_generate_fields_dict (http_text : pystr) :
  exists items,
    extract_generate_fields http_text = PDict items /\
    ((startswith (lstrip http_text) (py "{") = true
      /\ Json.loads (lstrip http_text) = Some (PDict items))
     \/ exists message,
          items = [(py "_parse_error", PStr message);
                   (py "_raw", PStr (lstrip http_text))]).
Proof.
  unfold extract_generate_fields.
  destruct (startswith (lstrip http_text) (py "{")) eqn:Hs; cbn [negb].
  - destruct (Json.loads (lstrip http_text)) as [v|] eqn:Hl.
    + destruct (loads_object _ _ Hs Hl) as [items ->].
      exists items. split; [reflexivity|]. left. now split.
    + eexists. split; [reflexivity|]. right. eexists. reflexivity.
  - eexists. split; [reflexivity|]. right. eexists. reflexivity.
Qed.

End TrialResults.

(* ------------------------------------------------------------------ *)
(** ** White space around a response                                   *)
(* ------------------------------------------------------------------ *)

Section SurroundingSpace.

Lemma dropwhile_all (p : N -> bool) (u s : pystr) :
  forallb p u = true -> dropwhile p (u ++ s) = dropwhile p s.
Proof.
  induction u as [|c u IH]; cbn [forallb app dropwhile]; [reflexivity|].
  intros H. apply andb_prop in H as [-> H]. now apply IH.
Qed.

Lemma forallb_rev (p : N -> bool) (u : pystr) :
  forallb p u = true -> forallb p (rev u) = true.
Proof.
  rewrite !forallb_forall. intros H x Hx. apply H. now apply in_rev.
Qed.

Lemma rstrip_space (s v : pystr) :
  forallb isspace v = true -> rstrip (s ++ v) = rstrip s.
Proof.
  intros Hv. unfold rstrip. rewrite rev_app_distr.
  now rewrite dropwhile_all by now apply forallb_rev.
Qed.

(** [strip] takes no notice of white space added at either end. *)
Lemma strip_surrounded (u s v : pystr) :
  forallb isspace u = true -> forallb isspace v = true ->
  strip (u ++ s ++ v) = strip s.
Proof.
  intros Hu Hv. unfold strip, lstrip. rewrite dropwhile_all by exact Hu.
  destruct (dropwhile_head isspace s) as [E|(c & r & E & Hc)].
  - rewrite E.
    assert (Es : forallb isspace s = true).
    { clear -E. induction s as [|x s IH]; [reflexivity|]. cbn in *.
      destruct (isspace x); [now apply IH|discriminate]. }
    rewrite dropwhile_all by exact Es.
    replace (dropwhile isspace v) with (@nil N); [reflexivity|].
    rewrite <- (app_nil_r v). now rewrite dropwhile_all.
  - rewrite E.
    assert (El : dropwhile isspace (s ++ v) = (c :: r) ++ v).
    { clear -E Hc. induction s as [|x s IH]; [discriminate|].
      cbn in *. destruct (isspace x) eqn:Hx.
      - now apply IH.
      - injection E as -> ->. reflexivity. }
    rewrite El. now apply rstrip_space.
Qed.

End SurroundingSpace.

Section ClassifierSpace.
Import LimitProbe.
Context {ucd : UnicodeData}.

(** White space around a response never changes its outcome. *)
Theorem classify_outcome_ignores_space
    (u text v : pystr) (want_json : bool) (done_reason : pyval) :
  forallb isspace u = true -> forallb isspace v = true ->
  classify_outcome (PStr (u ++ text ++ v)) want_json done_reason
  = classify_outcome (PStr text) want_json done_reason.
Proof.
  intros Hu Hv. unfold classify_outcome. cbn [py_strip bind].
  now rewrite strip_surrounded.
Qed.

End ClassifierSpace.

Section ObjectSlice.

(** The slice that starts at the first occurrence of a character starts
    with that character. *)
Lemma slice_from_find (c : N) (t : pystr) :
  forall j, 0 <= find c t < j -> exists r, slice t (find c t) j = c :: r.
Proof.
  unfold slice. induction t as [|x s IH]; intros j Hj; cbn [find] in *; [lia|].
  destruct (N.eqb_spec x c) as [->|Hx].
  - replace (Z.to_nat j) with (S (Z.to_nat (j - 1))) by lia.
    cbn. eauto.
  - destruct (Z.ltb_spec (find c s) 0) as [Hneg|Hpos]; [lia|].
    replace (Z.to_nat j) with (S (Z.to_nat (j - 1))) by lia.
    replace (Z.to_nat (find c s + 1)) with (S (Z.to_nat (find c s))) by lia.
    cbn [firstn skipn]. apply IH. lia.
Qed.

End ObjectSlice.

Section StructuredSuccess.
Import LimitProbe.
Context {ucd : UnicodeData}.

(** A response classified OK_JSON holds a JSON object: what the decoder
    made of the text between the first opening and the last closing brace
    is a dictionary, never an array or a scalar. *)
Theorem ok_json_is_object (text : pystr) (done_reason : pyval) :
  classify_outcome (PStr text) true done_reason = Return OK_JSON ->
  let t := strip text in
  exists items,
    Json.loads (slice t (find 123 t) (rfind 125 t + 1)) = Some (PDict items).
Proof.
  intros Hc t.
  destruct (classify_outcome_cases text true done_reason)
    as (o & Ho & Herr & Hempty & Hstub & _ & Hrest).
  cbv zeta in *. fold t in Herr, Hempty, Hstub, Hrest.
  rewrite Hc in Ho. injection Ho as <-.
  assert (Hm : startswith t EXCEPTION_MARKER = false).
  { destruct (startswith t EXCEPTION_MARKER); [|reflexivity].
    now pose proof (proj2 Herr eq_refl). }
  assert (Ht : t <> []).
  { intros E. now pose proof (proj2 Hempty (conj Hm E)). }
  assert (Hs : looks_like_stub t = false).
  { destruct (looks_like_stub t); [|reflexivity].
    now pose proof (proj2 Hstub (conj Hm (conj Ht eq_refl))). }
  specialize (Hrest Hm Ht Hs).
  assert (Hp : try_parse_json_output t = true).
  { destruct (try_parse_json_output t); [reflexivity|].
    destruct (py_eq_str done_reason (py "length")); discriminate. }
  rewrite (try_parse_json_output_slice t (strip_idempotent text)) in Hp.
  apply andb_prop in Hp as [Hp Hparses]. apply andb_prop in Hp as [H0 H1].
  apply Z.leb_le in H0. apply Z.ltb_lt in H1.
  unfold parses in Hparses.
  destruct (Json.loads (slice t (find 123 t) (rfind 125 t + 1))) as [v|] eqn:Hl;
    [|discriminate].
  destruct (slice_from_find 123 t (rfind 125 t + 1) ltac:(lia)) as [r Hr].
  assert (Hb : startswith (slice t (find 123 t) (rfind 125 t + 1)) [123%N] = true)
    by (rewrite Hr; reflexivity).
  destruct (loads_object _ v Hb Hl) as [items ->].
  now exists items.
Qed.

End StructuredSuccess.

Section ProdAttempt.
Import LimitProbeProd.
Variable args : Args.
Variable transcript : pystr.
Variable SYSTEM_RULES : pystr.
Variable w : world.

Notation attempt := (attempt args transcript SYSTEM_RULES w).

(** An attempt of [limit_probe_prod.py] whose call got a response outside
    the 4xx and 5xx statuses, with a body that is JSON, on a console that
    takes what is printed, returns exactly when the body is an object
    whose [response], read as the empty string when it is absent or false
    ([null], [""], [0], [0.0], [false], an empty array or object), is a
    string.  That string is then the text of the attempt, and an attempt
    that is [ok] has a text that is not blank. *)
Theorem prod_attempt_returns_iff (st : SearchState) (n status : Z)
    (body : pystr) (obj : pyval) :
  (forall req, post (w (calls st)) req = Response status body) ->
  (forall v, console (w (calls st)) v = true) ->
  ~ 400 <= status < 600 ->
  Json.loads body = Some obj ->
  ((exists r, a_result (attempt st n) = Return r) <->
   exists items s,
     obj = PDict items /\
     py_or (dict_get items (py "response") (PStr [])) (PStr []) = PStr s) /\
  (forall ok txt meta, a_result (attempt st n) = Return (ok, txt, meta) ->
     exists items,
       obj = PDict items /\
       py_or (dict_get items (py "response") (PStr [])) (PStr []) = PStr txt /\
       (ok = true -> strip txt <> [])).
Proof.
  intros Hpost Hcon Hstatus Hloads.
  assert (Hs : (400 <=? status) && (status <? 600) = false).
  { destruct (Z.leb_spec 400 status), (Z.ltb_spec status 600);
      cbn; try reflexivity. lia. }
  unfold LimitProbeProd.attempt, call_ollama.
  rewrite Hpost, Hs, Hloads.
  destruct obj as [|b|z|x|s0|l0|items]; cbn [py_get bind a_result];
    try (split; [split; [intros [a Ha]; discriminate
                        |intros (items & s & E & _); discriminate]
                |intros ok t meta Ha; discriminate]).
  remember (py_or (dict_get items (py "response") (PStr [])) (PStr []))
    as txt eqn:Etxt.
  assert (Hno : forall r : py_result (bool * pystr * Meta),
            (forall s, txt <> PStr s) -> (forall a, r <> Return a) ->
            ((exists a, r = Return a) <->
             exists items' s,
               PDict items = PDict items' /\
               py_or (dict_get items' (py "response") (PStr [])) (PStr [])
                 = PStr s) /\
            (forall ok t meta, r = Return (ok, t, meta) ->
               exists items',
                 PDict items = PDict items' /\
                 py_or (dict_get items' (py "response") (PStr [])) (PStr [])
                   = PStr t /\
                 (ok = true -> strip t <> []))).
  { intros r Htxt Hr. split; [split|].
    - intros [a Ha]. now elim (Hr a).
    - intros (items' & s & Ei & E). injection Ei as <-.
      elim (Htxt s). congruence.
    - intros ok t meta Ha. now elim (Hr (ok, t, meta)). }
  destruct txt as [|b|z|x|s|l|d]; cbn [py_len bind py_strip a_result];
    try (apply Hno; [intros s Es | intros a Ha]; discriminate).
  - assert (Hyes : forall (ok0 : bool) (meta0 : Meta),
              (ok0 = true -> strip s <> []) ->
              ((exists a, Return (ok0, s, meta0) = Return a) <->
               exists items' s',
                 PDict items = PDict items' /\
                 py_or (dict_get items' (py "response") (PStr [])) (PStr [])
                   = PStr s') /\
              (forall ok t meta,
                 @Return (bool * pystr * Meta) (ok0, s, meta0)
                 = Return (ok, t, meta) ->
                 exists items',
                   PDict items = PDict items' /\
                   py_or (dict_get items' (py "response") (PStr [])) (PStr [])
                     = PStr t /\
                   (ok = true -> strip t <> []))).
    { intros ok0 meta0 Hok.
      split; [split; [intros _; exists items, s; now split|eauto]|].
      intros ok t meta [= <- <- <-]. exists items.
      split; [reflexivity|]. split; [now symmetry|exact Hok]. }
    destruct (want_json args); cbn [is_json_object py_strip bind a_result];
      unfold print; rewrite !Hcon; cbn [bind];
      apply Hyes; destruct (strip s); intros; discriminate.
  - destruct (want_json args); cbn [is_json_object py_strip bind a_result];
      (apply Hno; [intros s Es | intros a Ha]; discriminate).
  - destruct (want_json args); cbn [is_json_object py_strip bind a_result];
      (apply Hno; [intros s Es | intros a Ha]; discriminate).
Qed.

End ProdAttempt.

(* ------------------------------------------------------------------ *)
(** ** What the decoder consumes                                       *)
(* ------------------------------------------------------------------ *)

Section DecoderSuffix.
Import Json.

(** [rest] is what is left of [s] after something was read from its
    front. *)
Notation left_of s rest := (exists pre : pystr, s = pre ++ rest).

Lemma left_of_trans (s s1 s2 : pystr) :
  left_of s s1 -> left_of s1 s2 -> left_of s s2.
Proof. intros [p ->] [q ->]. exists (p ++ q). now rewrite app_assoc. Qed.

Lemma left_of_cons (c : N) (s rest : pystr) :
  left_of s rest -> left_of (c :: s) rest.
Proof. intros [p ->]. now exists (c :: p). Qed.

Lemma left_of_refl (s : pystr) : left_of s s.
Proof. now exists []. Qed.

Lemma dropwhile_left (p : N -> bool) (s : pystr) : left_of s (dropwhile p s).
Proof.
  induction s as [|c s IH]; cbn [dropwhile]; [apply left_of_refl|].
  destruct (p c); [now apply left_of_cons|apply left_of_refl].
Qed.

Lemma skip_ws_left (s : pystr) : left_of s (skip_ws s).
Proof. apply dropwhile_left. Qed.

Lemma scanstring_left (n : nat) :
  forall s str rest, (List.length s <= n)%nat ->
  scanstring s = Some (str, rest) -> left_of s rest.
Proof.
  induction n as [|n IH]; intros s str rest Hn.
  - destruct s; [discriminate | simpl in Hn; lia].
  - destruct s as [|c s1]; [discriminate|]. simpl in Hn. simpl scanstring.
    assert (Hpush : forall x t str, (List.length t <= n)%nat ->
              push x (scanstring t) = Some (str, rest) -> left_of t rest).
    { intros x t str0 Ht Hp. apply push_some in Hp as [str' Hp]. eapply IH; eauto. }
    destruct (c =? 34)%N; [intros [= _ <-]; now exists [c]|].
    destruct (c =? 92)%N.
    + destruct s1 as [|e s2]; [discriminate|]. simpl in Hn.
      destruct (e =? 117)%N.
      * destruct s2 as [|h1 [|h2 [|h3 [|h4 s3]]]]; try discriminate.
        simpl in Hn. destruct (hex4 h1 h2 h3 h4) as [u|]; [|discriminate].
        assert (H3 : push u (scanstring s3) = Some (str, rest) ->
                     left_of (c :: e :: h1 :: h2 :: h3 :: h4 :: s3) rest).
        { intros Hp. apply Hpush in Hp; [|lia].
          now do 6 apply left_of_cons. }
        destruct (high_surrogate u); [|exact H3].
        destruct s3 as [|b [|x [|k1 [|k2 [|k3 [|k4 s4]]]]]]; try exact H3.
        destruct ((b =? 92)%N && (x =? 117)%N); [|exact H3].
        destruct (hex4 k1 k2 k3 k4) as [u2|]; [|discriminate].
        destruct (low_surrogate u2); [|exact H3].
        intros Hp. apply Hpush in Hp; [|simpl in *; lia].
        now do 12 apply left_of_cons.
      * destruct (unescape e) as [c'|]; [|discriminate].
        intros Hp. apply Hpush in Hp; [|lia]. now do 2 apply left_of_cons.
    + destruct (c <=? 31)%N; [discriminate|].
      intros Hp. apply Hpush in Hp; [|lia]. now apply left_of_cons.
Qed.

Lemma take_digits_left (s : pystr) : left_of s (snd (take_digits s)).
Proof.
  induction s as [|c s IH]; cbn [take_digits]; [apply left_of_refl|].
  destruct (is_digit c); [|apply left_of_refl].
  destruct (take_digits s) as [ds r]. cbn [snd] in *. now apply left_of_cons.
Qed.

Lemma frac_part_left (s : pystr) : left_of s (snd (frac_part s)).
Proof.
  unfold frac_part. destruct s as [|dot [|d s']]; try apply left_of_refl.
  destruct ((dot =? 46)%N && is_digit d); [|apply left_of_refl].
  pose proof (take_digits_left s'). destruct (take_digits s'). cbn [snd] in *.
  now do 2 apply left_of_cons.
Qed.

Lemma exp_part_left (s : pystr) : left_of s (snd (exp_part s)).
Proof.
  unfold exp_part. destruct s as [|e s']; [apply left_of_refl|].
  destruct ((e =? 101)%N || (e =? 69)%N); [|apply left_of_refl].
  destruct s' as [|sg s3].
  - cbn. apply left_of_refl.
  - destruct ((sg =? 45)%N || (sg =? 43)%N).
    + pose proof (take_digits_left s3).
      destruct (take_digits s3) as [[|d ds] r]; cbn [snd] in *;
        [apply left_of_refl|now do 2 apply left_of_cons].
    + pose proof (take_digits_left (sg :: s3)).
      destruct (take_digits (sg :: s3)) as [[|d ds] r]; cbn [snd] in *;
        [apply left_of_refl|now apply left_of_cons].
Qed.

Lemma match_number_left (s : pystr) (v : pyval) (rest : pystr) :
  match_number s = Some (v, rest) -> left_of s rest.
Proof.
  unfold match_number.
  assert (Hint : forall t ip r0, int_part t = Some (ip, r0) -> left_of t r0).
  { intros [|c t] ip r0; cbn [int_part]; [discriminate|].
    destruct (c =? 48)%N; [intros [= _ <-]; now exists [c]|].
    destruct ((49 <=? c)%N && (c <=? 57)%N); [|discriminate].
    pose proof (take_digits_left t). destruct (take_digits t).
    intros [= _ <-]. cbn [snd] in *. now apply left_of_cons. }
  set (neg_s1 := match s with
                 | c :: s' => if (c =? 45)%N then (true, s') else (false, s)
                 | [] => (false, s)
                 end).
  assert (Hs1 : left_of s (snd neg_s1)).
  { unfold neg_s1. destruct s as [|c s']; [apply left_of_refl|].
    destruct (c =? 45)%N; cbn [snd];
      [apply left_of_cons|]; apply left_of_refl. }
  destruct neg_s1 as [neg s1]. cbn [snd] in Hs1.
  destruct (int_part s1) as [[ip r0]|] eqn:Ei; [|discriminate].
  apply Hint in Ei.
  pose proof (frac_part_left r0) as Hf. destruct (frac_part r0) as [fp r1].
  pose proof (exp_part_left r1) as He. destruct (exp_part r1) as [ep r2].
  cbn [snd] in Hf, He.
  assert (H : left_of s r2).
  { eapply left_of_trans; [exact Hs1|].
    eapply left_of_trans; [exact Ei|].
    eapply left_of_trans; [exact Hf|exact He]. }
  destruct fp, ep; intros [= _ <-]; exact H.
Qed.

Lemma keyword_left (s : pystr) (word : string) (v v' : pyval) (rest : pystr) :
  keyword s word v = Some (v', rest) -> left_of s rest.
Proof.
  unfold keyword. destruct (startswith s (py word)); [|discriminate].
  intros [= _ <-]. exists (firstn (String.length word) s).
  now rewrite firstn_skipn.
Qed.

Lemma scalar_left (s : pystr) (v : pyval) (rest : pystr) :
  scalar s = Some (v, rest) -> left_of s rest.
Proof.
  unfold scalar, first_of.
  repeat match goal with
         | |- context [keyword s ?word ?val] =>
             destruct (keyword s word val) as [[? ?]|] eqn:?;
             [intros [= <- <-]; eapply keyword_left; eassumption|]
         end.
  apply match_number_left.
Qed.

(** What the decoder returns as the rest is the text less what it read. *)
Lemma scan_left (fuel : nat) :
  (forall s v rest, scan_once fuel s = Scanned v rest -> left_of s rest) /\
  (forall s acc v rest, members fuel s acc = Scanned v rest -> left_of s rest) /\
  (forall s acc v rest, elements fuel s acc = Scanned v rest -> left_of s rest).
Proof.
  induction fuel as [|fuel (IHs & IHm & IHe)];
    [repeat split; intros; discriminate|].
  assert (Hclose : forall s0 s1 d s2,
            left_of s0 s1 -> skip_ws s1 = d :: s2 -> left_of s0 s2).
  { intros s0 s1 d s2 H0 E. eapply left_of_trans; [exact H0|].
    eapply left_of_trans; [apply skip_ws_left|]. rewrite E. now exists [d]. }
  assert (Hnext : forall s0 s1 d s2,
            left_of s0 s1 -> skip_ws s1 = d :: s2 -> left_of s0 (skip_ws s2)).
  { intros s0 s1 d s2 H0 E. eapply left_of_trans; [eapply Hclose; eassumption|].
    apply skip_ws_left. }
  split; [|split].
  - intros s v rest. cbn [scan_once].
    destruct s as [|c s']; [discriminate|].
    destruct (c =? 34)%N.
    { destruct (scanstring s') as [[str r]|] eqn:E; [|discriminate].
      intros [= _ <-]. apply left_of_cons.
      eapply scanstring_left; [|exact E]. apply Nat.le_refl. }
    destruct (c =? 123)%N.
    { destruct (skip_ws s') as [|d s''] eqn:E; [discriminate|].
      destruct (d =? 125)%N.
      - intros [= _ <-]. apply left_of_cons.
        eapply Hclose; [apply left_of_refl|exact E].
      - intros H. apply IHm in H. apply left_of_cons.
        eapply left_of_trans; [apply skip_ws_left|]. rewrite E. exact H. }
    destruct (c =? 91)%N.
    { destruct (skip_ws s') as [|d s''] eqn:E; [discriminate|].
      destruct (d =? 93)%N.
      - intros [= _ <-]. apply left_of_cons.
        eapply Hclose; [apply left_of_refl|exact E].
      - intros H. apply IHe in H. apply left_of_cons.
        eapply left_of_trans; [apply skip_ws_left|]. rewrite E. exact H. }
    destruct (scalar (c :: s')) as [[v' r]|] eqn:E; [|discriminate].
    intros [= _ <-]. eapply scalar_left. exact E.
  - intros s acc v rest. cbn [members].
    destruct s as [|q s1]; [discriminate|].
    destruct (q =? 34)%N; [|discriminate].
    destruct (scanstring s1) as [[key s2]|] eqn:Ek; [|discriminate].
    destruct (skip_ws s2) as [|colon s3] eqn:Ec; [discriminate|].
    destruct (colon =? 58)%N; [|discriminate].
    destruct (scan_once fuel (skip_ws s3)) as [val s4| |] eqn:Ev; try discriminate.
    destruct (skip_ws s4) as [|d s5] eqn:Ed; [discriminate|].
    assert (H4 : left_of (q :: s1) s4).
    { apply left_of_cons.
      eapply left_of_trans;
        [eapply scanstring_left; [apply Nat.le_refl|exact Ek]|].
      eapply left_of_trans; [eapply Hnext; [apply left_of_refl|exact Ec]|].
      eapply IHs. exact Ev. }
    destruct (d =? 125)%N; [intros [= _ <-]; eapply Hclose; eassumption|].
    destruct (d =? 44)%N; [|discriminate].
    intros H. apply IHm in H.
    eapply left_of_trans; [eapply Hnext; eassumption|exact H].
  - intros s acc v rest. cbn [elements].
    destruct (scan_once fuel s) as [val s1| |] eqn:Ev; try discriminate.
    destruct (skip_ws s1) as [|d s2] eqn:Ed; [discriminate|].
    apply IHs in Ev.
    destruct (d =? 93)%N; [intros [= _ <-]; eapply Hclose; eassumption|].
    destruct (d =? 44)%N; [|discriminate].
    intros H. apply IHe in H.
    eapply left_of_trans; [eapply Hnext; eassumption|exact H].
Qed.

(** What was read of an object ends with its closing brace. *)
Notation closed_before s rest :=
  (exists pre : pystr, s = pre ++ 125%N :: rest).

Lemma closed_before_left (s s1 rest : pystr) :
  left_of s s1 -> closed_before s1 rest -> closed_before s rest.
Proof. intros [p ->] [q ->]. exists (p ++ q). now rewrite app_assoc. Qed.

Lemma skip_ws_closes (s1 d s2 : pystr) (c : N) :
  skip_ws s1 = c :: s2 -> (c =? 125)%N = true -> closed_before s1 s2.
Proof.
  intros E Hc. apply N.eqb_eq in Hc. subst c.
  destruct (skip_ws_left s1) as [p Hp]. rewrite E in Hp. now exists p.
Qed.

Lemma members_closes (fuel : nat) :
  forall s acc v rest,
    members fuel s acc = Scanned v rest -> closed_before s rest.
Proof.
  induction fuel as [|fuel IH]; intros s acc v rest; [discriminate|].
  cbn [members].
  destruct s as [|q s1]; [discriminate|].
  destruct (q =? 34)%N; [|discriminate].
  destruct (scanstring s1) as [[key s2]|] eqn:Ek; [|discriminate].
  destruct (skip_ws s2) as [|colon s3] eqn:Ec; [discriminate|].
  destruct (colon =? 58)%N; [|discriminate].
  destruct (scan_once fuel (skip_ws s3)) as [val s4| |] eqn:Ev; try discriminate.
  destruct (skip_ws s4) as [|d s5] eqn:Ed; [discriminate|].
  assert (H4 : left_of (q :: s1) s4).
  { apply left_of_cons.
    eapply left_of_trans;
      [eapply scanstring_left; [apply Nat.le_refl|exact Ek]|].
    eapply left_of_trans; [apply skip_ws_left|]. rewrite Ec.
    apply left_of_cons.
    eapply left_of_trans; [apply skip_ws_left|].
    eapply (proj1 (scan_left fuel)). exact Ev. }
  destruct (d =? 125)%N eqn:Hd.
  { intros [= _ <-]. eapply closed_before_left; [exact H4|].
    eapply skip_ws_closes; eassumption. }
  destruct (d =? 44)%N; [|discriminate].
  intros H. apply IH in H.
  eapply closed_before_left; [|exact H].
  eapply left_of_trans; [exact H4|].
  eapply left_of_trans; [apply skip_ws_left|]. rewrite Ed.
  apply left_of_cons. apply skip_ws_left.
Qed.

Lemma object_closes (fuel : nat) (s' : pystr) (v : pyval) (rest : pystr) :
  scan_once fuel (123%N :: s') = Scanned v rest ->
  closed_before (123%N :: s') rest.
Proof.
  destruct fuel as [|fuel]; [discriminate|]. cbn [scan_once].
  change (123 =? 34)%N with false. change (123 =? 123)%N with true. cbv iota.
  destruct (skip_ws s') as [|d s''] eqn:E; [discriminate|].
  destruct (d =? 125)%N eqn:Hd.
  - intros [= _ <-]. eapply closed_before_left; [now exists [123%N]|].
    eapply skip_ws_closes; eassumption.
  - intros H. apply members_closes in H.
    eapply closed_before_left; [|exact H].
    apply left_of_cons. rewrite <- E. apply skip_ws_left.
Qed.

End DecoderSuffix.

(* ------------------------------------------------------------------ *)
(** ** The two tests for structured output                             *)
(* ------------------------------------------------------------------ *)

Section TwoJsonTests.

Lemma dropwhile_nil (p : N -> bool) (s : pystr) :
  dropwhile p s = [] -> forallb p s = true.
Proof.
  induction s as [|x s IH]; [reflexivity|]. cbn.
  destruct (p x); [exact IH|discriminate].
Qed.

(** A stripped text is empty or ends with a character that is no white
    space. *)
Lemma strip_last (s : pystr) :
  strip s = [] \/ exists pre c, strip s = pre ++ [c] /\ isspace c = false.
Proof.
  unfold strip, rstrip.
  destruct (dropwhile_head isspace (rev (lstrip s))) as [E|(c & r & E & Hc)];
    rewrite E; [now left|].
  right. exists (rev r), c. now split.
Qed.

Lemma is_ws_isspace (c : N) : Json.is_ws c = true -> isspace c = true.
Proof.
  unfold Json.is_ws. intros H.
  repeat (apply orb_prop in H as [H|H]);
    apply N.eqb_eq in H; subst c; reflexivity.
Qed.

(** A stripped text that the decoder reads as starting with an object ends
    with the brace that closes it. *)
Lemma loads_object_ends (t' : pystr) (v : pyval) (s : pystr) :
  strip s = 123%N :: t' -> Json.loads (strip s) = Some v ->
  exists pre, strip s = pre ++ [125%N].
Proof.
  intros Et. unfold Json.loads. rewrite Et.
  cbn [startswith]. change (123 =? 65279)%N with false. cbn [andb].
  change (Json.skip_ws (123%N :: t')) with (123%N :: t').
  destruct (Json.scan_once _ _) as [v' rest| |] eqn:Es; try discriminate.
  destruct (Json.skip_ws rest) eqn:Er; [|discriminate]. intros _.
  destruct (object_closes _ _ _ _ Es) as [pre Hpre].
  destruct rest as [|r0 rest0]; [now exists pre|].
  destruct (@exists_last _ (r0 :: rest0) ltac:(discriminate))
    as (rest' & x & Erest).
  rewrite Erest in *. clear Erest r0 rest0.
  exfalso. apply dropwhile_nil in Er.
  rewrite forallb_app in Er. apply andb_prop in Er as [_ Er].
  cbn in Er. rewrite andb_true_r in Er. apply is_ws_isspace in Er.
  destruct (strip_last s) as [E|(p & c & E & Hc)]; [congruence|].
  rewrite Et, Hpre in E.
  change (pre ++ 125%N :: rest' ++ [x])
    with (pre ++ (125%N :: rest') ++ [x]) in E.
  rewrite app_assoc in E. apply app_inj_tail in E as [_ ->]. congruence.
Qed.

(** Every response that [is_json_object] of [limit_probe_prod.py] accepts
    and that starts, white space apart, with an opening brace is accepted
    by [try_parse_json_output] of [limit_probe.py] too. *)
Theorem prod_object_is_ok_json (s : pystr) :
  Q.is_json_object (PStr s) = Return true ->
  startswith (strip s) (py "{") = true ->
  P.try_parse_json_output s = true.
Proof.
  unfold Q.is_json_object, P.try_parse_json_output. cbn [py_strip bind].
  intros H Hb.
  destruct (strip s) as [|c t'] eqn:Et; [discriminate|].
  assert (Ec : c = 123%N).
  { cbn in Hb. rewrite andb_true_r in Hb. now apply N.eqb_eq in Hb. }
  subst c. rewrite <- Et in *.
  destruct (Json.loads (strip s)) as [v|] eqn:Hl; [|discriminate].
  destruct (loads_object_ends t' v s Et Hl) as [pre Hpre].
  rewrite Hb.
  replace (endswith (strip s) (py "}")) with true; [reflexivity|].
  unfold endswith. rewrite Hpre, rev_app_distr. reflexivity.
Qed.

End TwoJsonTests.

Import Trace ProdTrace.


Section FurtherScenarios.
Import Runs ProdRuns.

Lemma trial_lengths_in_range_witness :
  let args := probe_args false 1 0 in
  let w := answers "{'response': 'fine'}" in
  exists records,
    P.log_file (snd (P.main (ucd := ascii_ucd) args (py "abcd") instructions w 5 []))
      = [] ++ records /\
    Forall (fun l =>
              Z.max 1 (P.initial_lo args (py "abcd") - 1) <= P.l_n_chars l
                <= P.initial_hi args (py "abcd") /\
              (P.from_loop args l ->
               P.initial_lo args (py "abcd") <= P.l_search_lo l /\
               P.l_search_lo l <= P.l_n_chars l <= P.l_search_hi l /\
               P.l_search_hi l <= P.initial_hi args (py "abcd"))) records.
Proof.
  apply (trial_lengths_in_range (ucd := ascii_ucd) (probe_args false 1 0)
           (py "abcd") instructions (answers "{'response': 'fine'}") 5 []).
  cbn. lia.
Defined.

Lemma log_intervals_narrow_witness :
  let args := probe_args false 1 0 in
  let w := answers "{'response': 'fine'}" in
  exists records,
    P.log_file (snd (P.main (ucd := ascii_ucd) args (py "abcd") instructions w 5 []))
      = [] ++ records /\
    interval_chain records /\
    Forall (fun l => P.initial_lo args (py "abcd") <= P.l_search_lo l
                     /\ P.l_search_hi l <= P.initial_hi args (py "abcd")
                     /\ P.l_search_lo l <= P.l_search_hi l + 1) records.
Proof.
  apply (log_intervals_narrow (ucd := ascii_ucd) (probe_args false 1 0)
           (py "abcd") instructions (answers "{'response': 'fine'}") 5 []).
  cbn. lia.
Defined.

(** A transcript of eight characters and a service that cuts its answer
    above five: the limit is found exactly. *)
Lemma probe_accuracy_witness :
  let args := probe_args false 1 0 in
  let transcript := py "abcdefgh" in
  exists enough, forall fuel, (enough <= fuel)%nat ->
    exists r st,
      P.main (ucd := ascii_ucd) args transcript instructions (cuts_above 5)
        fuel [] = (P.Finished r, st) /\
      match r with
      | P.MaxGood n _ => n = Z.min 5 (P.initial_hi args transcript)
      | P.MaxGoodEarlier best n _ =>
          P.initial_lo args transcript <= P.n_chars best <= 5 /\ 5 < n
          /\ n - P.n_chars best <= P.tolerance args + 1
      | P.NoSuccessfulSize _ =>
          5 < Z.max 1 (P.initial_lo args transcript + P.tolerance args)
      end.
Proof.
  apply (probe_accuracy (ucd := ascii_ucd) (probe_args false 1 0)
           (py "abcdefgh") instructions (cuts_above 5) 5 []).
  - cbn. lia.
  - cbn. lia.
  - intros i n Hn. change (P.full_len (py "abcdefgh")) with 8 in Hn.
    assert (Hc : n = 1 \/ n = 2 \/ n = 3 \/ n = 4 \/ n = 5
                 \/ n = 6 \/ n = 7 \/ n = 8) by lia.
    destruct Hc as [->|[->|[->|[->|[->|[->|[->| ->]]]]]]];
      (eexists; split; [vm_compute; reflexivity|]);
      (split; intros H; [try lia; discriminate H | try reflexivity; lia]).
  - intros i v. reflexivity.
  - intros i n rr lo hi Hr. unfold P.trial_at in Hr.
    assert (Hk : exists k, (k <= 8)%nat
                   /\ slice_to (py "abcdefgh") n = firstn k (py "abcdefgh")).
    { unfold slice_to. destruct (n <? 0).
      - exists (Nat.min (Z.to_nat (len (py "abcdefgh") + n)) 8).
        split; [lia|]. rewrite <- firstn_firstn. reflexivity.
      - exists (Nat.min (Z.to_nat n) 8).
        split; [lia|]. rewrite <- firstn_firstn. reflexivity. }
    destruct Hk as (k & Hk & E). rewrite E in Hr.
    do 9 (destruct k as [|k];
          [vm_compute in Hr; injection Hr as <-; reflexivity|]).
    lia.
Defined.

Lemma prod_search_terminates_witness :
  let args := prod_args false 1 0 in
  let w := prod_always (Q.Response 200 (jq "{'response': 'fine'}")) in
  let main := Q.main args (py "abcd") system_rules w in
  (exists n, forall fuel',
     (n <= fuel')%nat -> fst (main fuel' []) <> Q.OutOfFuel) /\
  (Q.full_len (py "abcd") - Q.min_chars args <= Q.tolerance args ->
   main 5%nat [] = Q.final_check args (py "abcd") system_rules w
                     (Q.initial_state args (py "abcd") [])
   /\ (Q.calls (snd (main 5%nat [])) = 1)%nat) /\
  (0 <= Q.tolerance args -> Q.min_chars args < Q.full_len (py "abcd") ->
   let bound :=
     Z.max 0 (Spec.trial_bound (Q.min_chars args) (Q.full_len (py "abcd"))
                (Q.tolerance args)) in
   Z.of_nat (Q.calls (snd (main 5%nat []))) <= bound + 1 /\
   ((Z.to_nat bound <= 5)%nat -> fst (main 5%nat []) <> Q.OutOfFuel)).
Proof.
  apply (prod_search_terminates (prod_args false 1 0) (py "abcd") system_rules
           (prod_always (Q.Response 200 (jq "{'response': 'fine'}"))) 5 []).
  cbn. lia.
Defined.

(** A transcript of four characters and a service that answers prompts of
    up to 93 characters, the 91 around the transcript and 2 of it: the
    spot-check at full length fails and [best] is the limit, 2. *)
Lemma prod_accuracy_witness :
  let args := prod_args false 1 0 in
  exists enough, forall fuel, (enough <= fuel)%nat ->
    exists st,
      Q.main args (py "abcd") system_rules (answers_up_to 93) fuel []
        = (Q.Finished, st) /\
      (Q.full_len (py "abcd") <= 2 -> Q.best st = Q.full_len (py "abcd")) /\
      (2 < Q.full_len (py "abcd") ->
       match Q.best_meta st with
       | Some _ => Q.min_chars args <= Q.best st <= 2
                   /\ 2 - Q.best st <= Q.tolerance args + 1
       | None => Q.best st = 0 /\ 2 <= Q.min_chars args + Q.tolerance args
       end).
Proof.
  apply (prod_accuracy (prod_args false 1 0) (py "abcd") system_rules
           (answers_up_to 93) 2 []).
  - cbn. lia.
  - cbn. lia.
  - intros st n Hn.
    change (Q.full_len (py "abcd")) with 4 in Hn.
    change (Q.min_chars (prod_args false 1 0)) with 1 in Hn.
    assert (Hc : n = 1 \/ n = 2 \/ n = 3 \/ n = 4) by lia.
    destruct Hc as [->|[->|[->| ->]]];
      (do 3 eexists; split; [vm_compute; reflexivity|]);
      (split; intros H; [try lia; discriminate H | try reflexivity; lia]).
  - intros i v. reflexivity.
Defined.

Lemma preview_single_line_witness :
  exists rr,
    P.run_once (ucd := ascii_ucd) (answers "{'response': 'fine'}" 0%nat)
      [] [] [] [] false false (Float []) 0 0 0 = Return rr /\
    ~ In 10%N (P.response_preview rr) /\
    len (P.response_preview rr) <= 221 /\
    (len (P.response_preview rr) = 221 ->
     exists cut, P.response_preview rr = cut ++ [8230%N]).
Proof.
  eexists. split; [vm_compute; reflexivity|].
  apply (preview_single_line (ucd := ascii_ucd)
           (answers "{'response': 'fine'}" 0%nat)
           [] [] [] [] false false (Float []) 0 0 0).
  vm_compute. reflexivity.
Defined.

Lemma classify_outcome_ignores_space_witness :
  P.classify_outcome (ucd := ascii_ucd)
    (PStr (py "  " ++ py "fine" ++ [10%N])) false PNone
  = P.classify_outcome (ucd := ascii_ucd) (PStr (py "fine")) false PNone.
Proof.
  apply (classify_outcome_ignores_space (ucd := ascii_ucd)
           (py "  ") (py "fine") [10%N] false PNone); reflexivity.
Defined.

Lemma ok_json_is_object_witness :
  let t := strip (jq "Here it is: {'a': 1}.") in
  exists items,
    Json.loads (slice t (find 123 t) (rfind 125 t + 1)) = Some (PDict items).
Proof.
  apply (ok_json_is_object (ucd := ascii_ucd)
           (jq "Here it is: {'a': 1}.") (PStr (py "stop"))).
  vm_compute. reflexivity.
Defined.

(** A [response] that is [0.0]: the attempt returns, with an empty text. *)
Lemma prod_attempt_returns_iff_witness :
  let args := prod_args false 1 0 in
  let w := prod_always (Q.Response 200 (jq "{'response': 0.0}")) in
  let st := Q.initial_state args (py "abcd") [] in
  let items := [(py "response", PFloat (py "0.0"))] in
  ((exists r, Q.a_result (Q.attempt args (py "abcd") system_rules w st 2)
              = Return r) <->
   exists items' s,
     PDict items = PDict items' /\
     py_or (dict_get items' (py "response") (PStr [])) (PStr []) = PStr s) /\
  (forall ok txt meta,
     Q.a_result (Q.attempt args (py "abcd") system_rules w st 2)
     = Return (ok, txt, meta) ->
     exists items',
       PDict items = PDict items' /\
       py_or (dict_get items' (py "response") (PStr [])) (PStr []) = PStr txt /\
       (ok = true -> strip txt <> [])).
Proof.
  apply (prod_attempt_returns_iff (prod_args false 1 0) (py "abcd")
           system_rules
           (prod_always (Q.Response 200 (jq "{'response': 0.0}")))
           (Q.initial_state (prod_args false 1 0) (py "abcd") []) 2 200
           (jq "{'response': 0.0}")
           (PDict [(py "response", PFloat (py "0.0"))])).
  - intros req. reflexivity.
  - intros v. reflexivity.
  - lia.
  - vm_compute. reflexivity.
Defined.

(** The page of an HTTP 500, a plain sentence: the trial returns with
    status 500 and outcome OK_TEXT, a success for the search. *)
Lemma run_once_on_raw_witness :
  let env := always (RaisedHTTPError (Some 500) (py "Internal Server Error"))
               0%nat in
  exists rr o,
    P.run_once (ucd := ascii_ucd) env [] [] [] [] false false (Float []) 0 0 0
      = Return rr /\
    P.classify_outcome (ucd := ascii_ucd)
      (PStr (lstrip (py "Internal Server Error"))) false (PStr (py "unknown"))
      = Return o /\
    P.outcome rr = o /\ P.http_status rr = 500 /\
    is_success o = true.
Proof.
  intros env.
  destruct (run_once_on_raw (ucd := ascii_ucd) env 500
              (py "Internal Server Error") [] [] [] [] false false
              (Float []) 0 0 0)
    as (rr & o & Hr & Ho & Hout & Hs).
  - intros req. right. reflexivity.
  - left. reflexivity.
  - exists rr, o. repeat split; try assumption.
    vm_compute in Ho. now injection Ho as <-.
Defined.

Lemma prod_object_is_ok_json_witness :
  P.try_parse_json_output (jq " {'a': [1, 2]} ") = true.
Proof.
  apply (prod_object_is_ok_json (jq " {'a': [1, 2]} "));
    vm_compute; reflexivity.
Defined.

End FurtherScenarios.

Import Dumps.

(* ------------------------------------------------------------------ *)
(** ** What the encoder writes, the decoder reads                      *)
(* ------------------------------------------------------------------ *)

Section EncodedStrings.
Import Json.
Local Open Scope N_scope.

Lemma hexval_hexdigit (d : N) : d < 16 -> hexval (hexdigit d) = Some d.
Proof.
  intros Hd. unfold hexdigit, hexval.
  destruct (N.ltb_spec d 10).
  - replace ((48 <=? 48 + d) && (48 + d <=? 57)) with true.
    + f_equal. lia.
    + symmetry. apply andb_true_intro. split; apply N.leb_le; lia.
  - replace ((48 <=? 87 + d) && (87 + d <=? 57)) with false.
    + replace ((97 <=? 87 + d) && (87 + d <=? 102)) with true.
      * f_equal. lia.
      * symmetry. apply andb_true_intro. split; apply N.leb_le; lia.
    + symmetry. apply andb_false_intro2. apply N.leb_gt. lia.
Qed.

(** The decoder undoes the escape of one character. *)
Lemma scanstring_escape_char (c : N) (s : pystr) :
  scanstring (escape_char c ++ s) = push c (scanstring s).
Proof.
  unfold escape_char.
  destruct (N.eqb_spec c 34) as [->|H34]; [reflexivity|].
  destruct (N.eqb_spec c 92) as [->|H92]; [reflexivity|].
  destruct (N.eqb_spec c 10) as [->|H10]; [reflexivity|].
  destruct (N.eqb_spec c 13) as [->|H13]; [reflexivity|].
  destruct (N.eqb_spec c 9) as [->|H9]; [reflexivity|].
  destruct (N.eqb_spec c 8) as [->|H8]; [reflexivity|].
  destruct (N.eqb_spec c 12) as [->|H12]; [reflexivity|].
  destruct (N.ltb_spec c 32) as [Hlow|Hhigh].
  - cbn [app scanstring].
    change (92 =? 34) with false. change (92 =? 92) with true.
    change (117 =? 117) with true. cbv iota.
    unfold hex4. change (hexval 48) with (Some 0).
    rewrite !hexval_hexdigit
      by (try (apply N.mod_lt; lia);
          apply N.Div0.div_lt_upper_bound; lia).
    replace (((0 * 16 + 0) * 16 + c / 16) * 16 + c mod 16) with c
      by (pose proof (N.div_mod c 16 ltac:(lia)); lia).
    replace (high_surrogate c) with false; [reflexivity|].
    symmetry. unfold high_surrogate. apply andb_false_intro1.
    apply N.leb_gt. lia.
  - cbn [app scanstring].
    replace (c =? 34) with false by (symmetry; now apply N.eqb_neq).
    replace (c =? 92) with false by (symmetry; now apply N.eqb_neq).
    replace (c <=? 31) with false by (symmetry; apply N.leb_gt; lia).
    reflexivity.
Qed.

(** The decoder reads an encoded string back, up to its closing quote. *)
Lemma scanstring_encoded (s rest : pystr) :
  scanstring (flat_map escape_char s ++ 34 :: rest) = Some (s, rest).
Proof.
  induction s as [|c s IH]; cbn [flat_map app].
  - reflexivity.
  - rewrite <- app_assoc, scanstring_escape_char, IH. reflexivity.
Qed.

Lemma hexdigit_printable (d : N) : 32 <= hexdigit d.
Proof. unfold hexdigit. destruct (d <? 10); lia. Qed.

Lemma escape_char_printable (c : N) : printable (escape_char c).
Proof.
  unfold escape_char, printable.
  destruct (c =? 34); [repeat constructor; lia|].
  destruct (c =? 92); [repeat constructor; lia|].
  destruct (c =? 10); [repeat constructor; lia|].
  destruct (c =? 13); [repeat constructor; lia|].
  destruct (c =? 9); [repeat constructor; lia|].
  destruct (c =? 8); [repeat constructor; lia|].
  destruct (c =? 12); [repeat constructor; lia|].
  destruct (N.ltb_spec c 32).
  - repeat constructor; try lia; apply hexdigit_printable.
  - repeat constructor. exact H.
Qed.

Lemma printable_app (a b : pystr) :
  printable a -> printable b -> printable (a ++ b).
Proof. intros Ha Hb. apply Forall_app. now split. Qed.

Lemma encode_basestring_printable (s : pystr) :
  printable (encode_basestring s).
Proof.
  unfold encode_basestring. constructor; [lia|].
  apply printable_app; [|repeat constructor; lia].
  induction s as [|c s IH]; cbn [flat_map]; [constructor|].
  apply printable_app; [apply escape_char_printable|exact IH].
Qed.

End EncodedStrings.

Section EncodedIntegers.
Import Json.
Local Open Scope N_scope.

Lemma digits_value_snoc (ds : pystr) (x : N) :
  digits_value (ds ++ [x]) = (digits_value ds * 10 + Z.of_N (x - 48))%Z.
Proof. unfold digits_value. now rewrite fold_left_app. Qed.

Lemma is_digit_char (k : N) : k < 10 -> is_digit (48 + k) = true.
Proof.
  intros Hk. unfold is_digit. apply andb_true_intro.
  split; apply N.leb_le; lia.
Qed.

(** The digits of a positive number: no leading zero, and the number is
    their value. *)
Lemma digits_of_spec (fuel : nat) :
  forall n acc, 0 < n -> n < 2 ^ N.of_nat fuel ->
  exists d ds,
    digits_of fuel n acc = d :: ds ++ acc /\
    49 <= d <= 57 /\ forallb is_digit ds = true /\
    digits_value (d :: ds) = Z.of_N n.
Proof.
  induction fuel as [|fuel IH]; intros n acc Hpos Hlt.
  - cbn in Hlt. lia.
  - cbn [digits_of].
    pose proof (N.mod_lt n 10 ltac:(lia)) as Hmod.
    pose proof (N.div_mod n 10 ltac:(lia)) as Hdm.
    destruct (N.eqb_spec (n / 10) 0) as [Hz|Hnz].
    + exists (48 + n mod 10), []. cbn [app forallb].
      split; [reflexivity|]. split; [lia|]. split; [reflexivity|].
      unfold digits_value. cbn [fold_left].
      rewrite (N.add_comm 48), N.add_sub.
      rewrite Hdm at 2. rewrite Hz. f_equal. lia.
    + rewrite Nat2N.inj_succ, N.pow_succ_r' in Hlt.
      destruct (IH (n / 10) ((48 + n mod 10) :: acc) ltac:(lia))
        as (d & ds & E & Hd & Hds & Hv).
      { apply N.Div0.div_lt_upper_bound. lia. }
      exists d, (ds ++ [48 + n mod 10]).
      split; [rewrite E, <- app_assoc; reflexivity|].
      split; [exact Hd|]. split.
      * rewrite forallb_app, Hds. cbn [forallb andb].
        now rewrite is_digit_char.
      * change (d :: ds ++ [48 + n mod 10])
          with ((d :: ds) ++ [48 + n mod 10]).
        rewrite digits_value_snoc, Hv.
        rewrite (N.add_comm 48), N.add_sub.
        rewrite Hdm at 3. rewrite N2Z.inj_add, N2Z.inj_mul. lia.
Qed.

Lemma repr_nat_spec (p : positive) :
  exists d ds,
    repr_nat (Npos p) = d :: ds /\
    49 <= d <= 57 /\ forallb is_digit ds = true /\
    digits_value (d :: ds) = Zpos p.
Proof.
  unfold repr_nat.
  destruct (digits_of_spec (S (N.to_nat (N.log2 (Npos p)))) (Npos p) [])
    as (d & ds & E & Hd & Hds & Hv); [lia| |].
  - rewrite Nat2N.inj_succ, N2Nat.id. apply N.log2_spec. lia.
  - exists d, ds. rewrite E, app_nil_r. now repeat split.
Qed.

Lemma stops_not_digit (c : N) (rest : pystr) :
  stops (c :: rest) = true ->
  is_digit c = false /\ (c =? 46) = false /\ (c =? 101) = false
  /\ (c =? 69) = false.
Proof.
  cbn [stops]. intros H. apply negb_true_iff in H.
  repeat (apply orb_false_elim in H as [H ?]). now repeat split.
Qed.

Lemma take_digits_all (ds rest : pystr) :
  forallb is_digit ds = true -> stops rest = true ->
  take_digits (ds ++ rest) = (ds, rest).
Proof.
  intros Hds Hrest. induction ds as [|c ds IH]; cbn [app].
  - destruct rest as [|c rest]; [reflexivity|].
    apply stops_not_digit in Hrest as (Hc & _). cbn [take_digits].
    now rewrite Hc.
  - cbn [forallb] in Hds. apply andb_prop in Hds as [Hc Hds].
    cbn [take_digits]. now rewrite Hc, (IH Hds).
Qed.

Lemma frac_part_stops (rest : pystr) :
  stops rest = true -> frac_part rest = ([], rest).
Proof.
  intros H. unfold frac_part. destruct rest as [|c [|d rest]]; try reflexivity.
  apply stops_not_digit in H as (_ & -> & _). reflexivity.
Qed.

Lemma exp_part_stops (rest : pystr) :
  stops rest = true -> exp_part rest = ([], rest).
Proof.
  intros H. unfold exp_part. destruct rest as [|c rest]; [reflexivity|].
  apply stops_not_digit in H as (_ & _ & -> & ->). reflexivity.
Qed.

(** Rewrites the comparisons of a character known by its bounds with
    other literals. *)
Ltac other_char :=
  repeat match goal with
         | |- context [(?x =? ?k)%N] =>
             is_var x;
             replace (x =? k)%N with false
               by (symmetry; apply N.eqb_neq; lia)
         end.

(** The digits of a positive number, read as a number. *)
Lemma match_number_digits (d : N) (ds rest : pystr) :
  49 <= d <= 57 -> forallb is_digit ds = true -> stops rest = true ->
  int_part (d :: ds ++ rest) = Some (d :: ds, rest).
Proof.
  intros Hd Hds Hrest. cbn [int_part]. other_char.
  replace ((49 <=? d) && (d <=? 57)) with true
    by (symmetry; apply andb_true_intro; split; apply N.leb_le; lia).
  now rewrite take_digits_all.
Qed.

(** The decoder reads the text of an integer back. *)
Lemma reads_int (z : Z) : reads (PInt z) (repr_int z).
Proof.
  intros fuel rest Hrest Hfuel.
  destruct fuel as [|fuel]; [lia|].
  destruct z as [|p|p]; cbn [repr_int].
  - cbn [app scan_once]. change (48 =? 34) with false.
    change (48 =? 123) with false. change (48 =? 91) with false. cbv iota.
    unfold scalar, keyword. cbn [startswith py map list_ascii_of_string].
    cbn [N_of_ascii N_of_digits N.add N.mul N.eqb Pos.eqb andb first_of].
    unfold match_number. cbn [N.eqb Pos.eqb int_part].
    now rewrite (frac_part_stops _ Hrest), (exp_part_stops _ Hrest).
  - destruct (repr_nat_spec p) as (d & ds & -> & Hd & Hds & Hv).
    cbn [app scan_once]. other_char.
    unfold scalar, keyword. cbn [startswith py map list_ascii_of_string].
    cbn [N_of_ascii N_of_digits N.add N.mul andb first_of].
    other_char. cbn [andb first_of].
    unfold match_number. other_char.
    rewrite (match_number_digits d ds rest Hd Hds Hrest).
    rewrite (frac_part_stops _ Hrest), (exp_part_stops _ Hrest).
    now rewrite Hv.
  - destruct (repr_nat_spec p) as (d & ds & -> & Hd & Hds & Hv).
    cbn [app scan_once]. change (45 =? 34) with false.
    change (45 =? 123) with false. change (45 =? 91) with false. cbv iota.
    unfold scalar, keyword. cbn [startswith py map list_ascii_of_string].
    cbn [N_of_ascii N_of_digits N.add N.mul N.eqb Pos.eqb andb first_of].
    other_char. cbn [andb first_of].
    unfold match_number. change (45 =? 45) with true. cbv iota.
    rewrite (match_number_digits d ds rest Hd Hds Hrest).
    rewrite (frac_part_stops _ Hrest), (exp_part_stops _ Hrest).
    now rewrite Hv.
Qed.

Lemma repr_int_printable (z : Z) : printable (repr_int z).
Proof.
  assert (H : forall p, printable (repr_nat (Npos p))).
  { intros p. destruct (repr_nat_spec p) as (d & ds & -> & Hd & Hds & _).
    constructor; [lia|]. unfold printable. rewrite Forall_forall.
    rewrite forallb_forall in Hds. intros x Hx. apply Hds in Hx.
    unfold is_digit in Hx. apply andb_prop in Hx as [Hx _].
    apply N.leb_le in Hx. lia. }
  destruct z as [|p|p]; cbn [repr_int].
  - repeat constructor. lia.
  - apply H.
  - constructor; [lia|apply H].
Qed.

End EncodedIntegers.

Import Dumps.

Section EncodedValues.
Import Json.

Lemma reads_null : reads PNone (py "null").
Proof. intros [|fuel] rest _ Hf; [lia|reflexivity]. Qed.

Lemma reads_true : reads (PBool true) (py "true").
Proof. intros [|fuel] rest _ Hf; [lia|reflexivity]. Qed.

Lemma reads_false : reads (PBool false) (py "false").
Proof. intros [|fuel] rest _ Hf; [lia|reflexivity]. Qed.

(** The decoder reads an encoded string back. *)
Lemma reads_str (s : pystr) : reads (PStr s) (encode_basestring s).
Proof.
  intros [|fuel] rest _ Hf; [lia|].
  unfold encode_basestring. cbn [app scan_once].
  change (34 =? 34)%N with true. cbv iota.
  rewrite <- app_assoc. cbn [app]. now rewrite scanstring_encoded.
Qed.

(** A text that is read as a value starts with a character that is no
    white space and closes nothing. *)
Lemma reads_head (v : pyval) (text : pystr) :
  reads v text ->
  exists c t, text = c :: t /\ is_ws c = false
              /\ (c =? 93)%N = false /\ (c =? 125)%N = false.
Proof.
  intros H.
  specialize (H (S (2 * List.length text)) [] eq_refl
                ltac:(rewrite app_nil_r; lia)).
  rewrite app_nil_r in H.
  destruct text as [|c t]; [discriminate|].
  exists c, t. split; [reflexivity|].
  assert (Hbad : forall k : N,
            In k [32; 9; 10; 13; 93; 125]%N -> c <> k).
  { intros k Hk ->. cbn [In] in Hk.
    repeat (destruct Hk as [<-|Hk]; [discriminate H|]). exact Hk. }
  unfold is_ws.
  repeat match goal with
         | |- context [(c =? ?k)%N] =>
             replace (c =? k)%N with false
               by (symmetry; apply N.eqb_neq; apply Hbad; cbn; tauto)
         end.
  now repeat split.
Qed.

Lemma skip_ws_head (c : N) (s : pystr) :
  is_ws c = false -> skip_ws (c :: s) = c :: s.
Proof. intros H. unfold skip_ws. cbn [dropwhile]. now rewrite H. Qed.

Lemma join_cons (sep x : pystr) (rest : list pystr) :
  join sep (x :: rest)
  = x ++ match rest with [] => [] | _ :: _ => sep ++ join sep rest end.
Proof. destruct rest; cbn [join]; [now rewrite app_nil_r|reflexivity]. Qed.

(** The elements of an array, each read as its value. *)
Lemma elements_reads (tvs : list (pystr * pyval)) :
  tvs <> [] ->
  Forall (fun tv => reads (snd tv) (fst tv)) tvs ->
  forall fuel acc rest,
    (2 * List.length (join (py ", ") (map fst tvs) ++ 93%N :: rest) + 1
     < fuel)%nat ->
    elements fuel (join (py ", ") (map fst tvs) ++ 93%N :: rest) acc
    = Scanned (PList (rev acc ++ map snd tvs)) rest.
Proof.
  induction tvs as [|[text v] tvs IH]; [congruence|].
  intros _ Hall fuel acc rest Hf.
  inversion Hall as [|? ? Hv Hrest]; subst. cbn [fst snd] in Hv.
  destruct fuel as [|fuel]; [lia|].
  destruct tvs as [|[text2 v2] tvs'].
  - cbn [map fst snd join] in Hf |- *. cbn [elements].
    rewrite (Hv fuel (93%N :: rest) eq_refl ltac:(lia)).
    rewrite skip_ws_head by reflexivity.
    change (93 =? 93)%N with true. cbv iota. reflexivity.
  - set (tvs := (text2, v2) :: tvs') in *.
    set (more := join (py ", ") (map fst tvs) ++ 93%N :: rest).
    assert (E : join (py ", ") (map fst ((text, v) :: tvs)) ++ 93%N :: rest
                = text ++ 44%N :: 32%N :: more).
    { unfold more, tvs. cbn [map fst join]. now rewrite <- !app_assoc. }
    rewrite E in Hf |- *. clear E. cbn [elements].
    rewrite (Hv fuel (44%N :: 32%N :: more) eq_refl ltac:(lia)).
    rewrite skip_ws_head by reflexivity.
    change (44 =? 93)%N with false. change (44 =? 44)%N with true. cbv iota.
    assert (Hmore : skip_ws (32%N :: more) = more).
    { inversion Hrest as [|? ? Hv2 _]; subst. cbn [fst snd] in Hv2.
      destruct (reads_head _ _ Hv2) as (c & t & -> & Hc & _).
      unfold more, tvs. cbn [map fst]. rewrite join_cons. cbn [app].
      transitivity (skip_ws (c :: (t ++ match map fst tvs' with
                                        | [] => []
                                        | _ :: _ =>
                                            py ", " ++ join (py ", ") (map fst tvs')
                                        end) ++ 93%N :: rest));
        [reflexivity|now apply skip_ws_head]. }
    rewrite Hmore. unfold more in *.
    rewrite (IH ltac:(discriminate) Hrest fuel (v :: acc) rest).
    + cbn [rev map snd]. now rewrite <- app_assoc.
    + rewrite length_app in Hf. cbn [List.length] in Hf. lia.
Qed.

(** The decoder reads an array of texts as the list of their values. *)
Lemma reads_list (tvs : list (pystr * pyval)) :
  Forall (fun tv => reads (snd tv) (fst tv)) tvs ->
  reads (PList (map snd tvs))
        (py "[" ++ join (py ", ") (map fst tvs) ++ py "]").
Proof.
  intros Hall [|fuel] rest _ Hf; [lia|].
  assert (E : (py "[" ++ join (py ", ") (map fst tvs) ++ py "]") ++ rest
              = 91%N :: join (py ", ") (map fst tvs) ++ 93%N :: rest).
  { cbn [py map list_ascii_of_string app]. now rewrite <- app_assoc. }
  rewrite E in Hf |- *. clear E. cbn [scan_once].
  change (91 =? 34)%N with false. change (91 =? 123)%N with false.
  change (91 =? 91)%N with true. cbv iota.
  destruct tvs as [|[text v] tvs'].
  - cbn [map join app]. rewrite skip_ws_head by reflexivity.
    change (93 =? 93)%N with true. reflexivity.
  - inversion Hall as [|? ? Hv _]; subst. cbn [fst snd] in Hv.
    destruct (reads_head _ _ Hv) as (c & t & Et & Hc & Hb & _).
    match goal with |- context [skip_ws ?X] => set (J := X) in * end.
    assert (Es : exists s, J = c :: s).
    { unfold J. cbn [map fst]. rewrite join_cons, Et. cbn [app]. eauto. }
    destruct Es as [s Es].
    assert (Esk : skip_ws J = J) by (rewrite Es; now apply skip_ws_head).
    rewrite Esk. rewrite Es at 1. rewrite Hb. unfold J in *.
    rewrite (elements_reads ((text, v) :: tvs') ltac:(discriminate) Hall
               fuel [] rest); [reflexivity|].
    cbn [List.length] in Hf. lia.
Qed.

Lemma member_app (k text tail : pystr) :
  member (k, text) ++ tail
  = 34%N :: flat_map escape_char k ++ 34%N :: 58%N :: 32%N :: text ++ tail.
Proof.
  unfold member, encode_basestring. cbn [fst snd py map list_ascii_of_string].
  cbn [app]. now rewrite <- !app_assoc.
Qed.

Lemma skip_ws_space (s : pystr) : skip_ws (32%N :: s) = skip_ws s.
Proof. reflexivity. Qed.

(** The members of an object, each value read as itself. *)
Lemma members_reads (fields : list (pystr * (pystr * pyval))) :
  fields <> [] ->
  Forall (fun f => reads (snd (snd f)) (fst (snd f))) fields ->
  forall fuel acc rest,
    (2 * List.length
           (join (py ", ") (map (fun f => member (fst f, fst (snd f))) fields)
            ++ 125%N :: rest) < fuel)%nat ->
    members fuel
      (join (py ", ") (map (fun f => member (fst f, fst (snd f))) fields)
       ++ 125%N :: rest) acc
    = Scanned (PDict (rev acc ++ map (fun f => (fst f, snd (snd f))) fields))
              rest.
Proof.
  induction fields as [|[k [text v]] fields IH]; [congruence|].
  intros _ Hall fuel acc rest Hf.
  inversion Hall as [|? ? Hv Hrest]; subst. cbn [fst snd] in Hv.
  destruct (reads_head _ _ Hv) as (c & t & Et & Hc & _).
  destruct fuel as [|fuel]; [lia|].
  set (tail := match fields with
               | [] => 125%N :: rest
               | _ :: _ =>
                   44%N :: 32%N ::
                   join (py ", ")
                     (map (fun f => member (fst f, fst (snd f))) fields)
                   ++ 125%N :: rest
               end).
  assert (E : join (py ", ")
                (map (fun f => member (fst f, fst (snd f)))
                     ((k, (text, v)) :: fields)) ++ 125%N :: rest
              = 34%N :: flat_map escape_char k
                ++ 34%N :: 58%N :: 32%N :: text ++ tail).
  { rewrite <- member_app. unfold tail. cbn [map fst snd]. rewrite join_cons.
    destruct fields; cbn [map]; rewrite <- ?app_assoc; reflexivity. }
  rewrite E in Hf |- *. clear E. cbn [members].
  change (34 =? 34)%N with true. cbv iota.
  rewrite scanstring_encoded.
  rewrite skip_ws_head by reflexivity.
  change (58 =? 58)%N with true. cbv iota.
  rewrite skip_ws_space.
  assert (Es : skip_ws (text ++ tail) = text ++ tail).
  { rewrite Et. cbn [app]. now apply skip_ws_head. }
  rewrite Es.
  assert (Hstop : stops tail = true) by (unfold tail; now destruct fields).
  rewrite (Hv fuel tail Hstop).
  2: { cbn [List.length] in Hf. rewrite !length_app in Hf.
       cbn [List.length] in Hf. lia. }
  unfold tail in *. destruct fields as [|[k2 [text2 v2]] fields'].
  - rewrite skip_ws_head by reflexivity.
    change (125 =? 125)%N with true. cbv iota. reflexivity.
  - rewrite skip_ws_head by reflexivity.
    change (44 =? 125)%N with false. change (44 =? 44)%N with true. cbv iota.
    rewrite skip_ws_space.
    set (fields := (k2, (text2, v2)) :: fields') in *.
    assert (Em : exists s,
              join (py ", ")
                (map (fun f => member (fst f, fst (snd f))) fields)
              ++ 125%N :: rest = 34%N :: s).
    { unfold fields. cbn [map fst snd]. rewrite join_cons.
      unfold member at 1, encode_basestring. cbn [fst app]. eauto. }
    destruct Em as [s Em].
    assert (Esk : skip_ws
                    (join (py ", ")
                       (map (fun f => member (fst f, fst (snd f))) fields)
                     ++ 125%N :: rest)
                  = join (py ", ")
                      (map (fun f => member (fst f, fst (snd f))) fields)
                    ++ 125%N :: rest).
    { rewrite Em. now apply skip_ws_head. }
    rewrite Esk.
    rewrite (IH ltac:(discriminate) Hrest fuel ((k, v) :: acc) rest).
    + cbn [rev map fst snd]. now rewrite <- app_assoc.
    + repeat first [rewrite length_app in Hf
                   |progress cbn [List.length] in Hf].
      repeat first [rewrite length_app|progress cbn [List.length]].
      lia.
Qed.

(** The decoder reads an object of texts as the dictionary of their
    values. *)
Lemma reads_object (fields : list (pystr * (pystr * pyval))) :
  Forall (fun f => reads (snd (snd f)) (fst (snd f))) fields ->
  reads (PDict (map (fun f => (fst f, snd (snd f))) fields))
        (object_text (map (fun f => (fst f, fst (snd f))) fields)).
Proof.
  intros Hall [|fuel] rest _ Hf; [lia|].
  assert (E : object_text (map (fun f => (fst f, fst (snd f))) fields) ++ rest
              = 123%N ::
                join (py ", ")
                  (map (fun f => member (fst f, fst (snd f))) fields)
                ++ 125%N :: rest).
  { unfold object_text. cbn [py map list_ascii_of_string app].
    rewrite map_map. now rewrite <- app_assoc. }
  rewrite E in Hf |- *. clear E. cbn [scan_once].
  change (123 =? 34)%N with false. change (123 =? 123)%N with true. cbv iota.
  destruct fields as [|[k [text v]] fields'].
  - cbn [map join app]. rewrite skip_ws_head by reflexivity.
    change (125 =? 125)%N with true. reflexivity.
  - set (fields := (k, (text, v)) :: fields') in *.
    assert (Em : exists s,
              join (py ", ")
                (map (fun f => member (fst f, fst (snd f))) fields)
              ++ 125%N :: rest = 34%N :: s).
    { unfold fields. cbn [map fst snd]. rewrite join_cons.
      unfold member at 1, encode_basestring. cbn [fst app]. eauto. }
    destruct Em as [s Em].
    assert (Esk : skip_ws
                    (join (py ", ")
                       (map (fun f => member (fst f, fst (snd f))) fields)
                     ++ 125%N :: rest)
                  = join (py ", ")
                      (map (fun f => member (fst f, fst (snd f))) fields)
                    ++ 125%N :: rest).
    { rewrite Em. now apply skip_ws_head. }
    rewrite Esk. rewrite Em at 1. change (34 =? 125)%N with false. cbv iota.
    rewrite (members_reads fields ltac:(discriminate) Hall fuel [] rest).
    + reflexivity.
    + cbn [List.length] in Hf. lia.
Qed.

End EncodedValues.

Section NestedValues.

(** Induction on a value, through the items of its lists and
    dictionaries. *)
Lemma pyval_nested_ind (P : pyval -> Prop) :
  P PNone -> (forall b, P (PBool b)) -> (forall z, P (PInt z)) ->
  (forall x, P (PFloat x)) -> (forall s, P (PStr s)) ->
  (forall items, Forall P items -> P (PList items)) ->
  (forall items, Forall (fun kv => P (snd kv)) items -> P (PDict items)) ->
  forall v, P v.
Proof.
  intros HN HB HI HF HS HL HD. fix IH 1.
  intros [|b|z|x|s|items|items].
  - exact HN.
  - apply HB.
  - apply HI.
  - apply HF.
  - apply HS.
  - apply HL. induction items as [|a items IHi]; constructor;
      [apply IH|exact IHi].
  - apply HD. induction items as [|[k a] items IHi]; constructor;
      [apply IH|exact IHi].
Qed.

Context {A B : Type}.
Variable g : A -> B.

Notation on_values := (fun kv : pystr * A => (fst kv, g (snd kv))).

Lemma dict_set_map (k : pystr) (v : A) (d : list (pystr * A)) :
  dict_set k (g v) (map on_values d) = map on_values (dict_set k v d).
Proof.
  induction d as [|[k' v'] d IH]; cbn [map dict_set fst snd];
    [reflexivity|].
  destruct (str_eqb k' k); cbn [map fst snd]; [reflexivity|].
  now rewrite <- IH.
Qed.

(** Making a dictionary of pairs and changing their values commute. *)
Lemma as_dict_map (pairs : list (pystr * A)) :
  as_dict (map on_values pairs) = map on_values (as_dict pairs).
Proof.
  unfold as_dict.
  change (@nil (pystr * B)) with (map on_values []).
  generalize (@nil (pystr * A)) as d.
  induction pairs as [|[k v] pairs IH]; intros d; cbn [map fold_left];
    [reflexivity|].
  cbn [fst snd]. rewrite dict_set_map. apply IH.
Qed.

Variable R : A -> Prop.

Lemma dict_set_Forall (k : pystr) (v : A) (d : list (pystr * A)) :
  R v -> Forall (fun kv => R (snd kv)) d ->
  Forall (fun kv => R (snd kv)) (dict_set k v d).
Proof.
  intros Hv. induction d as [|[k' v'] d IH]; intros Hd; cbn [dict_set].
  - now repeat constructor.
  - inversion Hd as [|? ? H1 H2]; subst.
    destruct (str_eqb k' k); constructor; auto.
Qed.

(** The values of the dictionary are values of the pairs. *)
Lemma as_dict_Forall (pairs : list (pystr * A)) :
  Forall (fun kv => R (snd kv)) pairs ->
  Forall (fun kv => R (snd kv)) (as_dict pairs).
Proof.
  unfold as_dict. intros H.
  assert (H0 : Forall (fun kv => R (snd kv)) (@nil (pystr * A)))
    by constructor.
  revert H0. generalize (@nil (pystr * A)) as d.
  induction H as [|[k v] pairs Hv Hp IH]; intros d Hd; cbn [fold_left];
    [exact Hd|].
  apply IH. now apply dict_set_Forall.
Qed.

End NestedValues.

Import Dumps.

(* ------------------------------------------------------------------ *)
(** ** The lines of the log, as text                                   *)
(* ------------------------------------------------------------------ *)

Section LogText.
Variable float_text : pystr -> pystr.
Variable rounded_text : rounded -> pystr.

Notation dumps := (dumps float_text).
Notation reread := (reread float_text).
Notation log_text := (log_text float_text rounded_text).
Notation log_value := (log_value float_text rounded_text).

(** What [json.dumps] writes of a decoded value, [json.loads] reads back as
    that value, provided it does so for the floats. *)
Lemma dumps_reads :
  (forall x, reads (PFloat (float_text x)) (float_text x)) ->
  forall v, reads (reread v) (dumps v).
Proof.
  intros Hfloat. apply pyval_nested_ind.
  - apply reads_null.
  - intros [|]; [apply reads_true|apply reads_false].
  - apply reads_int.
  - apply Hfloat.
  - apply reads_str.
  - intros items Hall. cbn [Dumps.dumps Dumps.reread].
    pose proof (reads_list (map (fun v => (dumps v, reread v)) items)) as H.
    rewrite !map_map in H. cbn [fst snd] in H. apply H.
    rewrite Forall_map. exact Hall.
  - intros items Hall. cbn [Dumps.dumps Dumps.reread].
    set (fields := as_dict (map (fun kv => (fst kv, (dumps (snd kv), reread (snd kv))))
                             items)).
    pose proof (reads_object fields) as H.
    assert (E1 : map (fun f : pystr * (pystr * pyval) => (fst f, fst (snd f))) fields
                 = as_dict (map (fun kv => (fst kv, dumps (snd kv))) items)).
    { unfold fields. rewrite <- (as_dict_map (@fst pystr pyval)).
      now rewrite map_map. }
    assert (E2 : map (fun f : pystr * (pystr * pyval) => (fst f, snd (snd f))) fields
                 = as_dict (map (fun kv => (fst kv, reread (snd kv))) items)).
    { unfold fields. rewrite <- (as_dict_map (@snd pystr pyval)).
      now rewrite map_map. }
    rewrite E1, E2 in H. apply H.
    unfold fields.
    apply (as_dict_Forall (fun tv : pystr * pyval => reads (snd tv) (fst tv))).
    rewrite Forall_map. exact Hall.
Qed.

Lemma join_printable (sep : pystr) (parts : list pystr) :
  printable sep -> Forall printable parts -> printable (join sep parts).
Proof.
  intros Hsep Hall. induction Hall as [|x rest Hx Hrest IH]; [constructor|].
  rewrite join_cons. apply printable_app; [exact Hx|].
  destruct rest; [constructor|]. apply printable_app; assumption.
Qed.

Lemma py_printable_brackets :
  printable (py "[") /\ printable (py "]") /\ printable (py "{")
  /\ printable (py "}") /\ printable (py ", ") /\ printable (py ": ").
Proof. repeat split; repeat constructor; cbn; lia. Qed.

Lemma object_text_printable (members : list (pystr * pystr)) :
  Forall (fun m => printable (snd m)) members -> printable (object_text members).
Proof.
  intros Hall. destruct py_printable_brackets as (_ & _ & H1 & H2 & H3 & H4).
  unfold object_text.
  apply printable_app; [exact H1|]. apply printable_app; [|exact H2].
  apply join_printable; [exact H3|]. rewrite Forall_map.
  eapply Forall_impl; [|exact Hall]. intros [k text] Ht. unfold member.
  apply printable_app; [apply encode_basestring_printable|].
  apply printable_app; [exact H4|exact Ht].
Qed.

(** [json.dumps] writes no control character, provided it writes none for
    the floats. *)
Lemma dumps_printable :
  (forall x, printable (float_text x)) -> forall v, printable (dumps v).
Proof.
  intros Hfloat. destruct py_printable_brackets as (H1 & H2 & _ & _ & H3 & _).
  apply pyval_nested_ind.
  - repeat constructor; cbn; lia.
  - intros [|]; repeat constructor; cbn; lia.
  - apply repr_int_printable.
  - apply Hfloat.
  - apply encode_basestring_printable.
  - intros items Hall. cbn [Dumps.dumps].
    apply printable_app; [exact H1|]. apply printable_app; [|exact H2].
    apply join_printable; [exact H3|]. now rewrite Forall_map.
  - intros items Hall. cbn [Dumps.dumps]. apply object_text_printable.
    apply (as_dict_Forall printable). now rewrite Forall_map.
Qed.

(** A line of the log is one line of text: a line feed ends it, and it
    holds no other control character, provided the texts of the floats
    hold none. *)
Theorem log_line_is_one_line (l : P.LogLine) :
  (forall x, printable (float_text x)) ->
  (forall r, printable (rounded_text r)) ->
  exists body, log_text l = body ++ [10%N] /\ printable body.
Proof.
  intros Hfloat Hrounded. unfold Dumps.log_text.
  eexists. split; [reflexivity|].
  apply object_text_printable.
  repeat (apply Forall_cons;
          [cbn [snd];
           first [apply repr_int_printable | apply Hrounded
                 | apply (dumps_printable Hfloat)
                 | apply encode_basestring_printable]|]).
  apply Forall_nil.
Qed.

(** [json.loads] reads a line of the log back as the dictionary of its
    thirteen fields, in the order [write_log_line] gave them, provided it
    reads the texts of the floats back as floats. *)
Theorem log_line_reads_back (l : P.LogLine) :
  (forall x, reads (PFloat (float_text x)) (float_text x)) ->
  (forall r, reads (PFloat (rounded_text r)) (rounded_text r)) ->
  Json.loads (log_text l) = Some (log_value l).
Proof.
  intros Hfloat Hrounded.
  pose proof (reads_object
    [ (py "n_chars", (repr_int (P.l_n_chars l), PInt (P.l_n_chars l)));
      (py "elapsed_s", (rounded_text (P.l_elapsed_s l),
                        PFloat (rounded_text (P.l_elapsed_s l))));
      (py "http_status", (repr_int (P.l_http_status l),
                          PInt (P.l_http_status l)));
      (py "done_reason", (dumps (P.l_done_reason l),
                          reread (P.l_done_reason l)));
      (py "eval_count", (dumps (P.l_eval_count l),
                         reread (P.l_eval_count l)));
      (py "prompt_eval_count", (dumps (P.l_prompt_eval_count l),
                                reread (P.l_prompt_eval_count l)));
      (py "total_duration", (dumps (P.l_total_duration l),
                             reread (P.l_total_duration l)));
      (py "raw_response_len", (repr_int (P.l_raw_response_len l),
                               PInt (P.l_raw_response_len l)));
      (py "outcome", (encode_basestring (outcome_name (P.l_outcome l)),
                      PStr (outcome_name (P.l_outcome l))));
      (py "preview", (encode_basestring (P.l_preview l),
                      PStr (P.l_preview l)));
      (py "search_lo", (repr_int (P.l_search_lo l), PInt (P.l_search_lo l)));
      (py "search_hi", (repr_int (P.l_search_hi l), PInt (P.l_search_hi l)));
      (py "ts", (encode_basestring (P.l_ts l), PStr (P.l_ts l))) ]) as H.
  cbn [map fst snd] in H.
  specialize (H ltac:(repeat (apply Forall_cons;
                               [cbn [fst snd];
                                first [apply reads_int | apply Hrounded
                                      | apply (dumps_reads Hfloat)
                                      | apply reads_str]|]);
                      apply Forall_nil)).
  unfold Dumps.log_text, Dumps.log_value, Json.loads.
  set (text := object_text _) in *.
  assert (Eo : exists s, text = 123%N :: s) by (unfold text, object_text; cbn; eauto).
  destruct Eo as [s Eo].
  replace (startswith (text ++ [10%N]) [65279%N]) with false
    by (rewrite Eo; reflexivity).
  replace (Json.skip_ws (text ++ [10%N])) with (text ++ [10%N])
    by (rewrite Eo; reflexivity).
  rewrite (H (S (2 * List.length (text ++ [10%N]))) [10%N] eq_refl
             ltac:(lia)).
  reflexivity.
Qed.

End LogText.

Import Dumps.


Section LogTextScenario.
Import Runs Samples.

(** A float text that the decoder reads back. *)
Lemma reads_float_literal : reads (PFloat (py "1.5")) (py "1.5").
Proof.
  intros [|fuel] rest Hstop Hf; [lia|].
  change (py "1.5" ++ rest) with (49%N :: 46%N :: 53%N :: rest).
  cbn [Json.scan_once]. change (49 =? 34)%N with false.
  change (49 =? 123)%N with false. change (49 =? 91)%N with false. cbv iota.
  unfold Json.scalar, Json.keyword.
  cbn [startswith py map list_ascii_of_string].
  cbn [N_of_ascii N_of_digits N.add N.mul N.eqb Pos.eqb andb Json.first_of].
  unfold Json.match_number. cbn [N.eqb Pos.eqb Json.int_part].
  cbn [Json.take_digits Json.is_digit N.leb N.compare Pos.compare
       Pos.compare_cont andb Json.frac_part N.eqb Pos.eqb].
  pose proof (take_digits_all [] rest eq_refl Hstop) as Ht.
  cbn [app] in Ht. rewrite Ht.
  now rewrite (exp_part_stops rest Hstop).
Qed.

Lemma log_line_is_one_line_witness :
  exists body,
    log_text (fun _ => py "1.5") (fun _ => py "1.5") sample_line
      = body ++ [10%N]
    /\ printable body.
Proof.
  apply (log_line_is_one_line (fun _ => py "1.5") (fun _ => py "1.5")
           sample_line);
    intros _; repeat constructor; cbn; lia.
Defined.

Lemma log_line_reads_back_witness :
  Json.loads (log_text (fun _ => py "1.5") (fun _ => py "1.5") sample_line)
  = Some (log_value (fun _ => py "1.5") (fun _ => py "1.5") sample_line).
Proof.
  apply (log_line_reads_back (fun _ => py "1.5") (fun _ => py "1.5")
           sample_line);
    intros _; exact reads_float_literal.
Defined.

(** The same line, computed: the text that is written, and what the
    decoder makes of it. *)
Example sample_line_text :
  log_text (fun _ => py "1.5") (fun _ => py "1.5") sample_line
  = jq ("{'n_chars': 6000, 'elapsed_s': 1.5, 'http_status': 200, "
        ++ "'done_reason': 'stop', 'eval_count': 412, "
        ++ "'prompt_eval_count': 1530, 'total_duration': 1.5, "
        ++ "'raw_response_len': 15, 'outcome': 'OK_TEXT', "
        ++ "'preview': 'a full\nanswer', 'search_lo': 2000, "
        ++ "'search_hi': 10000, 'ts': '2026-01-01 00:00:00'}")%string
    ++ [10%N].
Proof. reflexivity. Qed.

End LogTextScenario.

Import Dumps.
Import Requests.

(* ------------------------------------------------------------------ *)
(** ** What the service is sent                                        *)
(* ------------------------------------------------------------------ *)

Section AsciiStrings.
Import Json.
Local Open Scope N_scope.

Lemma land_15 (x : N) : N.land x 15 = x mod 16.
Proof. change 15 with (N.ones 4). now rewrite N.land_ones. Qed.

Lemma land_1023 (x : N) : N.land x 1023 = x mod 1024.
Proof. change 1023 with (N.ones 10). now rewrite N.land_ones. Qed.

(** The decoder reads four hexadecimal digits back. *)
Lemma hex4_hex4_text (u : N) :
  u < 65536 ->
  hex4 (hexdigit (N.land (N.shiftr u 12) 15))
       (hexdigit (N.land (N.shiftr u 8) 15))
       (hexdigit (N.land (N.shiftr u 4) 15))
       (hexdigit (N.land u 15)) = Some u.
Proof.
  intros Hu. rewrite !land_15, !N.shiftr_div_pow2.
  change (2 ^ 12) with 4096. change (2 ^ 8) with 256. change (2 ^ 4) with 16.
  unfold hex4.
  rewrite !hexval_hexdigit by (apply N.mod_lt; lia).
  f_equal.
  pose proof (N.div_mod u 16 ltac:(lia)) as H0.
  pose proof (N.div_mod (u / 16) 16 ltac:(lia)) as H1.
  pose proof (N.div_mod (u / 256) 16 ltac:(lia)) as H2.
  rewrite N.Div0.div_div in H1. change (16 * 16) with 256 in H1.
  replace (u / 256 / 16) with (u / 4096) in H2
    by (rewrite N.Div0.div_div; reflexivity).
  assert (H3 : u / 4096 < 16) by (apply N.Div0.div_lt_upper_bound; lia).
  rewrite (N.mod_small (u / 4096) 16 H3). lia.
Qed.

Ltac other_char :=
  repeat match goal with
         | |- context [(?x =? ?k)%N] =>
             is_var x;
             replace (x =? k)%N with false
               by (symmetry; apply N.eqb_neq; lia)
         end.

(** The decoder undoes the ASCII escape of a Unicode scalar value. *)
Lemma scanstring_escape_ascii_char (c : N) (s : pystr) :
  is_scalar c = true ->
  scanstring (escape_ascii_char c ++ s) = push c (scanstring s).
Proof.
  intros Hc. unfold is_scalar in Hc. apply andb_prop in Hc as [Hmax Hsur].
  apply N.leb_le in Hmax. apply negb_true_iff in Hsur.
  unfold escape_ascii_char, plain_ascii.
  destruct (N.leb_spec 32 c) as [H32|H32];
    destruct (N.leb_spec c 126) as [H126|H126]; cbn [andb].
  - (* printable ASCII *)
    destruct (N.eqb_spec c 92) as [->|H92]; [reflexivity|].
    destruct (N.eqb_spec c 34) as [->|H34]; [reflexivity|].
    cbn [negb andb app scanstring]. other_char.
    replace (c <=? 31) with false by (symmetry; apply N.leb_gt; lia).
    reflexivity.
  - (* above ASCII *)
    other_char. destruct (N.leb_spec 65536 c) as [Hbig|Hsmall].
    + (* a surrogate pair *)
      rewrite (N.shiftr_div_pow2 c 10), land_1023. change (2 ^ 10) with 1024.
      cbn [app hex4_text scanstring].
      change (92 =? 34) with false. change (92 =? 92) with true.
      change (117 =? 117) with true. cbv iota.
      pose proof (N.div_mod c 1024 ltac:(lia)) as Hdm.
      pose proof (N.mod_lt c 1024 ltac:(lia)) as Hmod.
      assert (Hq : 64 <= c / 1024 <= 1087).
      { split; [apply N.div_le_lower_bound; lia|].
        assert (c / 1024 < 1088)
          by (apply N.Div0.div_lt_upper_bound; lia). lia. }
      set (q := c / 1024) in *. set (m := c mod 1024) in *.
      clearbody q m.
      assert (Hhi : 55296 <= 55296 - 64 + q <= 56319) by lia.
      assert (Hlo : 56320 <= 56320 + m <= 57343) by lia.
      assert (Hj : 65536 + ((55296 - 64 + q - 55296) * 1024
                           + (56320 + m - 56320)) = c) by lia.
      rewrite (hex4_hex4_text (55296 - 64 + q)) by lia.
      replace (high_surrogate (55296 - 64 + q)) with true
        by (symmetry; unfold high_surrogate; apply andb_true_intro;
            split; apply N.leb_le; apply Hhi).
      change ((92 =? 92) && (117 =? 117)) with true. cbv iota.
      rewrite (hex4_hex4_text (56320 + m)) by lia.
      replace (low_surrogate (56320 + m)) with true
        by (symmetry; unfold low_surrogate; apply andb_true_intro;
            split; apply N.leb_le; apply Hlo).
      unfold join_surrogates. now rewrite Hj.
    + cbn [app hex4_text scanstring].
      change (92 =? 34) with false. change (92 =? 92) with true.
      change (117 =? 117) with true. cbv iota.
      rewrite (hex4_hex4_text c) by lia.
      replace (high_surrogate c) with false; [reflexivity|].
      symmetry. unfold high_surrogate.
      apply andb_false_iff in Hsur as [Hs|Hs]; apply N.leb_gt in Hs;
        [apply andb_false_intro1|apply andb_false_intro2];
        apply N.leb_gt; lia.
  - (* a control character *)
    destruct (N.eqb_spec c 92) as [->|_]; [lia|].
    destruct (N.eqb_spec c 34) as [->|_]; [lia|].
    destruct (N.eqb_spec c 8) as [->|H8]; [reflexivity|].
    destruct (N.eqb_spec c 12) as [->|H12]; [reflexivity|].
    destruct (N.eqb_spec c 10) as [->|H10]; [reflexivity|].
    destruct (N.eqb_spec c 13) as [->|H13]; [reflexivity|].
    destruct (N.eqb_spec c 9) as [->|H9]; [reflexivity|].
    replace (65536 <=? c) with false by (symmetry; apply N.leb_gt; lia).
    cbn [app hex4_text scanstring].
    change (92 =? 34) with false. change (92 =? 92) with true.
    change (117 =? 117) with true. cbv iota.
    rewrite (hex4_hex4_text c) by lia.
    replace (high_surrogate c) with false; [reflexivity|].
    symmetry. unfold high_surrogate. apply andb_false_intro1.
    apply N.leb_gt. lia.
  - lia.
Qed.

Lemma scanstring_encoded_ascii (s rest : pystr) :
  unicode_text s ->
  scanstring (flat_map escape_ascii_char s ++ 34 :: rest) = Some (s, rest).
Proof.
  unfold unicode_text. induction s as [|c s IH]; cbn [flat_map app forallb].
  - reflexivity.
  - intros H. apply andb_prop in H as [Hc Hs].
    rewrite <- app_assoc, (scanstring_escape_ascii_char _ _ Hc), (IH Hs).
    reflexivity.
Qed.

(** The decoder reads an ASCII-encoded string of scalar values back. *)
Lemma reads_ascii_str (s : pystr) :
  unicode_text s -> reads (PStr s) (encode_basestring_ascii s).
Proof.
  intros Hs [|fuel] rest _ Hf; [lia|].
  unfold encode_basestring_ascii. cbn [app scan_once].
  change (34 =? 34) with true. cbv iota.
  rewrite <- app_assoc. cbn [app]. now rewrite scanstring_encoded_ascii.
Qed.

End AsciiStrings.

Section RequestBody.
Local Open Scope N_scope.

Lemma ascii_text_app (a b : pystr) :
  ascii_text a -> ascii_text b -> ascii_text (a ++ b).
Proof. intros Ha Hb. apply Forall_app. now split. Qed.

Lemma hexdigit_ascii (d : N) : d < 16 -> 32 <= hexdigit d <= 126.
Proof. intros Hd. unfold hexdigit. destruct (d <? 10); lia. Qed.

Lemma hex4_text_ascii (u : N) : ascii_text (hex4_text u).
Proof.
  unfold hex4_text. rewrite !land_15.
  repeat constructor; apply hexdigit_ascii; apply N.mod_lt; lia.
Qed.

Lemma escape_ascii_char_ascii (c : N) : ascii_text (escape_ascii_char c).
Proof.
  unfold escape_ascii_char, plain_ascii.
  destruct (N.leb_spec 32 c), (N.leb_spec c 126); cbn [andb];
    repeat match goal with
           | |- context [if negb ?b && _ then _ else _] => destruct b; cbn [negb andb]
           | |- context [if negb ?b then _ else _] => destruct b; cbn [negb andb]
           | |- context [if ?b then _ else _] => destruct b
           end;
    repeat (apply ascii_text_app); try apply hex4_text_ascii;
    repeat constructor; lia.
Qed.

Lemma encode_basestring_ascii_ascii (s : pystr) :
  ascii_text (encode_basestring_ascii s).
Proof.
  unfold encode_basestring_ascii. constructor; [lia|].
  apply ascii_text_app; [|repeat constructor; lia].
  induction s as [|c s IH]; cbn [flat_map]; [constructor|].
  apply ascii_text_app; [apply escape_ascii_char_ascii|exact IH].
Qed.

Lemma repr_int_ascii (z : Z) : ascii_text (repr_int z).
Proof.
  assert (H : forall p, ascii_text (repr_nat (Npos p))).
  { intros p. destruct (repr_nat_spec p) as (d & ds & -> & Hd & Hds & _).
    constructor; [lia|]. unfold ascii_text. rewrite Forall_forall.
    rewrite forallb_forall in Hds. intros x Hx. apply Hds in Hx.
    unfold Json.is_digit in Hx. apply andb_prop in Hx as [H1 H2].
    apply N.leb_le in H1, H2. lia. }
  destruct z as [|p|p]; cbn [repr_int].
  - repeat constructor; lia.
  - apply H.
  - constructor; [lia|apply H].
Qed.

Lemma join_ascii (sep : pystr) (parts : list pystr) :
  ascii_text sep -> Forall ascii_text parts -> ascii_text (join sep parts).
Proof.
  intros Hsep Hall. induction Hall as [|x rest Hx Hrest IH]; [constructor|].
  rewrite join_cons. apply ascii_text_app; [exact Hx|].
  destruct rest; [constructor|]. apply ascii_text_app; assumption.
Qed.

Lemma ascii_object_ascii (members : list (pystr * pystr)) :
  Forall (fun m => ascii_text (snd m)) members ->
  ascii_text (ascii_object members).
Proof.
  intros Hall. unfold ascii_object.
  apply ascii_text_app; [repeat constructor; cbn; lia|].
  apply ascii_text_app; [|repeat constructor; cbn; lia].
  apply join_ascii; [repeat constructor; cbn; lia|]. rewrite Forall_map.
  eapply Forall_impl; [|exact Hall]. intros [k text] Ht. unfold ascii_member.
  apply ascii_text_app; [apply encode_basestring_ascii_ascii|].
  apply ascii_text_app; [repeat constructor; cbn; lia|exact Ht].
Qed.

Lemma bool_json_ascii (b : bool) : ascii_text (bool_json b).
Proof. destruct b; repeat constructor; cbn; lia. Qed.

(** The body of a request is printable ASCII, whatever the prompt holds,
    provided the text of the temperature is. *)
Lemma request_text_ascii (body : payload) :
  ascii_text (float_json (p_temperature body)) ->
  ascii_text (request_text body).
Proof.
  intros Ht. unfold request_text. apply ascii_object_ascii.
  apply Forall_app. split.
  - apply Forall_cons; [apply encode_basestring_ascii_ascii|].
    apply Forall_cons; [apply encode_basestring_ascii_ascii|].
    apply Forall_cons; [apply bool_json_ascii|].
    apply Forall_cons; [|apply Forall_nil].
    apply ascii_object_ascii.
    apply Forall_cons; [exact Ht|].
    apply Forall_cons; [apply repr_int_ascii|].
    apply Forall_cons; [apply repr_int_ascii|apply Forall_nil].
  - destruct (p_format body); [|constructor].
    apply Forall_cons; [apply encode_basestring_ascii_ascii|apply Forall_nil].
Qed.

Lemma reads_bool (b : bool) : reads (PBool b) (bool_json b).
Proof. destruct b; [apply reads_true|apply reads_false]. Qed.

(** A decoder reads the body of a request back as the payload, provided
    its strings are Unicode scalar values and it reads the text of the
    temperature back as a float. *)
Lemma request_text_reads_back (body : payload) :
  unicode_text (p_model body) -> unicode_text (p_prompt body) ->
  (forall f, p_format body = Some f -> unicode_text f) ->
  reads (PFloat (float_json (p_temperature body)))
        (float_json (p_temperature body)) ->
  Json.loads (request_text body) = Some (request_value body).
Proof.
  intros Hmodel Hprompt Hformat Htemp.
  pose proof (reads_object
    [ (py "temperature", (float_json (p_temperature body),
                          PFloat (float_json (p_temperature body))));
      (py "num_ctx", (repr_int (p_num_ctx body), PInt (p_num_ctx body)));
      (py "num_predict", (repr_int (p_num_predict body),
                          PInt (p_num_predict body))) ]) as Hopt.
  specialize (Hopt ltac:(repeat (apply Forall_cons;
                                 [cbn [fst snd];
                                  first [exact Htemp | apply reads_int]|]);
                         apply Forall_nil)).
  cbn [map fst snd] in Hopt.
  set (options_text := object_text _) in Hopt.
  set (options_value := PDict _) in Hopt.
  set (main_fields :=
    [ (py "model", (encode_basestring_ascii (p_model body),
                    PStr (p_model body)));
      (py "prompt", (encode_basestring_ascii (p_prompt body),
                     PStr (p_prompt body)));
      (py "stream", (bool_json (p_stream body), PBool (p_stream body)));
      (py "options", (options_text, options_value)) ]).
  assert (Hmain : Forall (fun f : pystr * (pystr * pyval) =>
                            reads (snd (snd f)) (fst (snd f))) main_fields).
  { unfold main_fields.
    repeat (apply Forall_cons;
            [cbn [fst snd];
             first [now apply reads_ascii_str | apply reads_bool
                   | exact Hopt]|]).
    apply Forall_nil. }
  assert (Hall : forall extra : list (pystr * (pystr * pyval)),
            Forall (fun f => reads (snd (snd f)) (fst (snd f))) extra ->
            Json.loads
              (object_text (map (fun f => (fst f, fst (snd f)))
                              (main_fields ++ extra)))
            = Some (PDict (map (fun f => (fst f, snd (snd f)))
                             (main_fields ++ extra)))).
  { intros extra Hextra.
    pose proof (reads_object (main_fields ++ extra)
                  ltac:(apply Forall_app; now split)) as H.
    unfold Json.loads.
    set (text := object_text (map _ (main_fields ++ extra))) in *.
    assert (Eo : exists s, text = 123 :: s)
      by (unfold text, object_text; cbn; eauto).
    destruct Eo as [s Eo].
    replace (startswith text [65279]) with false by (rewrite Eo; reflexivity).
    replace (Json.skip_ws text) with text by (rewrite Eo; reflexivity).
    assert (Hfuel : (2 * List.length (text ++ [])
                     < S (2 * List.length text))%nat)
      by (rewrite app_nil_r; lia).
    specialize (H (S (2 * List.length text)) [] eq_refl Hfuel).
    rewrite app_nil_r in H. now rewrite H. }
  unfold request_text, request_value.
  destruct (p_format body) as [f|] eqn:Ef.
  - specialize (Hall [(py "format", (encode_basestring_ascii f, PStr f))]
                  ltac:(repeat constructor; cbn [fst snd];
                        apply reads_ascii_str; now apply Hformat)).
    exact Hall.
  - specialize (Hall [] ltac:(constructor)). exact Hall.
Qed.

End RequestBody.

Section RunOnceRequest.

Lemma dropwhile_In (p : N -> bool) (x : N) (s : pystr) :
  In x (dropwhile p s) -> In x s.
Proof.
  induction s as [|c s IH]; cbn [dropwhile]; [easy|].
  destruct (p c); [right; now apply IH|easy].
Qed.

Lemma strip_unicode (s : pystr) : unicode_text s -> unicode_text (strip s).
Proof.
  unfold unicode_text. rewrite !forallb_forall. intros H x Hx. apply H.
  unfold strip, rstrip, lstrip in Hx.
  apply in_rev, dropwhile_In, in_rev, dropwhile_In in Hx. exact Hx.
Qed.

Lemma unicode_text_app (a b : pystr) :
  unicode_text a -> unicode_text b -> unicode_text (a ++ b).
Proof. unfold unicode_text. intros Ha Hb. now rewrite forallb_app, Ha, Hb. Qed.

Lemma build_prompt_unicode (instructions transcript : pystr) :
  unicode_text instructions -> unicode_text transcript ->
  unicode_text (P.build_prompt instructions transcript).
Proof.
  intros Hi Ht. unfold P.build_prompt.
  repeat apply unicode_text_app;
    first [now apply strip_unicode | exact Ht | reflexivity].
Qed.

(** The payload is the one [run_once] builds: a trial depends on the
    network only through its answer to the request that carries it. *)
Lemma run_once_asks {ucd : UnicodeData} (env env' : environment)
    (url model instructions transcript_prefix : pystr)
    (want_json stream : bool) (temperature : pyfloat)
    (num_ctx num_predict timeout_s : Z) :
  net env {| r_url := url;
             r_payload := run_once_payload model instructions
                            transcript_prefix want_json stream temperature
                            num_ctx num_predict;
             r_timeout := timeout_s |}
  = net env' {| r_url := url;
                r_payload := run_once_payload model instructions
                               transcript_prefix want_json stream temperature
                               num_ctx num_predict;
                r_timeout := timeout_s |} ->
  elapsed env = elapsed env' ->
  P.run_once env url model instructions transcript_prefix want_json stream
    temperature num_ctx num_predict timeout_s
  = P.run_once env' url model instructions transcript_prefix want_json stream
      temperature num_ctx num_predict timeout_s.
Proof.
  intros Hnet Helapsed. unfold P.run_once, P.post_ollama.
  fold (run_once_payload model instructions transcript_prefix want_json
          stream temperature num_ctx num_predict).
  now rewrite Hnet, Helapsed.
Qed.

(** X19.  The body [post_ollama] sends for a trial is printable ASCII,
    whatever characters the model name, the instructions and the transcript
    hold (lone surrogates included), as long as the text of the temperature
    is: encoding it as UTF-8, which [post_ollama] does outside its [try],
    changes nothing and cannot fail. *)
Theorem request_body_ascii (model instructions transcript_prefix : pystr)
    (want_json stream : bool) (temperature : pyfloat)
    (num_ctx num_predict : Z) :
  ascii_text (float_json temperature) ->
  ascii_text (request_text (run_once_payload model instructions
                              transcript_prefix want_json stream temperature
                              num_ctx num_predict)).
Proof. intros Ht. apply request_text_ascii. exact Ht. Qed.

(** X20.  A JSON decoder reads the body of a trial's request back as the
    payload [run_once] built: the model name, the prompt of [build_prompt]
    character for character, the stream flag, the three options and, in
    JSON mode only, the format [json]; this for a model name, instructions
    and a transcript of Unicode scalar values, and a temperature whose text
    the decoder reads as a float. *)
Theorem request_body_reads_back (model instructions transcript_prefix : pystr)
    (want_json stream : bool) (temperature : pyfloat)
    (num_ctx num_predict : Z) :
  unicode_text model -> unicode_text instructions ->
  unicode_text transcript_prefix ->
  reads (PFloat (float_json temperature)) (float_json temperature) ->
  Json.loads (request_text (run_once_payload model instructions
                              transcript_prefix want_json stream temperature
                              num_ctx num_predict))
  = Some (PDict
            ([ (py "model", PStr model);
               (py "prompt",
                PStr (P.build_prompt instructions transcript_prefix));
               (py "stream", PBool stream);
               (py "options",
                PDict [ (py "temperature", PFloat (float_json temperature));
                        (py "num_ctx", PInt num_ctx);
                        (py "num_predict", PInt num_predict) ]) ]
             ++ if want_json then [(py "format", PStr (py "json"))] else [])).
Proof.
  intros Hmodel Hins Hprefix Htemp.
  rewrite request_text_reads_back.
  - unfold request_value, run_once_payload. cbn [p_model p_prompt p_stream
      p_temperature p_num_ctx p_num_predict p_format].
    now destruct want_json.
  - exact Hmodel.
  - now apply build_prompt_unicode.
  - cbn [run_once_payload p_format]. intros f Hf.
    destruct want_json; [|discriminate]. now injection Hf as <-.
  - exact Htemp.
Qed.

End RunOnceRequest.

Section RequestScenario.

Lemma request_body_ascii_witness :
  ascii_text (request_text (run_once_payload (py "llama3") (py "Summarise.")
                              [233; 128512; 56832]%N true false
                              (Float (py "1.5")) 8192 256)).
Proof.
  apply (request_body_ascii (py "llama3") (py "Summarise.")
           [233; 128512; 56832]%N true false (Float (py "1.5")) 8192 256).
  repeat constructor; cbn; lia.
Defined.

Lemma request_body_reads_back_witness :
  Json.loads (request_text (run_once_payload (py "llama3") (py "Summarise.")
                              [233; 128512]%N true false
                              (Float (py "1.5")) 8192 256))
  = Some (PDict
            [ (py "model", PStr (py "llama3"));
              (py "prompt",
               PStr (P.build_prompt (py "Summarise.") [233; 128512]%N));
              (py "stream", PBool false);
              (py "options",
               PDict [ (py "temperature", PFloat (py "1.5"));
                       (py "num_ctx", PInt 8192);
                       (py "num_predict", PInt 256) ]);
              (py "format", PStr (py "json")) ]).
Proof.
  apply (request_body_reads_back (py "llama3") (py "Summarise.")
           [233; 128512]%N true false (Float (py "1.5")) 8192 256).
  - reflexivity.
  - reflexivity.
  - reflexivity.
  - exact reads_float_literal.
Defined.

(** The same body, computed: an accented letter and a character above
    U+FFFF in the transcript, and how they are written. *)
Example request_body_text :
  request_text (run_once_payload (py "llama3") (py "Summarise.")
                  [233; 128512]%N true false (Float (py "1.5")) 8192 256)
  = jq ("{'model': 'llama3', 'prompt': 'Summarise.\n\n"
        ++ "===TRANSCRIPT_BEGIN===\n\u00e9\ud83d\ude00\n"
        ++ "===TRANSCRIPT_END===\n', 'stream': false, "
        ++ "'options': {'temperature': 1.5, 'num_ctx': 8192, "
        ++ "'num_predict': 256}, 'format': 'json'}")%string.
Proof. reflexivity. Qed.

End RequestScenario.

(* ------------------------------------------------------------------ *)
(** ** The text of a line and its encoding                             *)
(* ------------------------------------------------------------------ *)

Section LogEncoding.
Local Open Scope N_scope.
Variable float_text : pystr -> pystr.
Variable rounded_text : rounded -> pystr.

Notation dumps := (dumps float_text).
Notation log_text := (log_text float_text rounded_text).

Lemma encodes_app (a b : pystr) : encodes (a ++ b) = encodes a && encodes b.
Proof. unfold encodes. now rewrite existsb_app, negb_orb. Qed.

Lemma encodes_cons (c : N) (s : pystr) :
  encodes (c :: s) = negb (is_surrogate c) && encodes s.
Proof. unfold encodes. cbn [existsb]. now rewrite negb_orb. Qed.

Lemma encodes_ascii_text (s : pystr) : ascii_text s -> encodes s = true.
Proof.
  intros H. induction H as [|c s Hc _ IH]; [reflexivity|].
  rewrite encodes_cons, IH. unfold is_surrogate.
  destruct (N.leb_spec 55296 c); [lia|reflexivity].
Qed.

Lemma encodes_repr_int (z : Z) : encodes (repr_int z) = true.
Proof. apply encodes_ascii_text, repr_int_ascii. Qed.

(** An escape is ASCII; a character that is not escaped is written as it
    is. *)
Lemma encodes_escape_char (c : N) :
  encodes (escape_char c) = negb (is_surrogate c).
Proof.
  unfold escape_char.
  repeat match goal with
         | |- context [if ?x =? ?y then _ else _] =>
             destruct (N.eqb_spec x y) as [->|?]; [reflexivity|]
         end.
  destruct (N.ltb_spec c 32) as [Hc|Hc].
  - rewrite encodes_ascii_text.
    + unfold is_surrogate. destruct (N.leb_spec 55296 c); [lia|reflexivity].
    + assert (H1 : c / 16 < 16) by (apply N.Div0.div_lt_upper_bound; lia).
      assert (H2 : c mod 16 < 16) by (apply N.mod_lt; lia).
      pose proof (hexdigit_ascii _ H1). pose proof (hexdigit_ascii _ H2).
      repeat (apply Forall_cons; [lia|]). apply Forall_nil.
  - rewrite encodes_cons. cbn. now rewrite andb_true_r.
Qed.

Lemma encodes_basestring (s : pystr) :
  encodes (encode_basestring s) = encodes s.
Proof.
  unfold encode_basestring. rewrite encodes_cons, encodes_app.
  cbn [is_surrogate]. change (encodes [34]) with true.
  rewrite andb_true_r. change (negb (is_surrogate 34)) with true.
  cbn [andb]. induction s as [|c s IH]; [reflexivity|].
  cbn [flat_map]. now rewrite encodes_app, encodes_escape_char, encodes_cons, IH.
Qed.

Lemma encodes_join (sep : pystr) (parts : list pystr) :
  encodes sep = true -> encodes (join sep parts) = forallb encodes parts.
Proof.
  intros Hsep. induction parts as [|x rest IH]; [reflexivity|].
  rewrite join_cons. cbn [forallb]. rewrite encodes_app. f_equal.
  destruct rest as [|y rest]; [reflexivity|].
  now rewrite encodes_app, Hsep, IH.
Qed.

Lemma encodes_object_text (members : list (pystr * pystr)) :
  encodes (object_text members)
  = forallb (fun kv => encodes (fst kv) && encodes (snd kv)) members.
Proof.
  unfold object_text. rewrite !encodes_app, encodes_join by reflexivity.
  change (encodes (py "{")) with true. change (encodes (py "}")) with true.
  rewrite andb_true_r. cbn [andb].
  induction members as [|[k v] members IH]; [reflexivity|].
  cbn [map forallb fst snd]. rewrite IH. f_equal.
  unfold member. cbn [fst snd].
  now rewrite !encodes_app, encodes_basestring.
Qed.

(** What [json.dumps] writes of a value can be encoded exactly when the
    strings and the keys the value holds can, provided the texts of the
    floats can. *)
Lemma encodes_dumps :
  (forall x, encodes (float_text x) = true) ->
  forall v, encodes (dumps v) = utf8_ok v.
Proof.
  intros Hfloat. apply pyval_nested_ind.
  - reflexivity.
  - intros [|]; reflexivity.
  - intros z. apply encodes_repr_int.
  - intros x. apply Hfloat.
  - intros s. apply encodes_basestring.
  - intros items Hall. cbn [Dumps.dumps utf8_ok].
    rewrite !encodes_app, encodes_join by reflexivity.
    change (encodes (py "[")) with true. change (encodes (py "]")) with true.
    rewrite andb_true_r. cbn [andb].
    induction Hall as [|v items Hv _ IH]; [reflexivity|].
    cbn [map forallb]. now rewrite Hv, IH.
  - intros items Hall. cbn [Dumps.dumps utf8_ok].
    rewrite encodes_object_text.
    rewrite (as_dict_map dumps items), (as_dict_map utf8_ok items).
    pose proof (as_dict_Forall (fun v => encodes (dumps v) = utf8_ok v)
                  items Hall) as Hd.
    induction Hd as [|[k v] d Hv _ IH]; [reflexivity|].
    cbn [map forallb fst snd] in *. now rewrite Hv, IH.
Qed.

(** [write_log_line] by the text it writes: the file gets the line when
    the text that [json.dumps] makes of the record can be encoded as UTF-8,
    and the call raises, the file as it was, when the text holds a
    surrogate; the texts of the floats are taken to hold none. *)
Theorem write_log_line_by_text (file : list P.LogLine) (ts : pystr)
    (rr : P.RunResult) (lo hi : Z) :
  (forall x, encodes (float_text x) = true) ->
  (forall r, encodes (rounded_text r) = true) ->
  P.write_log_line file ts rr lo hi
  = if encodes (log_text (P.log_line ts rr lo hi))
    then Return (file ++ [P.log_line ts rr lo hi])
    else Raise UnicodeEncodeError.
Proof.
  intros Hfloat Hrounded. unfold P.write_log_line. cbv zeta.
  replace (encodes (log_text (P.log_line ts rr lo hi)))
    with (P.line_encodes (P.log_line ts rr lo hi)); [reflexivity|].
  generalize (P.log_line ts rr lo hi) as l. intros l.
  assert (Ho : forall o, encodes (outcome_name o) = true)
    by (intros []; reflexivity).
  unfold Dumps.log_text, P.line_encodes.
  rewrite encodes_app, encodes_object_text. cbn [forallb fst snd].
  rewrite !(encodes_dumps Hfloat), !encodes_basestring, Hrounded, Ho.
  rewrite !encodes_repr_int.
  repeat match goal with
         | |- context [encodes (py ?s)] => change (encodes (py s)) with true
         end.
  change (encodes [10]) with true.
  cbn [andb]. now rewrite !andb_true_r, !andb_assoc.
Qed.

End LogEncoding.

Section LogEncodingScenario.

(** A record whose preview is a lone surrogate: its text cannot be
    encoded, and nothing is written. *)
Lemma write_log_line_by_text_witness :
  let rr := {| P.n_chars := 2; P.elapsed_s := Float (py "1.0");
               P.http_status := 200; P.done_reason := PStr (py "stop");
               P.eval_count := PNone; P.prompt_eval_count := PNone;
               P.total_duration := PNone; P.raw_response_len := 1;
               P.outcome := OK_TEXT; P.response_preview := [55357%N] |} in
  let line := P.log_line (py "2026-01-01 00:00:00") rr 1 4 in
  encodes (log_text (fun _ => py "1.5") (fun _ => py "1.5") line) = false /\
  P.write_log_line [] (py "2026-01-01 00:00:00") rr 1 4
  = Raise UnicodeEncodeError.
Proof.
  intros rr line. split; [reflexivity|].
  rewrite (write_log_line_by_text (fun _ => py "1.5") (fun _ => py "1.5")
             [] (py "2026-01-01 00:00:00") rr 1 4);
    [reflexivity| intros _; reflexivity | intros _; reflexivity].
Defined.

End LogEncodingScenario.
